(** * netbox-sync: the schema-bound object model of [module/netbox/object_classes.py]

    A shallow embedding of the NetBox object classes: the per-class data
    model, [NetBoxObject.update] with its validation and change tracking,
    relation resolution, the tag and VLAN list compilers, display names and
    the slug formatter, followed by the properties established about them.

    Conventions of the embedding.
    - A Python [str] is a [string]; every character is a code point below 256,
      and [lower] acts on it as Python does on that range.
    - A Python [int] is a [Z], a [float] a [spec_float] of binary64.
    - A [dict] is an association list in insertion order, keys unique.
    - Instances of [NetBoxObject] live in a heap and are referred to by
      handle; [==] on two instances is identity, as the classes define no
      [__eq__].
    - A method that can raise returns an [Outcome]; [sys.exit] is [Exit].
    - The inventory ([module/netbox/inventory.py]) and a few builtins of the
      interpreter whose tables are not reproduced (float repr and parsing,
      [ipaddress.ip_network], the recursion limit) are parameters. *)

From Stdlib Require Import ZArith List String Ascii Bool Lia Arith.
From Stdlib Require Import DecimalString.
From Stdlib Require Import Floats.SpecFloat.
From Stdlib Require Import Permutation Sorted.
Import ListNotations.

#[local] Set Warnings "-register-all".

Local Open Scope list_scope.
Local Open Scope string_scope.

(* ================================================================== *)
(** ** Strings *)

Module PyStr.

Definition code (c : ascii) : N := N_of_ascii c.

Definition dquote : ascii := ascii_of_nat 34.

  (** [str.lower] on one code point below 256: A-Z and the Latin-1 capitals
      (U+00C0..U+00DE without the multiplication sign) move up by 32. *)
Definition lower_char (c : ascii) : ascii :=
    let n := code c in
    if ((65 <=? n) && (n <=? 90))%N
       || ((192 <=? n) && (n <=? 222) && negb (n =? 215))%N
    then ascii_of_N (n + 32) else c.

Fixpoint map_chars (f : ascii -> ascii) (s : string) : string :=
    match s with
    | EmptyString => EmptyString
    | String c r => String (f c) (map_chars f r)
    end.

Fixpoint filter_chars (p : ascii -> bool) (s : string) : string :=
    match s with
    | EmptyString => EmptyString
    | String c r => if p c then String c (filter_chars p r) else filter_chars p r
    end.

Fixpoint all_chars (p : ascii -> bool) (s : string) : bool :=
    match s with
    | EmptyString => true
    | String c r => p c && all_chars p r
    end.

Fixpoint mem_char (c : ascii) (s : string) : bool :=
    match s with
    | EmptyString => false
    | String d r => Ascii.eqb c d || mem_char c r
    end.

Definition lower (s : string) : string := map_chars lower_char s.

  (** [s.replace(sep, by)] for one-character [sep] and [by]. *)
Definition replace_char (sep by_ : ascii) (s : string) : string :=
    map_chars (fun c => if Ascii.eqb c sep then by_ else c) s.

  (** [s.replace(sep, "")] for a one-character [sep]. *)
Definition remove_char (sep : ascii) (s : string) : string :=
    filter_chars (fun c => negb (Ascii.eqb c sep)) s.

Fixpoint take (n : nat) (s : string) : string :=
    match n, s with
    | O, _ => EmptyString
    | S _, EmptyString => EmptyString
    | S k, String c r => String c (take k r)
    end.

  (** [s[0:n]]: a negative stop counts from the end. *)
Definition slice0 (s : string) (n : Z) : string :=
    if (0 <=? n)%Z then take (Z.to_nat n) s
    else take (Z.to_nat (Z.of_nat (String.length s) + n)) s.

Definition startswith (p s : string) : bool := String.prefix p s.

Definition of_Z (z : Z) : string := NilZero.string_of_int (Z.to_int z).

Definition hex_digit (n : N) : ascii :=
    if (n <? 10)%N then ascii_of_N (48 + n) else ascii_of_N (87 + n).

  (** The characters [repr] of a [str] writes as [\xNN]. *)
Definition unprintable (c : ascii) : bool :=
    let n := code c in
    ((n <? 32) || ((127 <=? n) && (n <=? 160)) || (n =? 173))%N.

Definition escape_char (quote c : ascii) : string :=
    if Ascii.eqb c quote || Ascii.eqb c "\"%char then String "\"%char (String c EmptyString)
    else if Ascii.eqb c "009"%char then "\t"
    else if Ascii.eqb c "010"%char then "\n"
    else if Ascii.eqb c "013"%char then "\r"
    else if unprintable c
         then String "\"%char (String "x"%char
                (String (hex_digit (code c / 16)) (String (hex_digit (code c mod 16)) EmptyString)))
    else String c EmptyString.

Fixpoint escape (quote : ascii) (s : string) : string :=
    match s with
    | EmptyString => EmptyString
    | String c r => escape_char quote c ++ escape quote r
    end.

  (** [repr(s)]: single quotes unless [s] holds a single quote and no
      double quote. *)
Definition repr (s : string) : string :=
    let q := if mem_char "'"%char s && negb (mem_char dquote s)
             then dquote else "'"%char in
    String q (escape q s ++ String q EmptyString).

Fixpoint join (sep : string) (l : list string) : string :=
    match l with
    | [] => EmptyString
    | [x] => x
    | x :: r => x ++ sep ++ join sep r
    end.

Fixpoint ltb (a b : string) : bool :=
    match a, b with
    | _, EmptyString => false
    | EmptyString, String _ _ => true
    | String c r, String d t =>
        if (code c <? code d)%N then true
        else if (code d <? code c)%N then false
        else ltb r t
    end.

End PyStr.

(* ================================================================== *)
(** ** Outcomes *)

Inductive Exn : Type :=
| AttributeError | TypeError | ValueError | OverflowError | RecursionError
| OutOfModel.
(** [OutOfModel] marks the places where a run leaves the part of the
    interpreter that is embedded here (the text of an entity nested in a
    plain container, ordering of values Python orders by a table that is not
    reproduced). *)

Inductive Outcome (A : Type) : Type :=
| Ok (a : A)
| Raise (e : Exn)
| Exit.
Arguments Ok {A} a.
Arguments Raise {A} e.
Arguments Exit {A}.

Definition obind {A B} (x : Outcome A) (f : A -> Outcome B) : Outcome B :=
  match x with
  | Ok a => f a
  | Raise e => Raise e
  | Exit => Exit
  end.

(* ================================================================== *)
(** ** Values *)

Inductive ListClass : Type := NBTagList | NBVLANList.

Inductive Value : Type :=
| VNone
| VBool (b : bool)
| VInt (z : Z)
| VFloat (f : spec_float)
| VStr (s : string)
| VNet (v6 : bool) (text : string)      (* IPv4Network / IPv6Network, with its str() *)
| VList (l : list Value)
| VDict (d : list (string * Value))
| VObj (h : nat)                        (* a NetBoxObject instance *)
| VObjList (c : ListClass) (l : list Value).

Definition Dict : Type := list (string * Value).

Fixpoint dict_get (k : string) (d : Dict) : option Value :=
  match d with
  | [] => None
  | (k', v) :: r => if String.eqb k k' then Some v else dict_get k r
  end.

(** [d.get(k)] *)
Definition py_get (k : string) (d : Dict) : Value :=
  match dict_get k d with Some v => v | None => VNone end.

(** [d[k] = v] *)
Fixpoint dict_set (k : string) (v : Value) (d : Dict) : Dict :=
  match d with
  | [] => [(k, v)]
  | (k', v') :: r =>
      if String.eqb k k' then (k, v) :: r else (k', v') :: dict_set k v r
  end.

Definition dict_has (k : string) (d : Dict) : bool :=
  match dict_get k d with Some _ => true | None => false end.

Definition is_none (v : Value) : bool :=
  match v with VNone => true | _ => false end.

(* ================================================================== *)
(** ** The slug formatter *)

Definition permitted_chars : string :=
  "abcdefghijklmnopqrstuvwxyz" ++ "0123456789" ++ "_-".

Definition permitted (c : ascii) : bool := PyStr.mem_char c permitted_chars.

Definition replace_separators (text : string) : string :=
  fold_left (fun t sep => PyStr.replace_char sep "-"%char t)
            [" "%char; ","%char; "."%char] text.

(** [NetBoxObject.format_slug(text, max_len)] *)
Definition format_slug (text : Value) (max_len : Z) : Outcome string :=
  match text with
  | VNone => Raise AttributeError
  | VStr s =>
      if (String.length s =? 0)%nat then Raise AttributeError
      else
        let text := replace_separators s in
        let text := PyStr.filter_chars permitted (PyStr.lower text) in
        Ok (PyStr.slice0 text max_len)
  | VList _ | VObjList _ _ | VDict _ => Raise AttributeError  (* len() == 0, or no .replace *)
  | VBool _ | VInt _ | VFloat _ | VNet _ _ | VObj _ => Raise TypeError  (* no len() *)
  end.

(* ================================================================== *)
(** ** Numbers, equality and text of values *)

(** binary64 *)
Definition float_of_Z (z : Z) : spec_float := binary_normalize 53 1024 z 0 false.

(** Python compares an [int] with a [float] exactly, not after conversion. *)
Definition compare_Z_float (z : Z) (f : spec_float) : option comparison :=
  match f with
  | S754_nan => None
  | S754_infinity s => Some (if s then Gt else Lt)
  | S754_zero _ => Some (Z.compare z 0)
  | S754_finite s m e =>
      let sm := if s then Z.neg m else Z.pos m in
      Some (if (0 <=? e)%Z then Z.compare z (sm * 2 ^ e)
            else Z.compare (z * 2 ^ (- e)) sm)
  end.

Inductive Num : Type := NInt (z : Z) | NFlt (f : spec_float).

Definition as_num (v : Value) : option Num :=
  match v with
  | VBool b => Some (NInt (if b then 1 else 0))
  | VInt z => Some (NInt z)
  | VFloat f => Some (NFlt f)
  | _ => None
  end.

Definition num_compare (a b : Num) : option comparison :=
  match a, b with
  | NInt x, NInt y => Some (Z.compare x y)
  | NInt x, NFlt g => compare_Z_float x g
  | NFlt f, NInt y => option_map CompOpp (compare_Z_float y f)
  | NFlt f, NFlt g => SFcompare f g
  end.

Definition num_eqb (a b : Num) : bool :=
  match num_compare a b with Some Eq => true | _ => false end.

(** [a == b].  Two entities are equal when they are the same instance; a
    list equals a list (of either kind) elementwise, a dict equals a dict
    with the same keys and equal values. *)
Fixpoint py_eq (a b : Value) {struct a} : bool :=
  let list_eq :=
    fix go (l m : list Value) {struct l} : bool :=
      match l, m with
      | [], [] => true
      | x :: l', y :: m' => py_eq x y && go l' m'
      | _, _ => false
      end in
  match a with
  | VNone => is_none b
  | VBool x =>
      match as_num b with Some n => num_eqb (NInt (if x then 1 else 0)) n | None => false end
  | VInt x => match as_num b with Some n => num_eqb (NInt x) n | None => false end
  | VFloat x => match as_num b with Some n => num_eqb (NFlt x) n | None => false end
  | VStr s => match b with VStr t => String.eqb s t | _ => false end
  | VNet v s => match b with VNet w t => Bool.eqb v w && String.eqb s t | _ => false end
  | VObj h => match b with VObj k => Nat.eqb h k | _ => false end
  | VList l | VObjList _ l =>
      match b with
      | VList m | VObjList _ m => list_eq l m
      | _ => false
      end
  | VDict d =>
      match b with
      | VDict e =>
          Nat.eqb (List.length d) (List.length e)
          && (fix go (d : Dict) : bool :=
                match d with
                | [] => true
                | (k, v) :: r =>
                    match dict_get k e with
                    | Some v' => py_eq v v'
                    | None => false
                    end && go r
                end) d
      | _ => false
      end
  end.

(** [x in l] *)
Definition py_in (x : Value) (l : list Value) : bool := existsb (py_eq x) l.

(** What the interpreter supplies and this development does not reproduce. *)
Record Runtime : Type := {
  float_repr : spec_float -> string;          (* repr(f) *)
  float_of_str : string -> option spec_float; (* float(s); None is ValueError *)
  ip_network : Value -> option (bool * string);
      (* ipaddress.ip_network(x): the version and text of the network;
         None is ValueError *)
  recursion_limit : nat
}.

Section Text.
Context (rt : Runtime).

  (** [repr(v)].  The text of an entity inside a container carries its
      address in memory and is left out. *)
Fixpoint py_repr (v : Value) : Outcome string :=
    let items :=
      fix go (l : list Value) : Outcome (list string) :=
        match l with
        | [] => Ok []
        | x :: r => obind (py_repr x) (fun s => obind (go r) (fun t => Ok (s :: t)))
        end in
    match v with
    | VNone => Ok "None"
    | VBool b => Ok (if b then "True" else "False")
    | VInt z => Ok (PyStr.of_Z z)
    | VFloat f => Ok (float_repr rt f)
    | VStr s => Ok (PyStr.repr s)
    | VNet v6 t =>
        Ok ((if v6 then "IPv6Network('" else "IPv4Network('") ++ t ++ "')")
    | VList l | VObjList _ l =>
        obind (items l) (fun ss => Ok ("[" ++ PyStr.join ", " ss ++ "]"))
    | VDict d =>
        obind ((fix go (d : Dict) : Outcome (list string) :=
                  match d with
                  | [] => Ok []
                  | (k, x) :: r =>
                      obind (py_repr x) (fun s =>
                      obind (go r) (fun t => Ok ((PyStr.repr k ++ ": " ++ s) :: t)))
                  end) d)
              (fun ss => Ok ("{" ++ PyStr.join ", " ss ++ "}"))
    | VObj _ => Raise OutOfModel
    end.

  (** [str(v)], also what an f-string writes for [v]. *)
Definition py_str (v : Value) : Outcome string :=
    match v with
    | VStr s => Ok s
    | VNet _ t => Ok t
    | _ => py_repr v
    end.

  (** [float(v)] *)
Definition py_float (v : Value) : Outcome spec_float :=
    match v with
    | VBool b => Ok (float_of_Z (if b then 1 else 0))
    | VInt z =>
        match float_of_Z z with
        | S754_infinity _ => Raise OverflowError
        | f => Ok f
        end
    | VFloat f => Ok f
    | VStr s =>
        match float_of_str rt s with Some f => Ok f | None => Raise ValueError end
    | _ => Raise TypeError
    end.

End Text.

(** [isinstance(v, (int, float))] *)
Definition is_int_or_float (v : Value) : bool :=
  match v with VBool _ | VInt _ | VFloat _ => true | _ => false end.

(** [sorted(l)] for the values Python orders without a table of its own:
    all strings, or all numbers without a NaN.  A list of two or more values
    holding a [None], a dict or an entity, or mixing strings with numbers,
    meets an unordered pair and raises [TypeError]. *)
Inductive SortKind : Type := KStr | KNum | KUnordered | KOther.

Definition sort_kind (v : Value) : SortKind :=
  match v with
  | VStr _ => KStr
  | VBool _ | VInt _ => KNum
  | VFloat S754_nan => KOther
  | VFloat _ => KNum
  | VNone | VDict _ | VObj _ => KUnordered
  | VList _ | VObjList _ _ | VNet _ _ => KOther
  end.

Definition py_lt (a b : Value) : bool :=
  match a, b with
  | VStr s, VStr t => PyStr.ltb s t
  | _, _ =>
      match as_num a, as_num b with
      | Some x, Some y =>
          match num_compare x y with Some Lt => true | _ => false end
      | _, _ => false
      end
  end.

Fixpoint insert_sorted (x : Value) (l : list Value) : list Value :=
  match l with
  | [] => [x]
  | y :: r => if py_lt x y then x :: y :: r else y :: insert_sorted x r
  end.

(** A stable insertion sort: equal keys keep their order. *)
Definition stable_sort (l : list Value) : list Value :=
  fold_left (fun acc x => insert_sorted x acc) l [].

Definition is_kind (k : SortKind) (v : Value) : bool :=
  match k, sort_kind v with
  | KStr, KStr | KNum, KNum | KUnordered, KUnordered | KOther, KOther => true
  | _, _ => false
  end.

Definition py_sorted (l : list Value) : Outcome (list Value) :=
  match l with
  | [] | [_] => Ok l
  | _ =>
      if forallb (is_kind KStr) l || forallb (is_kind KNum) l then Ok (stable_sort l)
      else if existsb (is_kind KOther) l then Raise OutOfModel
      else Raise TypeError
  end.

(* ================================================================== *)
(** ** The classes and their data models *)

Inductive Class : Type :=
| NBTag | NBTenant | NBSite | NBVRF | NBVLAN | NBPrefix | NBManufacturer
| NBDeviceType | NBPlatform | NBClusterType | NBClusterGroup | NBDeviceRole
| NBCluster | NBDevice | NBVM | NBVMInterface | NBInterface | NBIPAddress.

Definition Class_eq_dec (a b : Class) : {a = b} + {a <> b}.
Proof. decide equality. Defined.

Definition class_eqb (a b : Class) : bool :=
  if Class_eq_dec a b then true else false.

(** An entry of a list in a data model: a literal, or a class. *)
Inductive Choice : Type :=
| CStr (s : string)
| CClass (c : Class)
| CNetClass (v6 : bool).

(** The values a data model gives to a key. *)
Inductive DType : Type :=
| TMaxLen (n : Z)            (* an int: a string of at most n characters *)
| TInt | TFloat | TStr | TBool | TObject   (* the classes int, float, str, bool, object *)
| TRef (c : Class)           (* a sub class of NetBoxObject *)
| TRefList (l : ListClass)   (* a sub class of NBObjectList *)
| TChoice (l : list Choice). (* a list *)

Definition member_type (l : ListClass) : Class :=
  match l with NBTagList => NBTag | NBVLANList => NBVLAN end.

Definition class_name (c : Class) : string :=
  match c with
  | NBTag => "tag" | NBTenant => "tenant" | NBSite => "site" | NBVRF => "VRF"
  | NBVLAN => "VLAN" | NBPrefix => "IP prefix" | NBManufacturer => "manufacturer"
  | NBDeviceType => "device type" | NBPlatform => "platform"
  | NBClusterType => "cluster type" | NBClusterGroup => "cluster group"
  | NBDeviceRole => "device role" | NBCluster => "cluster" | NBDevice => "device"
  | NBVM => "virtual machine" | NBVMInterface => "virtual machine interface"
  | NBInterface => "interface" | NBIPAddress => "IP address"
  end.

Definition primary_key (c : Class) : string :=
  match c with
  | NBVLAN => "vid"
  | NBPrefix => "prefix"
  | NBDeviceType => "model"
  | NBIPAddress => "address"
  | _ => "name"
  end.

Definition secondary_key (c : Class) : option string :=
  match c with
  | NBVLAN => Some "name"
  | NBDevice => Some "site"
  | NBVM => Some "cluster"
  | NBVMInterface => Some "virtual_machine"
  | NBInterface => Some "device"
  | _ => None
  end.

Definition enforce_secondary_key (c : Class) : bool :=
  match c with
  | NBVLAN | NBVMInterface | NBInterface => true
  | _ => false
  end.

Definition prune (c : Class) : bool :=
  match c with
  | NBDevice | NBVM | NBVMInterface | NBInterface | NBIPAddress => true
  | _ => false
  end.

Definition choices (l : list string) : DType := TChoice (map CStr l).

Definition data_model (c : Class) : list (string * DType) :=
  match c with
  | NBTag =>
      [("name", TMaxLen 100); ("slug", TMaxLen 100); ("color", TMaxLen 6);
       ("description", TMaxLen 200)]
  | NBTenant =>
      [("name", TMaxLen 30); ("slug", TMaxLen 50); ("comments", TStr);
       ("description", TMaxLen 200); ("tags", TRefList NBTagList)]
  | NBSite =>
      [("name", TMaxLen 50); ("slug", TMaxLen 50); ("comments", TStr);
       ("tenant", TRef NBTenant); ("tags", TRefList NBTagList)]
  | NBVRF =>
      [("name", TMaxLen 50); ("description", TMaxLen 200);
       ("tenant", TRef NBTenant); ("tags", TRefList NBTagList)]
  | NBVLAN =>
      [("vid", TInt); ("name", TMaxLen 64); ("site", TRef NBSite);
       ("description", TMaxLen 200); ("tenant", TRef NBTenant);
       ("tags", TRefList NBTagList)]
  | NBPrefix =>
      [("prefix", TChoice [CNetClass false; CNetClass true]); ("site", TRef NBSite);
       ("tenant", TRef NBTenant); ("vlan", TRef NBVLAN); ("vrf", TRef NBVRF);
       ("description", TMaxLen 200); ("tags", TRefList NBTagList)]
  | NBManufacturer =>
      [("name", TMaxLen 50); ("slug", TMaxLen 50); ("description", TMaxLen 200)]
  | NBDeviceType =>
      [("model", TMaxLen 50); ("slug", TMaxLen 50); ("part_number", TMaxLen 50);
       ("description", TMaxLen 200); ("manufacturer", TRef NBManufacturer);
       ("tags", TRefList NBTagList)]
  | NBPlatform =>
      [("name", TMaxLen 100); ("slug", TMaxLen 100);
       ("manufacturer", TRef NBManufacturer); ("description", TMaxLen 200)]
  | NBClusterType =>
      [("name", TMaxLen 50); ("slug", TMaxLen 50); ("description", TMaxLen 200)]
  | NBClusterGroup =>
      [("name", TMaxLen 50); ("slug", TMaxLen 50); ("description", TMaxLen 200)]
  | NBDeviceRole =>
      [("name", TMaxLen 50); ("slug", TMaxLen 50); ("color", TMaxLen 6);
       ("description", TMaxLen 200); ("vm_role", TBool)]
  | NBCluster =>
      [("name", TMaxLen 100); ("comments", TStr); ("type", TRef NBClusterType);
       ("group", TRef NBClusterGroup); ("site", TRef NBSite);
       ("tags", TRefList NBTagList)]
  | NBDevice =>
      [("name", TMaxLen 64); ("device_type", TRef NBDeviceType);
       ("device_role", TRef NBDeviceRole); ("platform", TRef NBPlatform);
       ("serial", TMaxLen 50); ("site", TRef NBSite);
       ("status", choices ["offline"; "active"; "planned"; "staged"; "failed";
                           "inventory"; "decommissioning"]);
       ("cluster", TRef NBCluster); ("asset_tag", TMaxLen 50);
       ("primary_ip4", TObject); ("primary_ip6", TObject);
       ("tags", TRefList NBTagList); ("tenant", TRef NBTenant)]
  | NBVM =>
      [("name", TMaxLen 64);
       ("status", choices ["offline"; "active"; "planned"; "staged"; "failed";
                           "decommissioning"]);
       ("cluster", TRef NBCluster); ("role", TRef NBDeviceRole);
       ("platform", TRef NBPlatform); ("vcpus", TFloat); ("memory", TInt);
       ("disk", TInt); ("comments", TStr); ("primary_ip4", TObject);
       ("primary_ip6", TObject); ("tags", TRefList NBTagList);
       ("tenant", TRef NBTenant)]
  | NBVMInterface =>
      [("name", TMaxLen 64); ("virtual_machine", TRef NBVM); ("enabled", TBool);
       ("mac_address", TStr); ("mtu", TInt);
       ("mode", choices ["access"; "tagged"; "tagged-all"]);
       ("untagged_vlan", TRef NBVLAN); ("tagged_vlans", TRefList NBVLANList);
       ("description", TMaxLen 200); ("tags", TRefList NBTagList)]
  | NBInterface =>
      [("name", TMaxLen 64); ("device", TRef NBDevice); ("label", TMaxLen 64);
       ("type", choices ["virtual"; "100base-tx"; "1000base-t"; "10gbase-t";
                         "25gbase-x-sfp28"; "40gbase-x-qsfpp"; "other"]);
       ("enabled", TBool); ("mac_address", TStr); ("mgmt_only", TBool);
       ("mtu", TInt); ("mode", choices ["access"; "tagged"; "tagged-all"]);
       ("untagged_vlan", TRef NBVLAN); ("tagged_vlans", TRefList NBVLANList);
       ("description", TMaxLen 200); ("connection_status", TBool);
       ("tags", TRefList NBTagList)]
  | NBIPAddress =>
      [("address", TStr);
       ("assigned_object_type", choices ["dcim.interface"; "virtualization.vminterface"]);
       ("assigned_object_id", TChoice [CClass NBInterface; CClass NBVMInterface]);
       ("description", TMaxLen 200); ("dns_name", TMaxLen 255);
       ("tags", TRefList NBTagList); ("tenant", TRef NBTenant); ("vrf", TRef NBVRF)]
  end.

Fixpoint model_get (k : string) (m : list (string * DType)) : option DType :=
  match m with
  | [] => None
  | (k', t) :: r => if String.eqb k k' then Some t else model_get k r
  end.

Definition list_class_eqb (a b : ListClass) : bool :=
  match a, b with
  | NBTagList, NBTagList | NBVLANList, NBVLANList => true
  | _, _ => false
  end.

(** [lc in self.data_model.values()] *)
Definition model_has_list (lc : ListClass) (c : Class) : bool :=
  existsb (fun kt => match snd kt with
                     | TRefList l => list_class_eqb l lc
                     | _ => false
                     end) (data_model c).

(** [NBIPAddress.data_model_relation], read from a discriminator value and
    from a class. *)
Definition relation_of_type (v : Value) : Outcome (option Class) :=
  match v with
  | VStr s =>
      if String.eqb s "dcim.interface" then Ok (Some NBInterface)
      else if String.eqb s "virtualization.vminterface" then Ok (Some NBVMInterface)
      else Ok None
  | VList _ | VDict _ | VObjList _ _ => Raise TypeError   (* unhashable *)
  | _ => Ok None
  end.

Definition relation_of_class (c : Class) : Value :=
  match c with
  | NBInterface => VStr "dcim.interface"
  | NBVMInterface => VStr "virtualization.vminterface"
  | _ => VNone
  end.

(* ================================================================== *)
(** ** Entities, the heap and the log *)

Definition Source : Type := nat.

Record Obj : Type := mkObj {
  o_class : Class;
  o_data : Dict;
  o_is_new : bool;
  o_nb_id : Value;
  o_updated_items : list string;
  o_unset_items : list string;
  o_source : option Source
}.

Inductive Level : Type := LDebug2 | LInfo | LError.

(** A log record keeps the values its message formats, not the text; writing
    a value into a message is taken to succeed. *)
Inductive Message : Type :=
| MParsing (c : Class) (display : Value)
| MUndefinedKey (key : string) (c : Class)
| MUnsetKey (key : string) (display : Value)
| MNotStr (c : Class) (key : string) (got : Value)
| MNotOneOf (key : string) (got : Value)
| MNotType (key : string) (expected : DType) (got : Value)
| MChanged (c : Class) (display : Value) (key cur new : string)
| MSecondKey (sk : string) (c : Class) (name got : Value)
| MSeriousErrors
| MResolveProblem (key : string) (display v : Value)
| MCompilingTags
| MCompilingVlans
| MVlanUnparsable (v : Value)
| MTagsAction (remove : bool) (tags : Value)
| MTagsChanged (c : Class) (display cur new : Value)
| MUnset (attr : string) (display : Value)
| MPrefixParse (c : Class) (v : Value)
| MBadObjectType (display o_type : Value)
| MErrorExit (display : Value).

Record LogEntry : Type := mkLog { level : Level; message : Message }.

Definition Heap : Type := list Obj.

(** A computation reads and changes the heap and writes to the log; it
    returns, raises or exits.  The log is write-only. *)
Definition M (A : Type) : Type := Heap -> Outcome (A * Heap * list LogEntry).

Definition ret {A} (a : A) : M A := fun hp => Ok (a, hp, []).

Definition bind {A B} (m : M A) (f : A -> M B) : M B :=
  fun hp =>
    match m hp with
    | Ok (a, hp', l) =>
        match f a hp' with
        | Ok (b, hp'', l') => Ok (b, hp'', (l ++ l')%list)
        | Raise e => Raise e
        | Exit => Exit
        end
    | Raise e => Raise e
    | Exit => Exit
    end.

Definition raise {A} (e : Exn) : M A := fun _ => Raise e.

Definition sys_exit {A} : M A := fun _ => Exit.

Definition lift {A} (o : Outcome A) : M A :=
  fun hp => match o with
            | Ok a => Ok (a, hp, [])
            | Raise e => Raise e
            | Exit => Exit
            end.

Definition ask {A} (f : Heap -> Outcome A) : M A := fun hp => lift (f hp) hp.

Declare Scope m_scope.
Delimit Scope m_scope with m.
Notation "x <- m ;; k" := (bind m (fun x => k))
  (at level 100, m at next level, right associativity) : m_scope.
Notation "m ;;; k" := (bind m (fun _ => k))
  (at level 100, right associativity) : m_scope.
Local Open Scope m_scope.

Definition emit (l : Level) (m : Message) : M unit :=
  fun hp => Ok (tt, hp, [mkLog l m]).

Definition get_obj (h : nat) : M Obj :=
  fun hp => match nth_error hp h with
            | Some o => Ok (o, hp, [])
            | None => Raise OutOfModel
            end.

Fixpoint list_set {A} (n : nat) (x : A) (l : list A) : list A :=
  match l, n with
  | [], _ => []
  | _ :: r, O => x :: r
  | y :: r, S k => y :: list_set k x r
  end.

Definition put_obj (h : nat) (o : Obj) : M unit :=
  fun hp => Ok (tt, list_set h o hp, []).

Definition modify_obj (h : nat) (f : Obj -> Obj) : M unit :=
  o <- get_obj h ;; put_obj h (f o).


Definition set_data (d : Dict) (o : Obj) : Obj :=
  mkObj (o_class o) d (o_is_new o) (o_nb_id o) (o_updated_items o)
        (o_unset_items o) (o_source o).

Definition set_nb_id (v : Value) (o : Obj) : Obj :=
  mkObj (o_class o) (o_data o) (o_is_new o) v (o_updated_items o)
        (o_unset_items o) (o_source o).

Definition set_source (s : option Source) (o : Obj) : Obj :=
  mkObj (o_class o) (o_data o) (o_is_new o) (o_nb_id o) (o_updated_items o)
        (o_unset_items o) s.

Definition set_updated_items (l : list string) (o : Obj) : Obj :=
  mkObj (o_class o) (o_data o) (o_is_new o) (o_nb_id o) l
        (o_unset_items o) (o_source o).

Definition set_unset_items (l : list string) (o : Obj) : Obj :=
  mkObj (o_class o) (o_data o) (o_is_new o) (o_nb_id o) (o_updated_items o)
        l (o_source o).

Definition set_is_new (b : bool) (o : Obj) : Obj :=
  mkObj (o_class o) (o_data o) b (o_nb_id o) (o_updated_items o)
        (o_unset_items o) (o_source o).

(** [for x in l: acc = f(acc, x)] *)
Fixpoint foldM {A B} (f : A -> B -> M A) (l : list B) (a : A) : M A :=
  match l with
  | [] => ret a
  | x :: r => a' <- f a x ;; foldM f r a'
  end.

(** [for x in l: f(x)] *)
Fixpoint forM_ {B} (f : B -> M unit) (l : list B) : M unit :=
  match l with
  | [] => ret tt
  | x :: r => f x ;;; forM_ f r
  end.

(** [[f(x) for x in l]] *)
Fixpoint mapM {A B} (f : A -> M B) (l : list A) : M (list B) :=
  match l with
  | [] => ret []
  | x :: r => y <- f x ;; ys <- mapM f r ;; ret (y :: ys)
  end.

(** The inventory, [module/netbox/inventory.py]: the registry of all
    entities, which are the entities of the heap.  [add_update_object] hands
    out the entity for the given data, creating it (and what it needs) when
    there is none: it returns a handle and the entities to add to the heap.
    [get_by_data] and [get_by_id] look one up and create nothing. *)
Record Inventory : Type := {
  add_update_object : option Class -> Value -> option Source -> Heap
                      -> Outcome (nat * list Obj);
  get_by_data : Class -> Value -> Heap -> Outcome (option nat);
  get_by_id : option Class -> Value -> Heap -> Outcome (option nat)
}.

Definition inventory_add (inv : Inventory) (c : option Class) (data : Value)
    (source : option Source) : M nat :=
  fun hp =>
    match add_update_object inv c data source hp with
    | Ok (t, created) => Ok (t, (hp ++ created)%list, [])
    | Raise e => Raise e
    | Exit => Exit
    end.

(** Iterating over a value. *)
Definition py_iter (v : Value) : Outcome (list Value) :=
  match v with
  | VList l | VObjList _ l => Ok l
  | VDict d => Ok (map (fun kv => VStr (fst kv)) d)
  | VStr s => Ok (map (fun c => VStr (String c EmptyString)) (list_ascii_of_string s))
  | VNet _ _ => Raise OutOfModel      (* the addresses of the network *)
  | VNone | VBool _ | VInt _ | VFloat _ | VObj _ => Raise TypeError
  end.

(** [grab(self, "data.<key>", fallback)] of [module/common/misc.py]: the
    value under the key, or the fallback when the key is missing or its value
    is None. *)
Definition grab_data (key : string) (fallback : Value) (o : Obj) : Value :=
  match py_get key (o_data o) with
  | VNone => fallback
  | v => v
  end.

(* ================================================================== *)
(** ** The methods of [NetBoxObject] and its sub classes *)

(** Whose display name is asked for: an entity (with the optional [data]
    argument), or whatever value [.get_display_name()] is called on. *)
Inductive NameReq : Type :=
| OfEntity (h : nat) (data : option Dict) (including_second_key : bool)
| OfValue (x : Value).

Definition opt_obj (r : option nat) : Value :=
  match r with Some t => VObj t | None => VNone end.

Definition value_in_choices (v : Value) (l : list Choice) : bool :=
  existsb (fun ch => match ch with CStr s => py_eq v (VStr s) | _ => false end) l.

Definition class_in_choices (c : Class) (l : list Choice) : bool :=
  existsb (fun ch => match ch with CClass c' => class_eqb c c' | _ => false end) l.

Definition CR : ascii := "013"%char.
Definition LF : ascii := "010"%char.

Definition store (key : string) (v : Value) (o : Obj) : Obj :=
  set_data (dict_set key v (o_data o)) o.

Definition append_updated (key : string) (o : Obj) : Obj :=
  set_updated_items (o_updated_items o ++ [key])%list o.

Section Model.
Context (rt : Runtime) (inv : Inventory).

  (** [NetBoxObject.get_display_name], with [rec] for the calls it makes on
      other entities and on itself. *)
Definition base_get_display_name (rec : NameReq -> M Value)
      (h : nat) (data : option Dict) (including_second_key : bool) : M Value :=
    o <- get_obj h ;;
    let c := o_class o in
    let this_data_set := match data with Some d => d | None => o_data o end in
    let my_name := py_get (primary_key c) this_data_set in
    match secondary_key c with
    | Some sk =>
        if negb (is_none my_name) && (enforce_secondary_key c || including_second_key)
        then
          let skv := py_get sk this_data_set in
          skv1 <- match skv with
                  | VObj h' => rec (OfEntity h' None false)
                  | _ => ret skv
                  end ;;
          skv2 <- match skv1 with
                  | VDict d => rec (OfEntity h (Some d) false)
                  | _ => ret skv1
                  end ;;
          (if is_none skv2
           then emit LError (MSecondKey sk c my_name skv) ;;; emit LError MSeriousErrors
           else ret tt) ;;;
          a <- lift (py_str rt my_name) ;;
          b <- lift (py_str rt skv2) ;;
          ret (VStr (a ++ " (" ++ b ++ ")"))
        else ret my_name
    | None => ret my_name
    end.

  (** [NBVLAN.get_display_name] *)
Definition vlan_get_display_name (rec : NameReq -> M Value)
      (h : nat) (data : option Dict) (including_second_key : bool) : M Value :=
    my_name <- base_get_display_name rec h data including_second_key ;;
    o <- get_obj h ;;
    let this_data_set := match data with Some d => d | None => o_data o end in
    let this_site := py_get "site" this_data_set in
    if is_none this_site then ret my_name
    else
      let vlan_id := py_get (primary_key (o_class o)) this_data_set in
      site_name <- match this_site with
                   | VObj h' => rec (OfEntity h' None false)
                   | _ => ret VNone
                   end ;;
      let site_name := match this_site with
                       | VDict d => py_get "name" d
                       | _ => site_name
                       end in
      if is_none site_name then ret my_name
      else
        a <- lift (py_str rt vlan_id) ;;
        b <- lift (py_str rt site_name) ;;
        ret (VStr (a ++ " (" ++ b ++ ")")).

  (** Method dispatch for [get_display_name], on entities and on
      [NBObjectList]; the depth of the calls is bounded by the recursion
      limit. *)
Fixpoint display (fuel : nat) (r : NameReq) : M Value :=
    match fuel with
    | O => raise RecursionError
    | S f =>
        match r with
        | OfEntity h data incl =>
            o <- get_obj h ;;
            match o_class o with
            | NBVLAN => vlan_get_display_name (display f) h data incl
            | _ => base_get_display_name (display f) h data incl
            end
        | OfValue x =>
            match x with
            | VObj h => display f (OfEntity h None false)
            | VObjList _ l =>
                names <- mapM (fun y => display f (OfValue y)) l ;;
                sorted <- lift (py_sorted names) ;;
                ret (VList sorted)
            | _ => raise AttributeError
            end
        end
    end.

Definition get_display_name (h : nat) (data : option Dict)
      (including_second_key : bool) : M Value :=
    display (recursion_limit rt) (OfEntity h data including_second_key).

  (** [x.get_display_name()] for a value [x] *)
Definition call_get_display_name (x : Value) : M Value :=
    display (recursion_limit rt) (OfValue x).

  (** [get_tags] *)
Definition get_tags (h : nat) : M (list Value) :=
    o <- get_obj h ;;
    let tags := match dict_get "tags" (o_data o) with
                | Some v => v
                | None => VList []
                end in
    items <- lift (py_iter tags) ;;
    mapM call_get_display_name items.

Definition extract_tags (acc : list Value) (this_tags : Value) : M (list Value) :=
    match this_tags with
    | VObj h' =>
        o' <- get_obj h' ;;
        if class_eqb (o_class o') NBTag
        then n <- get_display_name h' None false ;; ret (acc ++ [n])%list
        else ret acc
    | VStr _ => ret (acc ++ [this_tags])%list
    | VDict d =>
        if is_none (py_get "name" d) then ret acc
        else ret (acc ++ [py_get "name" d])%list
    | _ => ret acc
    end.

Definition tag_data (tag_name : Value) : Value := VDict [("name", tag_name)].

  (** [compile_tags] *)
Definition compile_tags (h : nat) (tags : Value) (remove : bool) : M Value :=
    o <- get_obj h ;;
    if is_none tags || negb (model_has_list NBTagList (o_class o)) then ret VNone
    else
      emit LDebug2 MCompilingTags ;;;
      sanitized_tag_strings <-
        match tags with
        | VList l | VObjList _ l => foldM extract_tags l []
        | _ => extract_tags [] tags
        end ;;
      current_tag_strings <- get_tags h ;;
      lists <-
        foldM (fun (acc : list Value * list Value) tag_name =>
                 let '(new_tags, removed_tags) := acc in
                 new_tags <-
                   (if negb (py_in tag_name current_tag_strings) && negb remove
                    then t <- inventory_add inv (Some NBTag) (tag_data tag_name) None ;;
                         ret (new_tags ++ [VObj t])%list
                    else ret new_tags) ;;
                 removed_tags <-
                   (if py_in tag_name current_tag_strings && remove
                    then t <- ask (get_by_data inv NBTag (tag_data tag_name)) ;;
                         ret (removed_tags ++ [opt_obj t])%list
                    else ret removed_tags) ;;
                 ret (new_tags, removed_tags))
              sanitized_tag_strings ([], []) ;;
      let '(new_tags, removed_tags) := lists in
      o <- get_obj h ;;
      let current_tags := grab_data "tags" (VObjList NBTagList []) o in
      match new_tags with
      | _ :: _ =>
          match current_tags with
          | VList l | VObjList _ l => ret (VObjList NBTagList (new_tags ++ l)%list)
          | _ => raise TypeError
          end
      | [] =>
          match removed_tags with
          | _ :: _ =>
              items <- lift (py_iter current_tags) ;;
              ret (VObjList NBTagList
                     (filter (fun tag => negb (py_in tag removed_tags)) items))
          | [] => ret current_tags
          end
      end.

  (** [update_tags] *)
Definition update_tags (h : nat) (tags : Value) (remove : bool) : M unit :=
    o <- get_obj h ;;
    if is_none tags || negb (model_has_list NBTagList (o_class o)) then ret tt
    else
      emit LDebug2 (MTagsAction remove tags) ;;;
      let current_tags := grab_data "tags" (VObjList NBTagList []) o in
      new_tags <- compile_tags h tags remove ;;
      cd <- call_get_display_name current_tags ;;
      cs <- lift (py_str rt cd) ;;
      nd <- call_get_display_name new_tags ;;
      ns <- lift (py_str rt nd) ;;
      if String.eqb cs ns then ret tt
      else
        modify_obj h (fun o => append_updated "tags" (store "tags" new_tags o)) ;;;
        dn <- get_display_name h None false ;;
        cd' <- call_get_display_name current_tags ;;
        nd' <- call_get_display_name new_tags ;;
        emit LInfo (MTagsChanged (o_class o) dn cd' nd').

Definition add_tags (h : nat) (tags_to_add : Value) : M unit :=
    update_tags h tags_to_add false.

Definition remove_tags (h : nat) (tags_to_remove : Value) : M unit :=
    update_tags h tags_to_remove true.

  (** [compile_vlans] *)
Definition compile_vlans (h : nat) (vlans : Value) : M Value :=
    o <- get_obj h ;;
    if is_none vlans || negb (model_has_list NBVLANList (o_class o)) then ret VNone
    else
      match vlans with
      | VList l | VObjList _ l =>
          emit LDebug2 MCompilingVlans ;;;
          new_vlan_list <-
            foldM (fun (new_vlan_list : list Value) vlan =>
                     new_vlan_object <-
                       match vlan with
                       | VObj h' =>
                           o' <- get_obj h' ;;
                           if class_eqb (o_class o') NBVLAN then ret (Some vlan)
                           else emit LError (MVlanUnparsable vlan) ;;; ret None
                       | VDict _ =>
                           me <- get_obj h ;;
                           t <- inventory_add inv (Some NBVLAN) vlan (o_source me) ;;
                           ret (Some (VObj t))
                       | _ => emit LError (MVlanUnparsable vlan) ;;; ret None
                       end ;;
                     match new_vlan_object with
                     | None => ret new_vlan_list
                     | Some x =>
                         if py_in x new_vlan_list then ret new_vlan_list
                         else ret (new_vlan_list ++ [x])%list
                     end)
                  l [] ;;
          ret (VObjList NBVLANList new_vlan_list)
      | _ => raise ValueError
      end.

  (** [NetBoxObject.resolve_relations] *)
Definition base_resolve_relations (h : nat) : M unit :=
    o <- get_obj h ;;
    forM_ (fun (kt : string * DType) =>
             let '(key, data_type) := kt in
             o <- get_obj h ;;
             let data_value := py_get key (o_data o) in
             if is_none data_value then ret tt
             else
               let data_type := if PyStr.startswith "primary_ip" key
                                then TRef NBIPAddress else data_type in
               match data_type with
               | TRefList lc =>
                   items <- lift (py_iter data_value) ;;
                   resolved <-
                     foldM (fun (acc : list Value) item =>
                              is_member <-
                                match item with
                                | VObj h' =>
                                    o' <- get_obj h' ;;
                                    ret (class_eqb (o_class o') (member_type lc))
                                | _ => ret false
                                end ;;
                              if is_member then ret (acc ++ [item])%list
                              else
                                r <- ask (get_by_data inv (member_type lc) item) ;;
                                ret (match r with
                                     | Some t => (acc ++ [VObj t])%list
                                     | None => acc
                                     end))
                           items [] ;;
                   modify_obj h (store key (VObjList lc resolved))
               | TRef c =>
                   match data_value with
                   | VObj _ => modify_obj h (store key data_value)
                   | _ =>
                       let data_to_find :=
                         match data_value with
                         | VInt _ | VBool _ => VDict [("id", data_value)]
                         | VDict _ => data_value
                         | _ => VNone
                         end in
                       r <- ask (get_by_data inv c data_to_find) ;;
                       match r with
                       | Some t => modify_obj h (store key (VObj t))
                       | None =>
                           dn <- get_display_name h None false ;;
                           emit LError (MResolveProblem key dn data_value)
                       end
                   end
               | _ => ret tt
               end)
          (data_model (o_class o)).

  (** [do_error_exit] of [module/common/misc.py]: logs the message and ends
      the process. *)
Definition do_error_exit {A} (m : Message) : M A :=
    emit LError m ;;; sys_exit.

  (** [NBIPAddress.resolve_relations] *)
Definition ip_resolve_relations (h : nat) : M unit :=
    o <- get_obj h ;;
    let o_id := py_get "assigned_object_id" (o_data o) in
    let o_type := py_get "assigned_object_type" (o_data o) in
    known <- match model_get "assigned_object_type" (data_model (o_class o)) with
             | Some (TChoice l) => ret (value_in_choices o_type l)
             | _ => raise TypeError
             end ;;
    (if negb (is_none o_type) && negb known
     then dn <- get_display_name h None false ;;
          emit LError (MBadObjectType dn o_type) ;;;
          dn' <- get_display_name h None false ;;
          do_error_exit (MErrorExit dn')
     else ret tt) ;;;
    match o_id with
    | VInt _ | VBool _ =>
        c <- lift (relation_of_type o_type) ;;
        r <- ask (get_by_id inv c o_id) ;;
        modify_obj h (store "assigned_object_id" (opt_obj r))
    | _ => ret tt
    end ;;;
    base_resolve_relations h.

Definition resolve_relations (h : nat) : M unit :=
    o <- get_obj h ;;
    match o_class o with
    | NBIPAddress => ip_resolve_relations h
    | _ => base_resolve_relations h
    end.

  (** *** [NetBoxObject.update]: validation of one key *)

  (** A string of bounded length; [None] is [continue]. *)
Definition check_max_len (c : Class) (key : string) (defined : DType)
      (value : Value) : M (option Value) :=
    match defined with
    | TMaxLen n =>
        match value with
        | VStr s =>
            let s := PyStr.slice0 s n in
            if String.eqb key "slug"
            then s' <- lift (format_slug (VStr s) n) ;; ret (Some (VStr s'))
            else ret (Some (VStr (PyStr.slice0 s n)))
        | _ => emit LError (MNotStr c key value) ;;; ret None
        end
    | _ => ret (Some value)
    end.

  (** One of a list of values or classes. *)
Definition check_choice (key : string) (defined : DType) (value : Value)
      : M (option Value) :=
    match defined with
    | TChoice l =>
        match value with
        | VObj h' =>
            o' <- get_obj h' ;;
            if class_in_choices (o_class o') l then ret (Some value)
            else emit LError (MNotOneOf key value) ;;; ret None
        | _ =>
            if value_in_choices value l then ret (Some value)
            else emit LError (MNotOneOf key value) ;;; ret None
        end
    | _ => ret (Some value)
    end.

  (** [bool], [str] or [int] *)
Definition type_check_failed (defined : DType) (value : Value) : bool :=
    match defined with
    | TBool => match value with VBool _ => false | _ => true end
    | TStr => match value with VStr _ => false | _ => true end
    | TInt => match value with VInt _ | VBool _ => false | _ => true end
    | _ => false
    end.

Definition check_type (key : string) (defined : DType) (value : Value)
      : M (option Value) :=
    if type_check_failed defined value
    then emit LError (MNotType key defined value) ;;; ret None
    else ret (Some value).

  (** Tags, VLANs and references to other entities. *)
Definition convert_value (h : nat) (source : option Source) (defined : DType)
      (value : Value) : M Value :=
    value <- match defined with
             | TRefList NBTagList => compile_tags h value false
             | _ => ret value
             end ;;
    value <- match defined with
             | TRefList NBVLANList => compile_vlans h value
             | _ => ret value
             end ;;
    match defined with
    | TRef rc =>
        match value with
        | VObj _ => ret value
        | _ =>
            t <- inventory_add inv (Some rc) value None ;;
            tobj <- get_obj t ;;
            match o_source tobj with
            | None => modify_obj t (set_source source)
            | Some _ => ret tt
            end ;;;
            ret (VObj t)
        end
    | _ => ret value
    end.

Definition parse_item (h : nat) (source : option Source) (display_name : Value)
      (parsed_data : Dict) (kv : string * Value) : M Dict :=
    let '(key, value) := kv in
    o <- get_obj h ;;
    let c := o_class o in
    match model_get key (data_model c) with
    | None => emit LError (MUndefinedKey key c) ;;; ret parsed_data
    | Some model_type =>
        if is_none value
        then emit LInfo (MUnsetKey key display_name) ;;; ret parsed_data
        else
          let defined := if PyStr.startswith "primary_ip" key
                         then TRef NBIPAddress else model_type in
          r <- check_max_len c key defined value ;;
          match r with
          | None => ret parsed_data
          | Some value =>
              r <- check_choice key defined value ;;
              match r with
              | None => ret parsed_data
              | Some value =>
                  r <- check_type key defined value ;;
                  match r with
                  | None => ret parsed_data
                  | Some value =>
                      value <- convert_value h source defined value ;;
                      ret (dict_set key value parsed_data)
                  end
              end
          end
    end.

  (** The slug is derived from the primary key when none was given. *)
Definition derive_slug (c : Class) (parsed_data : Dict) : M Dict :=
    match model_get "slug" (data_model c) with
    | Some slug_type =>
        if is_none (py_get "slug" parsed_data)
           && negb (is_none (py_get (primary_key c) parsed_data))
        then
          match slug_type with
          | TMaxLen n =>
              s <- lift (format_slug (py_get (primary_key c) parsed_data) n) ;;
              ret (dict_set "slug" (VStr s) parsed_data)
          | _ => raise TypeError
          end
        else ret parsed_data
    | None => ret parsed_data
    end.

  (** *** [NetBoxObject.update]: storing one key *)

Definition current_value_text (c : Class) (key : string) (current_value : Value)
      : M string :=
    match current_value with
    | VObj _ | VObjList _ _ =>
        dn <- call_get_display_name current_value ;; lift (py_str rt dn)
    | VDict d =>
        match model_get key (data_model c) with
        | Some (TChoice _) => lift (py_str rt (py_get "value" d))
        | _ =>
            if PyStr.startswith "primary_ip" key
            then lift (py_str rt (py_get "address" d))
            else s <- lift (py_str rt current_value) ;; ret (PyStr.remove_char CR s)
        end
    | _ => s <- lift (py_str rt current_value) ;; ret (PyStr.remove_char CR s)
    end.

Definition new_value_text (new_value : Value) : M string :=
    match new_value with
    | VObj _ | VObjList _ _ =>
        dn <- call_get_display_name new_value ;; lift (py_str rt dn)
    | _ => s <- lift (py_str rt new_value) ;; ret (PyStr.remove_char CR s)
    end.

Definition numeric_model (c : Class) (key : string) : bool :=
    match model_get key (data_model c) with
    | Some TInt | Some TFloat => true
    | _ => false
    end.

  (** The float forms of the two values agree. *)
Definition same_float (c : Class) (key : string) (current_value new_value : Value)
      : M bool :=
    if negb (is_none current_value) && numeric_model c key
       && is_int_or_float new_value
    then fc <- lift (py_float rt current_value) ;;
         fn <- lift (py_float rt new_value) ;;
         ret (SFeqb fc fn)
    else ret false.

Definition apply_item (h : nat) (display_name : Value) (kv : string * Value)
      : M unit :=
    let '(key, new_value) := kv in
    o <- get_obj h ;;
    let c := o_class o in
    let current_value := py_get key (o_data o) in
    if py_eq current_value new_value then ret tt
    else
      current_value_str <- current_value_text c key current_value ;;
      new_value_str <- new_value_text new_value ;;
      same <- same_float c key current_value new_value ;;
      if same then ret tt
      else if String.eqb current_value_str new_value_str then ret tt
      else
        modify_obj h (fun o => append_updated key (store key new_value o)) ;;;
        o <- get_obj h ;;
        (if negb (o_is_new o)
         then emit LInfo (MChanged c display_name key current_value_str
                           (PyStr.replace_char LF " "%char new_value_str))
         else ret tt) ;;;
        resolve_relations h.

  (** [NetBoxObject.update] *)
Definition base_update (h : nat) (data : Value) (read_from_netbox : bool)
      (source : option Source) : M unit :=
    match data with
    | VNone => ret tt
    | VDict d =>
        (if negb (is_none (py_get "id" d))
         then modify_obj h (set_nb_id (py_get "id" d))
         else ret tt) ;;;
        if read_from_netbox
        then modify_obj h (fun o =>
               set_unset_items [] (set_updated_items [] (set_data d (set_is_new false o))))
        else
          match source with
          | Some _ => modify_obj h (set_source source)
          | None => ret tt
          end ;;;
          display_name <- get_display_name h (Some d) false ;;
          display_name <- (if is_none display_name
                           then get_display_name h None false
                           else ret display_name) ;;
          o <- get_obj h ;;
          emit LDebug2 (MParsing (o_class o) display_name) ;;;
          parsed_data <- foldM (parse_item h source display_name) d [] ;;
          parsed_data <- derive_slug (o_class o) parsed_data ;;
          forM_ (apply_item h display_name) parsed_data
    | _ => raise AttributeError
    end.

  (** [data[key] = v] on the argument of [update] *)
Definition data_setitem (data : Value) (key : string) (v : Value) : Outcome Value :=
    match data with
    | VDict d => Ok (VDict (dict_set key v d))
    | _ => Raise TypeError
    end.

  (** [data.get(key)] on the argument of [update] *)
Definition data_get (data : Value) (key : string) : Outcome Value :=
    match data with
    | VDict d => Ok (py_get key d)
    | _ => Raise AttributeError
    end.

  (** [NBVLAN.update].  The overriding methods write into the caller's
      [data]; they return it as they leave it. *)
Definition vlan_update (h : nat) (data : Value) (read_from_netbox : bool)
      (source : option Source) : M Value :=
    o <- get_obj h ;;
    data <- (if negb read_from_netbox && negb (is_none (grab_data "name" VNone o))
             then lift (data_setitem data "name" (grab_data "name" VNone o))
             else ret data) ;;
    base_update h data read_from_netbox source ;;;
    ret data.

  (** [NBPrefix.update] *)
Definition prefix_update (h : nat) (data : Value) (read_from_netbox : bool)
      (source : option Source) : M Value :=
    o <- get_obj h ;;
    data_prefix <- lift (data_get data (primary_key (o_class o))) ;;
    parsed <-
      match data_prefix with
      | VNone | VNet _ _ => ret (Some data)
      | VObj _ => raise OutOfModel
      | _ =>
          match ip_network rt data_prefix with
          | Some (v6, text) =>
              d <- lift (data_setitem data (primary_key (o_class o)) (VNet v6 text)) ;;
              ret (Some d)
          | None => emit LError (MPrefixParse (o_class o) data_prefix) ;;; ret None
          end
      end ;;
    match parsed with
    | None => ret data
    | Some data =>
        base_update h data read_from_netbox source ;;;
        if negb read_from_netbox then raise ValueError else ret data
    end.

  (** [NBIPAddress.update] *)
Definition ip_update (h : nat) (data : Value) (read_from_netbox : bool)
      (source : option Source) : M Value :=
    object_type <- lift (data_get data "assigned_object_type") ;;
    assigned_object <- lift (data_get data "assigned_object_id") ;;
    data <-
      (if negb read_from_netbox && negb (is_none assigned_object)
       then
         match assigned_object with
         | VObj a =>
             ao <- get_obj a ;;
             lift (data_setitem data "assigned_object_type"
                     (relation_of_class (o_class ao)))
         | _ =>
             c <- lift (relation_of_type object_type) ;;
             t <- inventory_add inv c assigned_object None ;;
             lift (data_setitem data "assigned_object_id" (VObj t))
         end
       else ret data) ;;
    base_update h data read_from_netbox source ;;;
    o <- get_obj h ;;
    (if existsb (String.eqb "assigned_object_id") (o_updated_items o)
     then modify_obj h (append_updated "assigned_object_type")
     else ret tt) ;;;
    ret data.

  (** [update], dispatched on the class of the entity. *)
Definition update (h : nat) (data : Value) (read_from_netbox : bool)
      (source : option Source) : M Value :=
    o <- get_obj h ;;
    match o_class o with
    | NBVLAN => vlan_update h data read_from_netbox source
    | NBPrefix => prefix_update h data read_from_netbox source
    | NBIPAddress => ip_update h data read_from_netbox source
    | _ => base_update h data read_from_netbox source ;;; ret data
    end.

  (** [__init__] *)
Definition initial_data (c : Class) : Dict :=
    fold_left (fun d (kt : string * DType) =>
                 match snd kt with
                 | TRefList lc => dict_set (fst kt) (VObjList lc []) d
                 | _ => d
                 end) (data_model c) [].

  (** An entity as [__init__] leaves it before it reads any data. *)
Definition blank (c : Class) : Obj :=
    mkObj c (initial_data c) true (VInt 0) [] [] None.


  (** [unset_attribute] *)
Definition unset_attribute (h : nat) (attribute_name : option string) : M unit :=
    match attribute_name with
    | None => ret tt
    | Some a =>
        o <- get_obj h ;;
        match model_get a (data_model (o_class o)) with
        | None => emit LError (MUndefinedKey a (o_class o))
        | Some _ =>
            dn <- get_display_name h None false ;;
            emit LInfo (MUnset a dn) ;;;
            modify_obj h (fun o => set_unset_items (o_unset_items o ++ [a])%list o)
        end
    end.

  (** [get_nb_reference] *)
Definition get_nb_reference (h : nat) : M Value :=
    o <- get_obj h ;;
    if py_eq (o_nb_id o) (VInt 0) then ret VNone else ret (o_nb_id o).

End Model.

(* ================================================================== *)
(** ** A runtime and an inventory to run the methods on *)

(** [repr] of a float as Python writes it for whole numbers below 1e16,
    zeros, infinities and NaN; other floats get a placeholder. *)
Definition sample_float_repr (f : spec_float) : string :=
  match f with
  | S754_nan => "nan"
  | S754_infinity s => if s then "-inf" else "inf"
  | S754_zero s => if s then "-0.0" else "0.0"
  | S754_finite s m e =>
      let whole :=
        if (0 <=? e)%Z then Some (Z.pos m * 2 ^ e)%Z
        else if (Z.pos m mod 2 ^ (- e) =? 0)%Z then Some (Z.pos m / 2 ^ (- e))%Z
        else None in
      match whole with
      | Some z =>
          if (z <? 10 ^ 16)%Z
          then (if s then "-" else "") ++ PyStr.of_Z z ++ ".0"
          else "<float>"
      | None => "<float>"
      end
  end.

(** This runtime parses no float and no network literal. *)
Definition sample_runtime : Runtime := {|
  float_repr := sample_float_repr;
  float_of_str := fun _ => None;
  ip_network := fun _ => None;
  recursion_limit := 1000
|}.

Fixpoint find_index {A} (p : A -> bool) (l : list A) (i : nat) : option nat :=
  match l with
  | [] => None
  | x :: r => if p x then Some i else find_index p r (S i)
  end.

(** The key an entity is registered under: its remote id when the data
    carry one, else the value of its primary key. *)
Definition has_key (c : Class) (id key : Value) (o : Obj) : bool :=
  class_eqb (o_class o) c
  && (if is_none id then py_eq (py_get (primary_key c) (o_data o)) key
      else py_eq (o_nb_id o) id).

Definition sample_get_by_data (c : Class) (data : Value) (hp : Heap)
    : Outcome (option nat) :=
  match data with
  | VNone => Ok None
  | VDict d =>
      let id := py_get "id" d in
      let key := py_get (primary_key c) d in
      if is_none id && is_none key then Ok None
      else Ok (find_index (has_key c id key) hp 0)
  | _ => Raise ValueError
  end.

Definition sample_get_by_id (c : option Class) (id : Value) (hp : Heap)
    : Outcome (option nat) :=
  match c with
  | Some c =>
      Ok (find_index (fun o => class_eqb (o_class o) c && py_eq (o_nb_id o) id) hp 0)
  | None => Ok None
  end.

(** The entity registered under the data, or a new one that holds them.
    Data without a key that equals itself are refused. *)
Definition sample_add_update_object (c : option Class) (data : Value)
    (source : option Source) (hp : Heap) : Outcome (nat * list Obj) :=
  match c, data with
  | Some c, VDict d =>
      let id := py_get "id" d in
      let key := py_get (primary_key c) d in
      if is_none id && is_none key then Raise ValueError
      else if negb (if is_none id then py_eq key key else py_eq id id)
      then Raise ValueError
      else
        match find_index (has_key c id key) hp 0 with
        | Some t => Ok (t, [])
        | None =>
            Ok (List.length hp,
                [mkObj c d true (if is_none id then VInt 0 else id) [] [] source])
        end
  | _, _ => Raise ValueError
  end.

Definition sample_inventory : Inventory := {|
  add_update_object := sample_add_update_object;
  get_by_data := sample_get_by_data;
  get_by_id := sample_get_by_id
|}.

Definition with_data (d : Dict) (o : Obj) : Obj := set_data d o.

(* ================================================================== *)
(** ** The dependencies of a class and the references of lists *)

(** [NetBoxObject.get_dependencies]: the classes the data model names, and
    the member classes of its lists. *)
Definition base_get_dependencies (c : Class) : list Class :=
  (flat_map (fun kt : string * DType =>
               match snd kt with TRef rc => [rc] | _ => [] end) (data_model c)
   ++ flat_map (fun kt : string * DType =>
                  match snd kt with TRefList lc => [member_type lc] | _ => [] end)
               (data_model c))%list.

(** [get_dependencies], with the list [NBIPAddress] gives by hand. *)
Definition get_dependencies (c : Class) : list Class :=
  match c with
  | NBIPAddress => [NBInterface; NBVMInterface; NBTag; NBTenant; NBVRF]
  | _ => base_get_dependencies c
  end.

(** The loop of [NBTagList.get_nb_reference] and
    [NBVLANList.get_nb_reference]: it gives up with None at the first member
    whose id is 0, and collects an entry for every other member.  A member
    that is no entity has no [nb_id]. *)
Fixpoint list_nb_reference (entry : Value -> Obj -> M Value) (items : list Value)
    (return_list : list Value) : M Value :=
  match items with
  | [] => ret (VList return_list)
  | x :: r =>
      match x with
      | VObj t =>
          o <- get_obj t ;;
          if py_eq (o_nb_id o) (VInt 0) then ret VNone
          else
            e <- entry x o ;;
            list_nb_reference entry r (return_list ++ [e])%list
      | _ => raise AttributeError
      end
  end.

(** [NBVLANList.get_nb_reference] *)
Definition vlan_list_get_nb_reference (items : list Value) : M Value :=
  list_nb_reference (fun _ o => ret (o_nb_id o)) items [].

(** [NBTagList.get_nb_reference] *)
Definition tag_list_get_nb_reference (rt : Runtime) (items : list Value) : M Value :=
  list_nb_reference
    (fun x _ => n <- call_get_display_name rt x ;; ret (VDict [("name", n)]))
    items [].

(* ================================================================== *)
(** * Definitions for the statements and their proofs *)

(** The name of a VLAN, when it has one: the value held and its text. *)
Definition name_value (name : option string) : Value :=
  match name with Some s => VStr s | None => VNone end.

Definition name_text (name : option string) : string :=
  match name with Some s => s | None => "None" end.

(** The VLAN 100 of the site dc1. *)
Definition dc1_heap : Heap :=
  [with_data [("vid", VInt 100); ("name", VStr "prod"); ("site", VObj 1)] (blank NBVLAN);
   with_data [("name", VStr "dc1")] (blank NBSite)].

(** A relation between the heap before, the records logged and the heap
    after, for every run of a computation that returns. *)
Definition respects {A} (R : Heap -> list LogEntry -> Heap -> Prop) (m : M A) : Prop :=
  forall hp a hp' l, m hp = Ok (a, hp', l) -> R hp l hp'.

(** A relation on the two heaps alone, and a property of the records alone. *)
Definition on_heap (R : Heap -> Heap -> Prop) : Heap -> list LogEntry -> Heap -> Prop :=
  fun hp _ hp' => R hp hp'.

(** A property of every record logged. *)
Definition on_log (P : LogEntry -> Prop) : Heap -> list LogEntry -> Heap -> Prop :=
  fun _ l _ => Forall P l.

(** A computation that leaves the heap as it is. *)
Definition reads {A} (m : M A) : Prop := respects (on_heap eq) m.

(** What every method leaves of an entity. *)
Definition stable (o o' : Obj) : Prop :=
  o_class o' = o_class o /\ o_nb_id o' = o_nb_id o
  /\ o_is_new o' = o_is_new o /\ o_unset_items o' = o_unset_items o.

(** The heap grows, and every entity keeps its class, its id, its
    [is_new] flag and its unset items. *)
Definition evolves (hp hp' : Heap) : Prop :=
  forall x o, nth_error hp x = Some o ->
              exists o', nth_error hp' x = Some o' /\ stable o o'.

(** An IP address assigned to an object of an unknown type. *)
Definition bogus_ip_heap : Heap :=
  [with_data [("address", VStr "192.0.2.1/24");
              ("assigned_object_type", VStr "dcim.device")] (blank NBIPAddress)].

(** The outcome of a computation with records put before its own. *)
Definition logged_first {A} (pre : list LogEntry) (r : Outcome (A * Heap * list LogEntry))
    : Outcome (A * Heap * list LogEntry) :=
  match r with
  | Ok (a, hp, l) => Ok (a, hp, (pre ++ l)%list)
  | Raise e => Raise e
  | Exit => Exit
  end.

(** Fifty characters that no slug keeps, and three that it keeps. *)
Definition long_slug : string :=
  "!!!!!!!!!!!!!!!!!!!!!!!!!!!!!!!!!!!!!!!!!!!!!!!!!!abc".

(** Data with a key that is in no data model. *)
Definition scenario_data : Value := VDict [("bogus", VInt 1); ("name", VStr "x")].

(** The records that report a changed attribute. *)
Definition is_change_record (e : LogEntry) : bool :=
  match message e with
  | MChanged _ _ _ _ _ | MTagsChanged _ _ _ _ => true
  | _ => false
  end.

Definition no_change_record (e : LogEntry) : Prop := is_change_record e = false.

(** The float 4.0, and a virtual machine with 4 CPUs. *)
Definition four_point_zero : spec_float := S754_finite false 4503599627370496 (-50).

Definition vm_heap : Heap :=
  [with_data [("name", VStr "vm1"); ("vcpus", VInt 4)] (blank NBVM)].

(** The attributes a display name is built from. *)
Definition same_names (o o' : Obj) : Prop :=
  o_class o' = o_class o
  /\ py_get (primary_key (o_class o)) (o_data o') = py_get (primary_key (o_class o)) (o_data o)
  /\ (forall sk, secondary_key (o_class o) = Some sk ->
                 py_get sk (o_data o') = py_get sk (o_data o))
  /\ py_get "site" (o_data o') = py_get "site" (o_data o).

(** Every entity is still there and has its name attributes. *)
Definition names_kept (hp hp' : Heap) : Prop :=
  forall x o, nth_error hp x = Some o ->
              exists o', nth_error hp' x = Some o' /\ same_names o o'.

(** A computation that reads the heap and gives the same result and records
    on every heap related to the one it ran on. *)
Definition transfers {A} (R : Heap -> Heap -> Prop) (m m' : M A) : Prop :=
  forall hp hp' a hp1 l,
    R hp hp' -> m hp = Ok (a, hp1, l) -> hp1 = hp /\ m' hp' = Ok (a, hp', l).

(** Reading a text: outside of a string literal, inside of one that the
    quote [q] opened, or after a backslash inside of one. *)
Inductive ScanState : Type :=
| Outside
| InLiteral (q : ascii)
| Escaped (q : ascii).

(** The two quotes of string literals. *)
Definition is_quote (c : ascii) : bool :=
  Ascii.eqb c "'"%char || Ascii.eqb c PyStr.dquote.

(** Count the string literals of a text. *)
Fixpoint scan (st : ScanState) (n : nat) (s : string) : ScanState * nat :=
  match s with
  | EmptyString => (st, n)
  | String c r =>
      match st with
      | Outside => if is_quote c then scan (InLiteral c) n r else scan Outside n r
      | InLiteral q =>
          if Ascii.eqb c "\"%char then scan (Escaped q) n r
          else if Ascii.eqb c q then scan Outside (S n) r
          else scan (InLiteral q) n r
      | Escaped q => scan (InLiteral q) n r
      end
  end.

(** [str(l)] for a list of strings. *)
Definition list_text (l : list string) : string :=
  "[" ++ PyStr.join ", " (map PyStr.repr l) ++ "]".

(** A tag entity with a name. *)
Definition named_tag (hp : Heap) (x : Value) (n : string) : Prop :=
  exists t ot, x = VObj t /\ nth_error hp t = Some ot
               /\ o_class ot = NBTag /\ py_get "name" (o_data ot) = VStr n.

(** The members of the tag list of an entity; an entity without the key has
    none. *)
Definition tag_items (o : Obj) : option (list Value) :=
  match dict_get "tags" (o_data o) with
  | Some (VObjList _ items) => Some items
  | None => Some []
  | _ => None
  end.

(** One tag name, as a string or as a list of one string. *)
Definition one_name (tags : Value) (a : string) : Prop :=
  tags = VStr a \/ tags = VList [VStr a].

(** The entity after [update_tags] stored a tag list. *)
Definition with_tags (items : list Value) (o : Obj) : Obj :=
  append_updated "tags" (store "tags" (VObjList NBTagList items) o).

(** A tenant that carries the tag [a], and that tag. *)
Definition tag_a : Obj := with_data [("name", VStr "a")] (blank NBTag).

Definition tagged_tenant : Obj :=
  with_data [("name", VStr "t1"); ("tags", VObjList NBTagList [VObj 1])] (blank NBTenant).

Definition tagged_heap : Heap := [tagged_tenant; tag_a].



(** The members of a list value. *)
Definition members (v : Value) : option (list Value) :=
  match v with
  | VList l | VObjList _ l => Some l
  | _ => None
  end.


(** A property of the heap that a computation does not destroy. *)
Definition keeps (P : Heap -> Prop) : Heap -> Heap -> Prop :=
  fun hp hp' => P hp -> P hp'.

(** An entity of class [c]. *)
Definition is_handle (hp : Heap) (c : Class) (x : Value) : bool :=
  match x with
  | VObj t => match nth_error hp t with
              | Some ot => class_eqb (o_class ot) c
              | None => false
              end
  | _ => false
  end.

(** A value as [resolve_relations] leaves it: an entity where the data model
    has a class, a list of member entities where it has a list class. *)
Definition is_resolved_value (hp : Heap) (ty : DType) (v : Value) : bool :=
  match ty with
  | TRef _ => match v with VObj _ => true | _ => false end
  | TRefList lc =>
      match v with
      | VObjList lc' items =>
          list_class_eqb lc lc' && forallb (is_handle hp (member_type lc)) items
      | _ => false
      end
  | _ => true
  end.

(** Every value of the entity that the data model relates to other entities
    is resolved, or is None. *)
Definition is_resolved (hp : Heap) (o : Obj) : bool :=
  forallb (fun (kt : string * DType) =>
             let v := py_get (fst kt) (o_data o) in
             is_none v
             || is_resolved_value hp
                  (if PyStr.startswith "primary_ip" (fst kt)
                   then TRef NBIPAddress else snd kt) v)
          (data_model (o_class o)).

(** The display name of the member [x] is the string [n]. *)
Definition shown_as (rt : Runtime) (hp : Heap) (x : Value) (n : string) : Prop :=
  display rt (pred (recursion_limit rt)) (OfValue x) hp = Ok (VStr n, hp, []).


(** The VLANs 10 and 20. *)
Definition vlan_10 : Obj :=
  with_data [("vid", VInt 10); ("name", VStr "ten")] (blank NBVLAN).

Definition vlan_20 : Obj :=
  with_data [("vid", VInt 20); ("name", VStr "twenty")] (blank NBVLAN).

(** An interface that holds the VLANs 10 and 20. *)
Definition switch : Obj := with_data [("name", VStr "sw1")] (blank NBDevice).

Definition trunk : Obj :=
  with_data [("name", VStr "eth0"); ("device", VObj 3);
             ("tagged_vlans", VObjList NBVLANList [VObj 1; VObj 2])]
            (blank NBInterface).

Definition trunk_heap : Heap := [trunk; vlan_10; vlan_20; switch].



(** An interface that holds one of two VLANs of the same id and name. *)
Definition access : Obj :=
  with_data [("name", VStr "eth0"); ("tagged_vlans", VObjList NBVLANList [VObj 1])]
            (blank NBInterface).

Definition twin_heap : Heap := [access; vlan_10; vlan_10].













(** The entity after [update] read the id of the data. *)
Definition with_id (d : Dict) (o : Obj) : Obj :=
  if negb (is_none (py_get "id" d)) then set_nb_id (py_get "id" d) o else o.



(** A tenant, and data for it. *)
Definition tenant_heap : Heap := [with_data [("name", VStr "old")] (blank NBTenant)].

Definition tenant_data : Dict :=
  [("name", VStr "ACME Corp."); ("description", VStr "a tenant")].

(** A prefix the update goes on with: none, a network, or a literal that
    [ip_network] parses. *)
Definition prefix_accepted (rt : Runtime) (v : Value) : bool :=
  match v with
  | VNone | VNet _ _ => true
  | VObj _ => false
  | _ => match ip_network rt v with Some _ => true | None => false end
  end.

(** The place of a class in the order the classes are declared in. *)
Definition declared_at (c : Class) : nat :=
  match c with
  | NBTag => 0 | NBTenant => 1 | NBSite => 2 | NBVRF => 3 | NBVLAN => 4
  | NBPrefix => 5 | NBManufacturer => 6 | NBDeviceType => 7 | NBPlatform => 8
  | NBClusterType => 9 | NBClusterGroup => 10 | NBDeviceRole => 11
  | NBCluster => 12 | NBDevice => 13 | NBVM => 14 | NBVMInterface => 15
  | NBInterface => 16 | NBIPAddress => 17
  end.

(** A class depends on another. *)
Definition depends_on (c d : Class) : Prop := In d (get_dependencies c).

(** An entity that NetBox does not know yet. *)
Definition has_no_id (o : Obj) : bool := py_eq (o_nb_id o) (VInt 0).

(** The members of a list and the entities they are. *)
Definition entities_at (hp : Heap) (items : list Value) (objs : list Obj) : Prop :=
  Forall2 (fun x o => exists t, x = VObj t /\ nth_error hp t = Some o) items objs.

(** The entity after [update] took the data of NetBox. *)
Definition from_netbox (d : Dict) (o : Obj) : Obj :=
  mkObj (o_class o) d false
        (if is_none (py_get "id" d) then o_nb_id o else py_get "id" d)
        [] [] (o_source o).

(** What an update that does not come from NetBox leaves of an entity: its
    class, its [is_new] flag and its unset keys; the updated keys are only
    added to. *)
Definition kept (o o' : Obj) : Prop :=
  o_class o' = o_class o /\ o_is_new o' = o_is_new o
  /\ o_unset_items o' = o_unset_items o
  /\ exists more, o_updated_items o' = (o_updated_items o ++ more)%list.

(** Every entity is still there, as [kept] has it. *)
Definition grows (hp hp' : Heap) : Prop :=
  forall x o, nth_error hp x = Some o ->
              exists o', nth_error hp' x = Some o' /\ kept o o'.

(** The order of [sorted] on strings: [a] does not come after [b]. *)
Definition in_order (a b : string) : Prop := PyStr.ltb b a = false.

(** The entity [h] is a VLAN whose name is [name]. *)
Definition vlan_named (h : nat) (name : Value) (hp : Heap) : Prop :=
  exists o, nth_error hp h = Some o /\ o_class o = NBVLAN
            /\ py_get "name" (o_data o) = name.

(** What [update] parses from the name: every value that the parsed data
    hold under "name" is the string [name]. *)
Definition parsed_name (name : Value) (parsed : Dict) : Prop :=
  forall x, In ("name", x) parsed -> exists s, name = VStr s /\ x = VStr s.

(* ================================================================== *)
(** * Properties *)

(** ** The slug formatter *)

Module SlugFacts.
Import PyStr.

Lemma filter_chars_all (p : ascii -> bool) (s : string) :
    all_chars p (filter_chars p s) = true.
Proof.
    induction s as [|c r IH]; simpl; [reflexivity|].
    destruct (p c) eqn:E; simpl; [rewrite E|]; exact IH.
Qed.

Lemma take_all (p : ascii -> bool) (n : nat) (s : string) :
    all_chars p s = true -> all_chars p (take n s) = true.
Proof.
    revert s; induction n as [|n IH]; intros [|c r]; simpl; auto.
    intros H; apply andb_true_iff in H as [Hc Hr].
    rewrite Hc; simpl; auto.
Qed.

Lemma take_length (n : nat) (s : string) : (String.length (take n s) <= n)%nat.
Proof.
    revert s; induction n as [|n IH]; intros [|c r]; simpl; try lia.
    specialize (IH r); lia.
Qed.

Lemma take_whole (n : nat) (s : string) :
    (String.length s <= n)%nat -> take n s = s.
Proof.
    revert s; induction n as [|n IH]; intros [|c r]; simpl; intros H;
      try reflexivity; try lia.
    f_equal; apply IH; lia.
Qed.

Lemma filter_chars_id (p : ascii -> bool) (s : string) :
    all_chars p s = true -> filter_chars p s = s.
Proof.
    induction s as [|c r IH]; simpl; [reflexivity|].
    intros H; apply andb_true_iff in H as [Hc Hr].
    rewrite Hc; f_equal; auto.
Qed.

Lemma map_chars_id (f : ascii -> ascii) (p : ascii -> bool) (s : string) :
    (forall c, p c = true -> f c = c) ->
    all_chars p s = true -> map_chars f s = s.
Proof.
    intros Hf; induction s as [|c r IH]; simpl; [reflexivity|].
    intros H; apply andb_true_iff in H as [Hc Hr].
    rewrite (Hf c Hc); f_equal; auto.
Qed.

  (** A permitted character is no separator and is its own lower case. *)
Lemma permitted_fixed (c : ascii) :
    permitted c = true ->
    lower_char c = c
    /\ Ascii.eqb c " "%char = false
    /\ Ascii.eqb c ","%char = false
    /\ Ascii.eqb c "."%char = false.
Proof.
    destruct c as [b0 b1 b2 b3 b4 b5 b6 b7].
    destruct b0, b1, b2, b3, b4, b5, b6, b7; vm_compute; intros H;
      try discriminate H; repeat split; reflexivity.
Qed.

Lemma replace_separators_id (s : string) :
    all_chars permitted s = true -> replace_separators s = s.
Proof.
    intros H. unfold replace_separators; simpl. unfold replace_char.
    assert (E1 : map_chars (fun c => if Ascii.eqb c " "%char then "-"%char else c) s = s).
    { apply (map_chars_id _ permitted); [|exact H].
      intros c Hc. destruct (permitted_fixed c Hc) as (_ & H1 & _). now rewrite H1. }
    assert (E2 : map_chars (fun c => if Ascii.eqb c ","%char then "-"%char else c) s = s).
    { apply (map_chars_id _ permitted); [|exact H].
      intros c Hc. destruct (permitted_fixed c Hc) as (_ & _ & H2 & _). now rewrite H2. }
    assert (E3 : map_chars (fun c => if Ascii.eqb c "."%char then "-"%char else c) s = s).
    { apply (map_chars_id _ permitted); [|exact H].
      intros c Hc. destruct (permitted_fixed c Hc) as (_ & _ & _ & H3). now rewrite H3. }
    now rewrite E1, E2, E3.
Qed.

Lemma lower_id (s : string) : all_chars permitted s = true -> lower s = s.
Proof.
    intros H. unfold lower. apply (map_chars_id _ permitted); auto.
    intros c Hc; apply (permitted_fixed c Hc).
Qed.

Lemma slice0_nonneg (s : string) (n : Z) :
    (0 <= n)%Z -> slice0 s n = take (Z.to_nat n) s.
Proof. intros H. unfold slice0. apply Z.leb_le in H. rewrite H. reflexivity. Qed.

End SlugFacts.

(** C2, as the code has it.  For a non-empty [x] and a maximum length
    [n >= 0], [format_slug] returns a string of permitted characters
    ([a-z0-9_-]) of length at most [n]; applied to a non-empty result it
    returns that result unchanged.  (An empty result is rejected by the
    second application like any empty input.) *)
Theorem format_slug_sound_and_stable (x : string) (n : Z) :
  x <> "" -> (0 <= n)%Z ->
  exists r,
    format_slug (VStr x) n = Ok r
    /\ PyStr.all_chars permitted r = true
    /\ (Z.of_nat (String.length r) <= n)%Z
    /\ (r <> "" -> format_slug (VStr r) n = Ok r)
    /\ (r = "" -> format_slug (VStr r) n = Raise AttributeError).
Proof.
  intros Hx Hn.
  unfold format_slug at 1.
  destruct x as [|c x']; [congruence|]. cbn [String.length Nat.eqb].
  remember (PyStr.filter_chars permitted
              (PyStr.lower (replace_separators (String c x')))) as t eqn:Et.
  assert (Ht : PyStr.all_chars permitted t = true)
    by (subst t; apply SlugFacts.filter_chars_all).
  exists (PyStr.slice0 t n).
  rewrite SlugFacts.slice0_nonneg by assumption.
  remember (PyStr.take (Z.to_nat n) t) as r eqn:Er.
  assert (Hr : PyStr.all_chars permitted r = true)
    by (subst r; apply SlugFacts.take_all; exact Ht).
  assert (Hl : (String.length r <= Z.to_nat n)%nat)
    by (subst r; apply SlugFacts.take_length).
  clear Et Er Ht t.
  split; [reflexivity|]. split; [exact Hr|]. split; [lia|]. split.
  - intros Hne. unfold format_slug.
    destruct r as [|d r']; [congruence|].
    cbn [String.length Nat.eqb].
    rewrite SlugFacts.replace_separators_id, SlugFacts.lower_id,
      SlugFacts.filter_chars_id by assumption.
    rewrite SlugFacts.slice0_nonneg by assumption.
    rewrite SlugFacts.take_whole by assumption. reflexivity.
  - intros ->. reflexivity.
Qed.

Lemma format_slug_sound_and_stable_witness :
  exists r,
    format_slug (VStr "Data Center, North.1") 12 = Ok r
    /\ PyStr.all_chars permitted r = true
    /\ (Z.of_nat (String.length r) <= 12)%Z
    /\ (r <> "" -> format_slug (VStr r) 12 = Ok r)
    /\ (r = "" -> format_slug (VStr r) 12 = Raise AttributeError).
Proof.
  apply (format_slug_sound_and_stable "Data Center, North.1" 12); [discriminate | lia].
Defined.

(** C2 as stated fails: the slug of ["!"] is empty, and the formatter
    rejects the empty string, so a second application does not return the
    first result. *)
Lemma format_slug_not_idempotent :
  format_slug (VStr "!") 50 = Ok ""
  /\ obind (format_slug (VStr "!") 50) (fun r => format_slug (VStr r) 50)
     = Raise AttributeError
  /\ obind (format_slug (VStr "!") 50) (fun r => format_slug (VStr r) 50)
     <> format_slug (VStr "!") 50.
Proof. repeat split; try reflexivity. vm_compute. discriminate. Qed.

(** A negative maximum length counts from the end of the text: the bound on
    the length and the stability both need [0 <= n]. *)
Lemma format_slug_negative_max_len :
  format_slug (VStr "abc") (-1) = Ok "ab"
  /\ format_slug (VStr "ab") (-1) = Ok "a".
Proof. split; reflexivity. Qed.

(** ** Running the monad *)

Lemma bind_ok {A B} (m : M A) (f : A -> M B) hp a hp1 l1 :
  m hp = Ok (a, hp1, l1) ->
  bind m f hp = match f a hp1 with
                | Ok (b, hp2, l2) => Ok (b, hp2, (l1 ++ l2)%list)
                | Raise e => Raise e
                | Exit => Exit
                end.
Proof. intros H. unfold bind. rewrite H. reflexivity. Qed.

Lemma bind_inv {A B} (m : M A) (f : A -> M B) hp b hp2 l :
  bind m f hp = Ok (b, hp2, l) ->
  exists a hp1 l1 l2,
    m hp = Ok (a, hp1, l1) /\ f a hp1 = Ok (b, hp2, l2) /\ l = (l1 ++ l2)%list.
Proof.
  unfold bind. destruct (m hp) as [[[a hp1] l1]| |]; try discriminate.
  destruct (f a hp1) as [[[b' hp2'] l2]| |] eqn:E; try discriminate.
  intros H; inversion H; subst. exists a, hp1, l1, l2. auto.
Qed.

Lemma bind_ret {A B} (a : A) (f : A -> M B) hp : bind (ret a) f hp = f a hp.
Proof. unfold bind, ret. destruct (f a hp) as [[[b hp2] l2]| |]; reflexivity. Qed.

Lemma bind_lift_ok {A B} (a : A) (f : A -> M B) hp : bind (lift (Ok a)) f hp = f a hp.
Proof. unfold bind, lift. destruct (f a hp) as [[[b hp2] l2]| |]; reflexivity. Qed.

Lemma bind_get_obj {B} h hp o (f : Obj -> M B) :
  nth_error hp h = Some o -> bind (get_obj h) f hp = f o hp.
Proof.
  intros H. unfold bind, get_obj. rewrite H.
  destruct (f o hp) as [[[b hp2] l2]| |]; reflexivity.
Qed.

Lemma display_S (rt : Runtime) (f : nat) (r : NameReq) :
  display rt (S f) r
  = match r with
    | OfEntity h data incl =>
        o <- get_obj h ;;
        match o_class o with
        | NBVLAN => vlan_get_display_name rt (display rt f) h data incl
        | _ => base_get_display_name rt (display rt f) h data incl
        end
    | OfValue x =>
        match x with
        | VObj h => display rt f (OfEntity h None false)
        | VObjList _ l =>
            names <- mapM (fun y => display rt f (OfValue y)) l ;;
            sorted <- lift (py_sorted names) ;;
            ret (VList sorted)
        | _ => raise AttributeError
        end
    end.
Proof. reflexivity. Qed.

Lemma get_obj_ok h hp o : nth_error hp h = Some o -> get_obj h hp = Ok (o, hp, []).
Proof. intros H. unfold get_obj. rewrite H. reflexivity. Qed.

Lemma py_eq_str_true (v : Value) (s : string) :
  py_eq v (VStr s) = true -> v = VStr s.
Proof.
  destruct v; simpl; try discriminate.
  intros H. apply String.eqb_eq in H. now subst.
Qed.

(** C9.  An IP address whose stored [assigned_object_type] is neither None
    nor one of the two known discriminators makes relation resolution end
    the process. *)
Theorem resolve_relations_unknown_discriminator_exits
    (rt : Runtime) (inv : Inventory) (hp : Heap) (h : nat) (o : Obj) :
  nth_error hp h = Some o ->
  o_class o = NBIPAddress ->
  py_get "assigned_object_type" (o_data o) <> VNone ->
  py_get "assigned_object_type" (o_data o) <> VStr "dcim.interface" ->
  py_get "assigned_object_type" (o_data o) <> VStr "virtualization.vminterface" ->
  recursion_limit rt <> O ->
  resolve_relations rt inv h hp = Exit.
Proof.
  intros Hh Hc Hn H1 H2 Hfuel.
  unfold resolve_relations.
  rewrite (bind_get_obj _ _ _ _ Hh). rewrite Hc.
  unfold ip_resolve_relations.
  rewrite (bind_get_obj _ _ _ _ Hh). rewrite Hc.
  cbn [data_model model_get String.eqb Ascii.eqb Bool.eqb choices map].
  set (v := py_get "assigned_object_type" (o_data o)) in *.
  assert (Hk : value_in_choices v [CStr "dcim.interface"; CStr "virtualization.vminterface"] = false).
  { unfold value_in_choices. cbn [existsb].
    destruct (py_eq v (VStr "dcim.interface")) eqn:E1.
    { apply py_eq_str_true in E1. contradiction. }
    destruct (py_eq v (VStr "virtualization.vminterface")) eqn:E2.
    { apply py_eq_str_true in E2. contradiction. }
    reflexivity. }
  unfold bind at 1. unfold ret at 1. cbn beta iota.
  rewrite Hk.
  assert (Hnn : is_none v = false) by (destruct v; try reflexivity; congruence).
  rewrite Hnn. cbn [negb andb].
  assert (Hd : get_display_name rt h None false hp
               = Ok (py_get "address" (o_data o), hp, [])).
  { unfold get_display_name. destruct (recursion_limit rt) as [|f]; [congruence|].
    rewrite display_S.
    rewrite (bind_get_obj _ _ _ _ Hh). rewrite Hc.
    unfold base_get_display_name.
    rewrite (bind_get_obj _ _ _ _ Hh). rewrite Hc.
    reflexivity. }
  unfold bind. rewrite Hd. cbn. rewrite Hd. reflexivity.
Qed.

Ltac step_get H := rewrite (bind_get_obj _ _ _ _ H).

(** The display name of a site is its name. *)
Lemma site_display_name (rt : Runtime) (hp : Heap) (s : nat) (so : Obj) (f : nat) :
  nth_error hp s = Some so -> o_class so = NBSite ->
  display rt (S f) (OfEntity s None false) hp
  = Ok (py_get "name" (o_data so), hp, []).
Proof.
  intros Hs Hc. rewrite display_S.
  step_get Hs. rewrite Hc. unfold base_get_display_name.
  step_get Hs. rewrite Hc. reflexivity.
Qed.

(** What [NetBoxObject.get_display_name] returns for a VLAN whose name is a
    string or missing: the vid with the name in parentheses. *)
Lemma vlan_base_display_name (rt : Runtime) (rec : NameReq -> M Value)
    (hp : Heap) (h : nat) (o : Obj) (vid : Z) (name : option string) :
  nth_error hp h = Some o -> o_class o = NBVLAN ->
  py_get "vid" (o_data o) = VInt vid ->
  py_get "name" (o_data o) = name_value name ->
  exists l,
    base_get_display_name rt rec h None false hp
    = Ok (VStr (PyStr.of_Z vid ++ " (" ++ name_text name ++ ")"), hp, l).
Proof.
  intros Hh Hc Hv Hn. unfold base_get_display_name.
  step_get Hh. rewrite Hc. cbn [secondary_key primary_key enforce_secondary_key].
  rewrite Hv, Hn. cbn [is_none negb andb orb].
  destruct name as [nm|]; cbn [name_value name_text];
    unfold bind, ret, lift, emit; cbn; eexists; reflexivity.
Qed.

(** C6, as the code has it.  A VLAN with vid [vid] whose site is a site
    entity named [sn], or a mapping with that name, is displayed as
    ["vid (sn)"]; with no site it is displayed with its own name in the
    parentheses, ["vid (name)"], and ["vid (None)"] when it has no name. *)
Theorem vlan_display_name
    (rt : Runtime) (hp : Heap) (h : nat) (o : Obj)
    (vid : Z) (name : option string) (sn : string) :
  nth_error hp h = Some o -> o_class o = NBVLAN ->
  py_get "vid" (o_data o) = VInt vid ->
  py_get "name" (o_data o) = name_value name ->
  (2 <= recursion_limit rt)%nat ->
  (forall s so,
      py_get "site" (o_data o) = VObj s ->
      nth_error hp s = Some so -> o_class so = NBSite ->
      py_get "name" (o_data so) = VStr sn ->
      exists l, get_display_name rt h None false hp
                = Ok (VStr (PyStr.of_Z vid ++ " (" ++ sn ++ ")"), hp, l))
  /\ (forall d,
      py_get "site" (o_data o) = VDict d ->
      py_get "name" d = VStr sn ->
      exists l, get_display_name rt h None false hp
                = Ok (VStr (PyStr.of_Z vid ++ " (" ++ sn ++ ")"), hp, l))
  /\ (py_get "site" (o_data o) = VNone ->
      exists l, get_display_name rt h None false hp
                = Ok (VStr (PyStr.of_Z vid ++ " (" ++ name_text name ++ ")"), hp, l)).
Proof.
  intros Hh Hc Hv Hn Hfuel.
  unfold get_display_name.
  destruct (recursion_limit rt) as [|[|f]]; try lia.
  assert (Hstart :
            display rt (S (S f)) (OfEntity h None false) hp
            = vlan_get_display_name rt (display rt (S f)) h None false hp).
  { rewrite display_S. step_get Hh. rewrite Hc. reflexivity. }
  rewrite Hstart. clear Hstart.
  destruct (vlan_base_display_name rt (display rt (S f)) hp h o vid name Hh Hc Hv Hn)
    as [l0 Hbase].
  unfold vlan_get_display_name.
  rewrite (bind_ok _ _ _ _ _ _ Hbase). step_get Hh. rewrite Hc.
  cbn [primary_key]. rewrite Hv.
  repeat split.
  - intros s so Hsite Hs Hsc Hsn. rewrite Hsite. cbn [is_none].
    rewrite (bind_ok _ _ _ _ _ _ (site_display_name rt hp s so f Hs Hsc)).
    rewrite Hsn. cbn [is_none]. unfold bind, ret, lift; cbn.
    eexists; reflexivity.
  - intros d Hsite Hd. rewrite Hsite. cbn [is_none].
    unfold bind at 1, ret at 1. rewrite Hd. cbn [is_none].
    unfold bind, ret, lift; cbn. eexists; reflexivity.
  - intros Hsite. rewrite Hsite. cbn [is_none]. unfold ret.
    eexists. rewrite app_nil_r. reflexivity.
Qed.

Lemma vlan_display_name_witness :
  exists l, get_display_name sample_runtime 0 None false dc1_heap
            = Ok (VStr "100 (dc1)", dc1_heap, l).
Proof.
  refine (proj1 (vlan_display_name sample_runtime dc1_heap 0 _ 100 (Some "prod") "dc1"
                   eq_refl eq_refl eq_refl eq_refl _) 1 _ eq_refl eq_refl eq_refl eq_refl).
  vm_compute. lia.
Defined.

(** C6 as stated fails: a VLAN with vid 100 and no site is not displayed as
    ["100"]; the base method has already put the secondary key, the name,
    in parentheses. *)
Lemma vlan_without_site_is_not_plain :
  (exists l, get_display_name sample_runtime 0 None false
               [with_data [("vid", VInt 100)] (blank NBVLAN)]
             = Ok (VStr "100 (None)", [with_data [("vid", VInt 100)] (blank NBVLAN)], l))
  /\ (forall hp l, get_display_name sample_runtime 0 None false
                     [with_data [("vid", VInt 100)] (blank NBVLAN)]
                   <> Ok (VStr "100", hp, l)).
Proof.
  split.
  - eexists. vm_compute. reflexivity.
  - intros hp l. vm_compute. discriminate.
Qed.

(** ** Relations between the heap before, the records logged, and the heap after *)

Section Respects.
Variable R : Heap -> list LogEntry -> Heap -> Prop.
Hypothesis R_refl : forall hp, R hp [] hp.
Hypothesis R_trans : forall a l1 b l2 c, R a l1 b -> R b l2 c -> R a (l1 ++ l2)%list c.

Lemma respects_bind {A B} (m : M A) (f : A -> M B) :
    respects R m -> (forall a, respects R (f a)) -> respects R (bind m f).
Proof.
    intros Hm Hf hp b hp2 l E.
    apply bind_inv in E as (a & hp1 & l1 & l2 & E1 & E2 & ->).
    eapply R_trans; [eapply Hm | eapply Hf]; eassumption.
Qed.

Lemma respects_ret {A} (a : A) : respects R (ret a).
Proof. intros hp a' hp' l E. inversion E; subst. apply R_refl. Qed.

Lemma respects_raise {A} (e : Exn) : respects R (@raise A e).
Proof. intros hp a' hp' l E. discriminate E. Qed.

Lemma respects_exit {A} : respects R (@sys_exit A).
Proof. intros hp a' hp' l E. discriminate E. Qed.

Lemma respects_lift {A} (o : Outcome A) : respects R (lift o).
Proof. intros hp a' hp' l E. destruct o; inversion E; subst. apply R_refl. Qed.

Lemma respects_ask {A} (f : Heap -> Outcome A) : respects R (ask f).
Proof.
    intros hp a' hp' l E. unfold ask, lift in E.
    destruct (f hp); inversion E; subst. apply R_refl.
Qed.

Lemma respects_get_obj (h : nat) : respects R (get_obj h).
Proof.
    intros hp a' hp' l E. unfold get_obj in E.
    destruct (nth_error hp h); inversion E; subst. apply R_refl.
Qed.

Lemma respects_foldM {A B} (f : A -> B -> M A) (l : list B) :
    (forall a b, respects R (f a b)) -> forall a, respects R (foldM f l a).
Proof.
    intros Hf. induction l as [|x r IH]; intros a; simpl.
    - apply respects_ret.
    - apply respects_bind; auto.
Qed.

Lemma respects_forM_ {B} (f : B -> M unit) (l : list B) :
    (forall b, respects R (f b)) -> respects R (forM_ f l).
Proof.
    intros Hf. induction l as [|x r IH]; simpl.
    - apply respects_ret.
    - apply respects_bind; auto.
Qed.

Lemma respects_mapM {A B} (f : A -> M B) (l : list A) :
    (forall a, respects R (f a)) -> respects R (mapM f l).
Proof.
    intros Hf. induction l as [|x r IH]; simpl.
    - apply respects_ret.
    - apply respects_bind; auto. intros y.
      apply respects_bind; auto. intros ys. apply respects_ret.
Qed.

End Respects.

Section OnHeap.
Variable R : Heap -> Heap -> Prop.
Hypothesis R_refl : forall hp, R hp hp.
Hypothesis R_trans : forall a b c, R a b -> R b c -> R a c.

Lemma on_heap_refl hp : on_heap R hp [] hp.
Proof. apply R_refl. Qed.

Lemma on_heap_trans a (l1 : list LogEntry) b (l2 : list LogEntry) c :
    on_heap R a l1 b -> on_heap R b l2 c -> on_heap R a (l1 ++ l2)%list c.
Proof. unfold on_heap. apply R_trans. Qed.

Lemma respects_emit_heap (lv : Level) (m : Message) : respects (on_heap R) (emit lv m).
Proof. intros hp a' hp' l E. inversion E; subst. apply R_refl. Qed.

Lemma respects_reads {A} (m : M A) : reads m -> respects (on_heap R) m.
Proof.
    intros H hp a hp' l E. unfold on_heap.
    rewrite <- (H _ _ _ _ E). apply R_refl.
Qed.

End OnHeap.

Lemma on_log_refl (P : LogEntry -> Prop) hp : on_log P hp [] hp.
Proof. constructor. Qed.

Lemma on_log_trans (P : LogEntry -> Prop) a l1 b l2 c :
  on_log P a l1 b -> on_log P b l2 c -> on_log P a (l1 ++ l2)%list c.
Proof. unfold on_log. intros. apply Forall_app. auto. Qed.

(** One step of the syntax-directed proof that a computation respects a
    relation: [tac] is tried on what the step does not know. *)
Ltac respects_step R_refl R_trans tac :=
  lazymatch goal with
  | |- respects _ (bind _ _) => apply (respects_bind _ R_trans); [|intros ?]
  | |- respects _ (ret _) => apply (respects_ret _ R_refl)
  | |- respects _ (raise _) => apply respects_raise
  | |- respects _ sys_exit => apply respects_exit
  | |- respects _ (lift _) => apply (respects_lift _ R_refl)
  | |- respects _ (ask _) => apply (respects_ask _ R_refl)
  | |- respects _ (get_obj _) => apply (respects_get_obj _ R_refl)
  | |- respects _ (foldM _ _ _) => apply (respects_foldM _ R_refl R_trans); intros ? ?
  | |- respects _ (forM_ _ _) => apply (respects_forM_ _ R_refl R_trans); intros ?
  | |- respects _ (mapM _ _) => apply (respects_mapM _ R_refl R_trans); intros ?
  | |- respects _ (match ?x with _ => _ end) => destruct x
  | |- respects _ (let '(_, _) := ?x in _) => destruct x
  | |- _ => tac
  end.

Ltac respects_auto R_refl R_trans tac :=
  repeat (respects_step R_refl R_trans tac).

Lemma eq_trans_heap (a b c : Heap) : a = b -> b = c -> a = c.
Proof. congruence. Qed.

Ltac reads_auto tac :=
  unfold reads;
  respects_auto (on_heap_refl eq (@eq_refl Heap)) (on_heap_trans eq eq_trans_heap)
    ltac:(first [ apply (respects_emit_heap eq (@eq_refl Heap)) | tac ]).

Section ReadOnly.
Context (rt : Runtime).

Lemma reads_display (fuel : nat) : forall r, reads (display rt fuel r).
Proof.
    induction fuel as [|f IH]; intros r.
    - intros hp a hp' l E. discriminate E.
    - rewrite display_S.
      unfold vlan_get_display_name, base_get_display_name.
      reads_auto ltac:(solve [apply IH]).
Qed.

Lemma reads_get_display_name h data incl : reads (get_display_name rt h data incl).
Proof. apply reads_display. Qed.

Lemma reads_call_get_display_name x : reads (call_get_display_name rt x).
Proof. apply reads_display. Qed.

Lemma reads_get_tags h : reads (get_tags rt h).
Proof.
    unfold get_tags. reads_auto ltac:(solve [apply reads_call_get_display_name]).
Qed.

Lemma reads_current_value_text c key v : reads (current_value_text rt c key v).
Proof.
    unfold current_value_text.
    reads_auto ltac:(solve [apply reads_call_get_display_name]).
Qed.

Lemma reads_new_value_text v : reads (new_value_text rt v).
Proof.
    unfold new_value_text.
    reads_auto ltac:(solve [apply reads_call_get_display_name]).
Qed.

Lemma reads_same_float c key cur new : reads (same_float rt c key cur new).
Proof. unfold same_float. reads_auto fail. Qed.

Lemma reads_check_max_len c key dt v : reads (check_max_len c key dt v).
Proof. unfold check_max_len. reads_auto fail. Qed.

Lemma reads_check_choice key dt v : reads (check_choice key dt v).
Proof. unfold check_choice. reads_auto fail. Qed.

Lemma reads_check_type key dt v : reads (check_type key dt v).
Proof. unfold check_type. reads_auto fail. Qed.

Lemma reads_derive_slug c p : reads (derive_slug c p).
Proof. unfold derive_slug. reads_auto fail. Qed.

Lemma reads_extract_tags acc t : reads (extract_tags rt acc t).
Proof.
    unfold extract_tags. reads_auto ltac:(solve [apply reads_get_display_name]).
Qed.

End ReadOnly.

(** ** What no method changes once an entity exists *)

Lemma stable_refl o : stable o o.
Proof. repeat split. Qed.

Lemma stable_trans a b c : stable a b -> stable b c -> stable a c.
Proof. unfold stable. intuition congruence. Qed.

Lemma evolves_refl hp : evolves hp hp.
Proof. intros x o H. exists o. split; [exact H | apply stable_refl]. Qed.

Lemma evolves_trans a b c : evolves a b -> evolves b c -> evolves a c.
Proof.
  intros H1 H2 x o Hx.
  destruct (H1 _ _ Hx) as (o1 & Hx1 & S1).
  destruct (H2 _ _ Hx1) as (o2 & Hx2 & S2).
  exists o2. split; [exact Hx2 | eapply stable_trans; eassumption].
Qed.

Lemma nth_error_list_set_same {A} (l : list A) n x y :
  nth_error l n = Some y -> nth_error (list_set n x l) n = Some x.
Proof.
  revert n; induction l as [|a r IH]; intros [|n]; simpl; try discriminate; auto.
Qed.

Lemma nth_error_list_set_other {A} (l : list A) n m x :
  n <> m -> nth_error (list_set n x l) m = nth_error l m.
Proof.
  revert n m; induction l as [|a r IH]; intros [|n] [|m]; simpl; auto;
    try congruence.
Qed.

Lemma length_list_set {A} (l : list A) n x : List.length (list_set n x l) = List.length l.
Proof. revert n; induction l as [|a r IH]; intros [|n]; simpl; auto. Qed.

Lemma modify_obj_inv h f hp a hp' l :
  modify_obj h f hp = Ok (a, hp', l) ->
  exists o, nth_error hp h = Some o /\ hp' = list_set h (f o) hp /\ l = [].
Proof.
  unfold modify_obj, bind, get_obj, put_obj.
  destruct (nth_error hp h) as [o|]; [|discriminate].
  intros E; inversion E; subst. exists o. auto.
Qed.

Lemma modify_obj_ok h f hp o :
  nth_error hp h = Some o ->
  modify_obj h f hp = Ok (tt, list_set h (f o) hp, []).
Proof. intros H. unfold modify_obj, bind, get_obj, put_obj. rewrite H. reflexivity. Qed.

Lemma inventory_add_inv inv c d s hp t hp' l :
  inventory_add inv c d s hp = Ok (t, hp', l) ->
  exists created, add_update_object inv c d s hp = Ok (t, created)
                  /\ hp' = (hp ++ created)%list /\ l = [].
Proof.
  unfold inventory_add.
  destruct (add_update_object inv c d s hp) as [[t' created]| |]; try discriminate.
  intros E; inversion E; subst. exists created. auto.
Qed.

Lemma evolves_modify h f :
  (forall o, stable o (f o)) -> respects (on_heap evolves) (modify_obj h f).
Proof.
  intros Hf hp a hp' l E. unfold on_heap.
  apply modify_obj_inv in E as (o & Ho & -> & _).
  intros x ox Hx. destruct (Nat.eq_dec h x) as [->|Hne].
  - exists (f o). split.
    + eapply nth_error_list_set_same; eassumption.
    + rewrite Ho in Hx. inversion Hx; subst. apply Hf.
  - exists ox. split; [|apply stable_refl].
    rewrite nth_error_list_set_other by assumption. exact Hx.
Qed.

Lemma evolves_inventory_add inv c d s :
  respects (on_heap evolves) (inventory_add inv c d s).
Proof.
  intros hp a hp' l E. unfold on_heap.
  apply inventory_add_inv in E as (created & _ & -> & _).
  intros x o Hx. exists o. split; [|apply stable_refl].
  rewrite nth_error_app1; [exact Hx|]. apply nth_error_Some. congruence.
Qed.

Lemma stable_store key v o : stable o (store key v o).
Proof. repeat split. Qed.

Lemma stable_append_updated key o : stable o (append_updated key o).
Proof. repeat split. Qed.

Lemma stable_set_source s o : stable o (set_source s o).
Proof. repeat split. Qed.

Ltac evolves_leaf rt :=
  first
    [ apply (respects_emit_heap _ evolves_refl)
    | apply (respects_reads _ evolves_refl);
      first [ apply reads_display | apply reads_get_display_name
            | apply reads_call_get_display_name | apply reads_get_tags
            | apply reads_current_value_text | apply reads_new_value_text
            | apply reads_same_float | apply reads_check_max_len
            | apply reads_check_choice | apply reads_check_type
            | apply reads_derive_slug | apply reads_extract_tags ]
    | apply evolves_inventory_add
    | apply evolves_modify; intros ?;
      first [ apply stable_store | apply stable_set_source
            | apply stable_append_updated
            | eapply stable_trans; [apply stable_store | apply stable_append_updated] ] ].

Ltac evolves_auto rt tac :=
  respects_auto (on_heap_refl _ evolves_refl) (on_heap_trans _ evolves_trans)
    ltac:(first [evolves_leaf rt | tac]).

Section Evolving.
Context (rt : Runtime) (inv : Inventory).

Lemma evolves_compile_tags h tags remove :
    respects (on_heap evolves) (compile_tags rt inv h tags remove).
Proof. unfold compile_tags. evolves_auto rt fail. Qed.

Lemma evolves_compile_vlans h vlans : respects (on_heap evolves) (compile_vlans inv h vlans).
Proof. unfold compile_vlans. evolves_auto rt fail. Qed.

Lemma evolves_base_resolve_relations h :
    respects (on_heap evolves) (base_resolve_relations rt inv h).
Proof. unfold base_resolve_relations. evolves_auto rt fail. Qed.

Lemma evolves_resolve_relations h : respects (on_heap evolves) (resolve_relations rt inv h).
Proof.
    unfold resolve_relations, ip_resolve_relations, do_error_exit.
    evolves_auto rt ltac:(solve [apply evolves_base_resolve_relations]).
Qed.

Lemma evolves_convert_value h source dt v :
    respects (on_heap evolves) (convert_value rt inv h source dt v).
Proof.
    unfold convert_value.
    evolves_auto rt ltac:(first [ apply evolves_compile_tags
                                | apply evolves_compile_vlans ]).
Qed.

Lemma evolves_parse_item h source dn parsed kv :
    respects (on_heap evolves) (parse_item rt inv h source dn parsed kv).
Proof.
    unfold parse_item.
    evolves_auto rt ltac:(solve [apply evolves_convert_value]).
Qed.

Lemma evolves_apply_item h dn kv : respects (on_heap evolves) (apply_item rt inv h dn kv).
Proof.
    unfold apply_item.
    evolves_auto rt ltac:(solve [apply evolves_resolve_relations]).
Qed.

End Evolving.

(** ** Inversion of the primitive computations *)

Lemma ret_inv {A} (a b : A) hp hp' l :
  ret a hp = Ok (b, hp', l) -> b = a /\ hp' = hp /\ l = [].
Proof. intros E; inversion E; auto. Qed.

Lemma lift_inv {A} (o : Outcome A) (b : A) hp hp' l :
  lift o hp = Ok (b, hp', l) -> o = Ok b /\ hp' = hp /\ l = [].
Proof. destruct o; intros E; inversion E; auto. Qed.

Lemma get_obj_inv h hp o hp' l :
  get_obj h hp = Ok (o, hp', l) -> nth_error hp h = Some o /\ hp' = hp /\ l = [].
Proof.
  unfold get_obj. destruct (nth_error hp h); intros E; inversion E; auto.
Qed.

Lemma emit_inv lv m hp a hp' l :
  emit lv m hp = Ok (a, hp', l) -> hp' = hp /\ l = [mkLog lv m].
Proof. intros E; inversion E; auto. Qed.

Lemma raise_inv {A} (e : Exn) hp (r : A * Heap * list LogEntry) :
  raise e hp = Ok r -> False.
Proof. discriminate. Qed.

Lemma ask_inv {A} (f : Heap -> Outcome A) hp a hp' l :
  ask f hp = Ok (a, hp', l) -> f hp = Ok a /\ hp' = hp /\ l = [].
Proof. unfold ask. intros E. apply lift_inv in E. exact E. Qed.

(** Take apart what is known about a run that returned. *)
Ltac minv1 :=
  match goal with
  | H : bind _ _ _ = Ok _ |- _ =>
      let E := fresh "E" in
      apply bind_inv in H as (? & ? & ? & ? & E & H & ?); cbv beta in H
  | H : ret _ _ = Ok _ |- _ => apply ret_inv in H as (? & ? & ?)
  | H : lift _ _ = Ok _ |- _ => apply lift_inv in H as (H & ? & ?)
  | H : ask _ _ = Ok _ |- _ => apply ask_inv in H as (H & ? & ?)
  | H : get_obj _ _ = Ok _ |- _ => apply get_obj_inv in H as (H & ? & ?)
  | H : emit _ _ _ = Ok _ |- _ => apply emit_inv in H as (? & ?)
  | H : modify_obj _ _ _ = Ok _ |- _ => apply modify_obj_inv in H as (? & H & ? & ?)
  | H : inventory_add _ _ _ _ _ = Ok _ |- _ =>
      apply inventory_add_inv in H as (? & H & ? & ?)
  | H : raise _ _ = Ok _ |- _ => discriminate H
  | H : Raise _ = Ok _ |- _ => discriminate H
  | H : Exit = Ok _ |- _ => discriminate H
  | H : Ok _ = Ok _ |- _ => inversion H; clear H
  end.

Ltac minv := repeat (minv1; subst).

(** Identify the entity read at a handle with the one known to be there. *)
Ltac same_obj Hh :=
  repeat match goal with
         | H : nth_error ?hp ?h = Some ?x |- _ =>
             lazymatch type of Hh with
             | nth_error hp h = Some ?o =>
                 lazymatch x with
                 | o => fail
                 | _ => assert (x = o) by congruence; subst x; clear H
                 end
             end
         end.

(** ** The remote id *)

Section RemoteId.
Context (rt : Runtime) (inv : Inventory).

Lemma py_get_dict_set_other k k' v d :
    k <> k' -> py_get k (dict_set k' v d) = py_get k d.
Proof.
    intros Hne. unfold py_get. induction d as [|[k0 v0] r IH]; simpl.
    - destruct (String.eqb_spec k k'); congruence.
    - destruct (String.eqb_spec k' k0) as [->|Hk0]; simpl.
      + destruct (String.eqb_spec k k0); congruence.
      + destruct (String.eqb_spec k k0); auto.
Qed.

Lemma base_update_sets_id hp h o d rfn src hp' l :
    nth_error hp h = Some o ->
    is_none (py_get "id" d) = false ->
    base_update rt inv h (VDict d) rfn src hp = Ok (tt, hp', l) ->
    exists o', nth_error hp' h = Some o' /\ o_nb_id o' = py_get "id" d.
Proof.
    intros Hh Hid E. unfold base_update in E. rewrite Hid in E. cbn [negb] in E.
    minv1. apply modify_obj_inv in E0 as (o0 & Ho0 & -> & _).
    rewrite Hh in Ho0; inversion Ho0; subst o0.
    assert (H1 : nth_error (list_set h (set_nb_id (py_get "id" d) o) hp) h
                 = Some (set_nb_id (py_get "id" d) o))
      by (eapply nth_error_list_set_same; eassumption).
    destruct rfn.
    - apply modify_obj_inv in E as (o1 & Ho1 & -> & _).
      rewrite H1 in Ho1; inversion Ho1; subst o1.
      eexists. split; [eapply nth_error_list_set_same; eassumption|]. reflexivity.
    - match type of E with ?m _ = _ => assert (Hev : respects (on_heap evolves) m) end.
      { evolves_auto rt ltac:(first [ apply evolves_parse_item
                                    | apply evolves_apply_item ]). }
      destruct (Hev _ _ _ _ E _ _ H1) as (o' & Ho' & _ & Hid' & _).
      exists o'. split; [exact Ho'|]. exact Hid'.
Qed.

Lemma update_reaches_base hp h o d rfn src r hp' l :
    nth_error hp h = Some o ->
    (o_class o = NBPrefix -> prefix_accepted rt (py_get "prefix" d) = true) ->
    update rt inv h (VDict d) rfn src hp = Ok (r, hp', l) ->
    exists d' hp0 hp1 l1,
      evolves hp hp0
      /\ py_get "id" d' = py_get "id" d
      /\ base_update rt inv h (VDict d') rfn src hp0 = Ok (tt, hp1, l1)
      /\ evolves hp1 hp'.
Proof.
    intros Hh Hp E. unfold update in E. minv. same_obj Hh.
    assert (Hfin : forall d' hp0 hp1 l1 u,
               evolves hp hp0 -> py_get "id" d' = py_get "id" d ->
               base_update rt inv h (VDict d') rfn src hp0 = Ok (u, hp1, l1) ->
               evolves hp1 hp' ->
               exists d' hp0 hp1 l1,
                 evolves hp hp0
                 /\ py_get "id" d' = py_get "id" d
                 /\ base_update rt inv h (VDict d') rfn src hp0 = Ok (tt, hp1, l1)
                 /\ evolves hp1 hp').
    { intros d' hp0 hp1 l1 [] H1 H2 H3 H4. exists d', hp0, hp1, l1. auto. }
    destruct (o_class o) eqn:Hc.
    all: try (minv; eapply Hfin; [apply evolves_refl | reflexivity | eassumption
                                 | apply evolves_refl]).
    - (* NBVLAN *)
      unfold vlan_update in E. minv. same_obj Hh.
      destruct (negb rfn && negb (is_none (grab_data "name" VNone o))); minv.
      + match goal with H : data_setitem _ _ _ = Ok _ |- _ =>
          simpl in H; inversion H; subst end.
        eapply Hfin; [apply evolves_refl | | eassumption | apply evolves_refl].
        apply py_get_dict_set_other. discriminate.
      + eapply Hfin; [apply evolves_refl | reflexivity | eassumption
                     | apply evolves_refl].
    - (* NBPrefix *)
      specialize (Hp eq_refl).
      unfold prefix_update in E. minv. same_obj Hh.
      rewrite Hc in *. cbn [primary_key] in *.
      match goal with H : data_get _ _ = Ok _ |- _ =>
        simpl in H; inversion H; subst; clear H end.
      unfold prefix_accepted in Hp.
      match goal with
      | H : ?m _ = Ok (?a, ?hpa, _), H2 : match ?a with _ => _ end _ = Ok _ |- _ =>
          assert (Hgo : exists d', a = Some (VDict d')
                                   /\ py_get "id" d' = py_get "id" d /\ hpa = hp)
      end.
      { destruct (py_get "prefix" d) eqn:Epf;
          try (minv; exists d; auto; fail);
          try discriminate Hp;
          destruct (ip_network rt _) as [[v6 text]|]; try discriminate Hp;
          minv; match goal with H : data_setitem _ _ _ = Ok _ |- _ =>
                  simpl in H; inversion H; subst end;
          eexists; repeat split; apply py_get_dict_set_other; discriminate. }
      destruct Hgo as (d' & -> & Hid' & ->).
      minv.
      eapply Hfin; [apply evolves_refl | exact Hid' | eassumption | ].
      destruct (negb rfn); minv. apply evolves_refl.
    - (* NBIPAddress *)
      unfold ip_update in E. minv.
      repeat match goal with H : data_get _ _ = Ok _ |- _ =>
        simpl in H; inversion H; subst; clear H end.
      match goal with
      | H : ?m hp = Ok (?a, ?hpa, _) |- _ =>
          assert (Hpre : exists d', a = VDict d' /\ py_get "id" d' = py_get "id" d
                                    /\ evolves hp hpa)
      end.
      { destruct (negb rfn && negb (is_none (py_get "assigned_object_id" d))).
        - destruct (py_get "assigned_object_id" d);
            minv; match goal with H : data_setitem _ _ _ = Ok _ |- _ =>
                         simpl in H; inversion H; subst end;
                 eexists; repeat split;
                 try (apply py_get_dict_set_other; discriminate);
                 try apply evolves_refl;
                 eapply (evolves_inventory_add inv); unfold inventory_add;
                   match goal with H : add_update_object _ _ _ _ _ = _ |- _ =>
                     rewrite H end; reflexivity.
        - minv. exists d. repeat split. apply evolves_refl. }
      destruct Hpre as (d' & -> & Hid' & Hev0).
      eapply Hfin; [exact Hev0 | exact Hid' | eassumption | ].
      destruct (existsb _ _); minv.
      + match goal with H : nth_error ?hp1 h = Some ?o1
                        |- evolves ?hp1 (list_set h (append_updated ?k ?o1) ?hp1) =>
          eapply (evolves_modify h (append_updated k));
          [intros ?; apply stable_append_updated | apply (modify_obj_ok _ _ _ _ H)]
        end.
      + apply evolves_refl.
Qed.

End RemoteId.

Lemma id_is_no_model_key (c : Class) : model_get "id" (data_model c) = None.
Proof. destruct c; reflexivity. Qed.

(** C10, as the code has it.  When the data of an update carry a non-null
    ["id"] and the update is not abandoned over an unparsable prefix, the
    entity's [nb_id] is that value afterwards, whether or not the data come
    from NetBox, although ["id"] is in no data model; [get_nb_reference]
    then returns None exactly when that value equals 0. *)
Theorem update_with_id_sets_nb_id
    (rt : Runtime) (inv : Inventory) (hp : Heap) (h : nat) (o : Obj) (d : Dict)
    (read_from_netbox : bool) (source : option Source)
    (r : Value) (hp' : Heap) (l : list LogEntry) :
  nth_error hp h = Some o ->
  is_none (py_get "id" d) = false ->
  (o_class o = NBPrefix -> prefix_accepted rt (py_get "prefix" d) = true) ->
  update rt inv h (VDict d) read_from_netbox source hp = Ok (r, hp', l) ->
  model_get "id" (data_model (o_class o)) = None
  /\ exists o' ref,
       nth_error hp' h = Some o'
       /\ o_nb_id o' = py_get "id" d
       /\ get_nb_reference h hp' = Ok (ref, hp', [])
       /\ (ref = VNone <-> py_eq (o_nb_id o') (VInt 0) = true).
Proof.
  intros Hh Hid Hp E. split; [apply id_is_no_model_key|].
  destruct (update_reaches_base rt inv _ _ _ _ _ _ _ _ _ Hh Hp E)
    as (d' & hp0 & hp1 & l1 & Hev0 & Hid' & Hbase & Hev1).
  destruct (Hev0 _ _ Hh) as (o0 & Ho0 & _).
  rewrite <- Hid' in Hid.
  destruct (base_update_sets_id rt inv _ _ _ _ _ _ _ _ Ho0 Hid Hbase)
    as (o1 & Ho1 & Hnb1).
  destruct (Hev1 _ _ Ho1) as (o' & Ho' & _ & Hnb' & _).
  rewrite Hnb1, Hid' in Hnb'.
  exists o', (if py_eq (o_nb_id o') (VInt 0) then VNone else o_nb_id o').
  split; [exact Ho'|]. split; [exact Hnb'|]. split.
  - unfold get_nb_reference. rewrite (bind_get_obj _ _ _ _ Ho').
    destruct (py_eq (o_nb_id o') (VInt 0)); reflexivity.
  - destruct (py_eq (o_nb_id o') (VInt 0)) eqn:E0; split; intros H; auto;
      try discriminate.
    rewrite Hnb', <- Hid' in H. rewrite H in Hid. discriminate.
Qed.

Lemma update_with_id_sets_nb_id_witness :
  model_get "id" (data_model NBTenant) = None
  /\ exists o' ref,
       nth_error [with_data [("tags", VObjList NBTagList []); ("name", VStr "acme");
                             ("slug", VStr "acme")]
                    (set_nb_id (VInt 7) (append_updated "slug" (append_updated "name"
                       (blank NBTenant))))] 0 = Some o'
       /\ o_nb_id o' = py_get "id" [("id", VInt 7); ("name", VStr "acme")]
       /\ get_nb_reference 0
            [with_data [("tags", VObjList NBTagList []); ("name", VStr "acme");
                        ("slug", VStr "acme")]
               (set_nb_id (VInt 7) (append_updated "slug" (append_updated "name"
                  (blank NBTenant))))]
          = Ok (ref,
                [with_data [("tags", VObjList NBTagList []); ("name", VStr "acme");
                            ("slug", VStr "acme")]
                   (set_nb_id (VInt 7) (append_updated "slug" (append_updated "name"
                      (blank NBTenant))))], [])
       /\ (ref = VNone <-> py_eq (o_nb_id o') (VInt 0) = true).
Proof.
  eapply (update_with_id_sets_nb_id sample_runtime sample_inventory
            [blank NBTenant] 0 (blank NBTenant)
            [("id", VInt 7); ("name", VStr "acme")] false None).
  - reflexivity.
  - reflexivity.
  - discriminate.
  - vm_compute. reflexivity.
Defined.

(** C10 as stated fails for a prefix: [NBPrefix.update] returns before the
    id is read when the prefix literal does not parse. *)
Lemma unparsable_prefix_keeps_nb_id :
  update sample_runtime sample_inventory 0
    (VDict [("id", VInt 5); ("prefix", VStr "not-a-prefix")]) false None
    [blank NBPrefix]
  = Ok (VDict [("id", VInt 5); ("prefix", VStr "not-a-prefix")],
        [blank NBPrefix],
        [mkLog LError (MPrefixParse NBPrefix (VStr "not-a-prefix"))])
  /\ o_nb_id (blank NBPrefix) = VInt 0.
Proof. split; reflexivity. Qed.

Lemma resolve_relations_unknown_discriminator_exits_witness :
  resolve_relations sample_runtime sample_inventory 0 bogus_ip_heap = Exit.
Proof.
  apply (resolve_relations_unknown_discriminator_exits sample_runtime sample_inventory
           bogus_ip_heap 0 _ eq_refl eq_refl);
    [ discriminate | discriminate | discriminate | discriminate ].
Defined.

(** ** Validation of one key *)

Lemma bind_emit {B} lv m (f : unit -> M B) hp :
  bind (emit lv m) f hp = logged_first [mkLog lv m] (f tt hp).
Proof. reflexivity. Qed.

Lemma logged_first_nil {A} (r : Outcome (A * Heap * list LogEntry)) :
  logged_first [] r = r.
Proof. destruct r as [[[a hp] l]| |]; reflexivity. Qed.

Section Validation.
Context (rt : Runtime) (inv : Inventory).

  (** C3, as the code has it.  A string given for ["slug"] is first cut to
      the [n] characters the data model allows and then passed through the
      slug formatter: the normalized value is [format_slug(v[0:n], n)], and
      the update raises what the formatter raises. *)
Theorem slug_is_formatted_after_truncation
      (hp : Heap) (h : nat) (o : Obj) (source : option Source) (display_name : Value)
      (parsed_data : Dict) (v : string) (n : Z) :
    nth_error hp h = Some o ->
    model_get "slug" (data_model (o_class o)) = Some (TMaxLen n) ->
    parse_item rt inv h source display_name parsed_data ("slug", VStr v) hp
    = match format_slug (VStr (PyStr.slice0 v n)) n with
      | Ok s => Ok (dict_set "slug" (VStr s) parsed_data, hp, [])
      | Raise e => Raise e
      | Exit => Exit
      end.
Proof.
    intros Hh Hm. unfold parse_item.
    rewrite (bind_get_obj _ _ _ _ Hh). rewrite Hm.
    cbn [is_none]. change (PyStr.startswith "primary_ip" "slug") with false.
    cbv iota. unfold check_max_len. cbn [String.eqb Ascii.eqb Bool.eqb].
    destruct (format_slug (VStr (PyStr.slice0 v n)) n) as [s|e|] eqn:Ef;
      unfold bind, lift, ret; cbn; reflexivity.
Qed.

  (** C7, first half.  A key that the data model of the entity does not
      have is logged as an error and skipped: the parsed data and the heap
      stay as they are, and the loop over the data goes on with the keys that
      follow. *)
Lemma parse_item_unknown_key
      (hp : Heap) (h : nat) (o : Obj) (source : option Source) (display_name : Value)
      (parsed_data : Dict) (key : string) (value : Value) :
    nth_error hp h = Some o ->
    model_get key (data_model (o_class o)) = None ->
    parse_item rt inv h source display_name parsed_data (key, value) hp
    = Ok (parsed_data, hp, [mkLog LError (MUndefinedKey key (o_class o))]).
Proof.
    intros Hh Hm. unfold parse_item.
    rewrite (bind_get_obj _ _ _ _ Hh). rewrite Hm. reflexivity.
Qed.

End Validation.

Lemma slug_is_formatted_after_truncation_witness :
  parse_item sample_runtime sample_inventory 0 None VNone [] ("slug", VStr "Rack 12, Row.B")
    [blank NBTenant]
  = match format_slug (VStr (PyStr.slice0 "Rack 12, Row.B" 50)) 50 with
    | Ok s => Ok (dict_set "slug" (VStr s) [], [blank NBTenant], [])
    | Raise e => Raise e
    | Exit => Exit
    end.
Proof.
  apply (slug_is_formatted_after_truncation sample_runtime sample_inventory
           [blank NBTenant] 0 (blank NBTenant) None VNone [] "Rack 12, Row.B" 50);
    reflexivity.
Defined.

(** C3 as stated fails: for a value longer than the bound the slug is not
    the formatter's result on the value.  Fifty exclamation marks followed by
    ["abc"] are cut to the exclamation marks, of which the formatter keeps
    nothing, while the formatter applied to the whole value yields ["abc"]. *)
Lemma slug_of_long_value_differs :
  parse_item sample_runtime sample_inventory 0 None VNone [] ("slug", VStr long_slug)
    [blank NBTenant]
  = Ok ([("slug", VStr "")], [blank NBTenant], [])
  /\ format_slug (VStr long_slug) 50 = Ok "abc".
Proof. split; reflexivity. Qed.

Lemma bind_assoc {A B C} (m : M A) (f : A -> M B) (g : B -> M C) hp :
  bind (bind m f) g hp = bind m (fun a => bind (f a) g) hp.
Proof.
  unfold bind. destruct (m hp) as [[[a hp1] l1]| |]; try reflexivity.
  destruct (f a hp1) as [[[b hp2] l2]| |]; try reflexivity.
  destruct (g b hp2) as [[[c hp3] l3]| |]; try reflexivity.
  now rewrite app_assoc.
Qed.

Lemma bind_ext {A B} (m : M A) (f g : A -> M B) hp :
  (forall a hp', f a hp' = g a hp') -> bind m f hp = bind m g hp.
Proof.
  intros H. unfold bind. destruct (m hp) as [[[a hp1] l1]| |]; try reflexivity.
  now rewrite H.
Qed.

Lemma bind_ext_on {A B} (m : M A) (f g : A -> M B) hp :
  (forall a hp1 l1, m hp = Ok (a, hp1, l1) -> f a hp1 = g a hp1) ->
  bind m f hp = bind m g hp.
Proof.
  intros H. unfold bind. destruct (m hp) as [[[a hp1] l1]| |]; try reflexivity.
  now rewrite (H a hp1 l1).
Qed.

Lemma foldM_app {A B} (f : A -> B -> M A) (l1 l2 : list B) (a : A) hp :
  foldM f (l1 ++ l2)%list a hp = bind (foldM f l1 a) (foldM f l2) hp.
Proof.
  revert a hp. induction l1 as [|x r IH]; intros a hp; simpl.
  - rewrite bind_ret. reflexivity.
  - rewrite bind_assoc. apply bind_ext. intros a' hp'. apply IH.
Qed.

(** C7.  In an update that does not come from NetBox, a key the data model
    does not have is logged as an error and skipped, wherever it stands in
    the data, and the keys before and after it are processed as without it.
    In particular the update with [{"bogus": 1, "name": "x"}] of a fresh
    entity of any class with a name returns, stores the name, stores nothing
    under ["bogus"] and logs the error. *)
Theorem unknown_key_is_skipped (rt : Runtime) (inv : Inventory) :
  (forall hp h o source display_name parsed_data before key value after,
      nth_error hp h = Some o ->
      model_get key (data_model (o_class o)) = None ->
      foldM (parse_item rt inv h source display_name)
            (before ++ (key, value) :: after)%list parsed_data hp
      = (p <- foldM (parse_item rt inv h source display_name) before parsed_data ;;
         emit LError (MUndefinedKey key (o_class o)) ;;;
         foldM (parse_item rt inv h source display_name) after p) hp)
  /\ (forall c n,
      recursion_limit rt <> O ->
      model_get "name" (data_model c) = Some (TMaxLen n) ->
      model_get "bogus" (data_model c) = None
      /\ exists hp' l o',
           update rt inv 0 scenario_data false None [blank c] = Ok (scenario_data, hp', l)
           /\ nth_error hp' 0 = Some o'
           /\ py_get "name" (o_data o') = VStr "x"
           /\ dict_get "bogus" (o_data o') = None
           /\ In (mkLog LError (MUndefinedKey "bogus" c)) l).
Proof.
  split.
  - intros hp h o source dn parsed before key value after Hh Hm.
    rewrite foldM_app. apply bind_ext_on. intros p hp1 l1 E1.
    assert (Hev : evolves hp hp1).
    { eapply (respects_foldM _ (on_heap_refl _ evolves_refl) (on_heap_trans _ evolves_trans));
        [|exact E1].
      intros a b. apply evolves_parse_item. }
    destruct (Hev _ _ Hh) as (o1 & Ho1 & Hc1 & _).
    cbn [foldM]. rewrite <- Hc1 in Hm.
    unfold bind at 1. rewrite (parse_item_unknown_key rt inv _ _ _ _ _ _ _ _ Ho1 Hm).
    rewrite Hc1. reflexivity.
  - intros c n Hlim Hm.
    destruct rt as [fr fs ipn lim]. cbn [recursion_limit] in Hlim.
    destruct lim as [|lim]; [congruence|].
    destruct c; try discriminate Hm; (split; [reflexivity|]);
      do 3 eexists; (split; [vm_compute; reflexivity|]);
      (split; [reflexivity|]); (split; [reflexivity|]); (split; [reflexivity|]);
      cbn; auto.
Qed.

Lemma unknown_key_is_skipped_witness :
  model_get "bogus" (data_model NBTenant) = None
  /\ exists hp' l o',
       update sample_runtime sample_inventory 0 scenario_data false None [blank NBTenant]
       = Ok (scenario_data, hp', l)
       /\ nth_error hp' 0 = Some o'
       /\ py_get "name" (o_data o') = VStr "x"
       /\ dict_get "bogus" (o_data o') = None
       /\ In (mkLog LError (MUndefinedKey "bogus" NBTenant)) l.
Proof.
  apply (proj2 (unknown_key_is_skipped sample_runtime sample_inventory) NBTenant 30%Z).
  - discriminate.
  - reflexivity.
Defined.

(** ** Numeric attributes *)

Lemma quiet_emit lv m :
  is_change_record (mkLog lv m) = false ->
  respects (on_log no_change_record) (emit lv m).
Proof.
  intros H hp a hp' l E. apply emit_inv in E as (_ & ->).
  constructor; [exact H | constructor].
Qed.

Ltac quiet_auto tac :=
  respects_auto (on_log_refl no_change_record) (on_log_trans no_change_record)
    ltac:(first [ apply quiet_emit; reflexivity | tac ]).

Lemma quiet_display (rt : Runtime) (fuel : nat) :
  forall r, respects (on_log no_change_record) (display rt fuel r).
Proof.
  induction fuel as [|f IH]; intros r.
  - intros hp a hp' l E. discriminate E.
  - rewrite display_S. unfold vlan_get_display_name, base_get_display_name.
    quiet_auto ltac:(solve [apply IH]).
Qed.

Lemma numeric_key_is_no_primary_ip (c : Class) (key : string) :
  numeric_model c key = true -> PyStr.startswith "primary_ip" key = false.
Proof.
  unfold numeric_model.
  destruct c; cbn [data_model model_get choices];
    repeat match goal with
           | |- context [String.eqb key ?k] =>
               destruct (String.eqb_spec key k); [subst; try reflexivity; try discriminate|]
           end; discriminate.
Qed.

Lemma numeric_key_class (c : Class) (key : string) :
  numeric_model c key = true ->
  c = NBVLAN \/ c = NBVM \/ c = NBVMInterface \/ c = NBInterface.
Proof.
  unfold numeric_model.
  destruct c; auto; cbn [data_model model_get choices];
    repeat match goal with
           | |- context [String.eqb key ?k] =>
               destruct (String.eqb_spec key k); [subst; try discriminate|]
           end; discriminate.
Qed.

Section Numeric.
Context (rt : Runtime) (inv : Inventory).

Lemma py_float_ok_text (v : Value) (f : spec_float) :
    py_float rt v = Ok f -> exists s, py_str rt v = Ok s /\ is_none v = false
                                        /\ (forall c key, current_value_text rt c key v
                                                          = fun hp => Ok (PyStr.remove_char CR s, hp, [])).
Proof.
    destruct v; simpl; try discriminate; intros _; eexists; repeat split; reflexivity.
Qed.

Lemma numeric_new_text (v : Value) :
    is_int_or_float v = true ->
    exists s, new_value_text rt v = fun hp => Ok (PyStr.remove_char CR s, hp, []).
Proof.
    destruct v; simpl; try discriminate; intros _; eexists; reflexivity.
Qed.

Lemma apply_item_equal_float_forms hp h o key new fc fn dn :
    nth_error hp h = Some o ->
    numeric_model (o_class o) key = true ->
    is_int_or_float new = true ->
    py_float rt (py_get key (o_data o)) = Ok fc ->
    py_float rt new = Ok fn ->
    SFeqb fc fn = true ->
    apply_item rt inv h dn (key, new) hp = Ok (tt, hp, []).
Proof.
    intros Hh Hnum Hnew Hfc Hfn Heq.
    unfold apply_item. rewrite (bind_get_obj _ _ _ _ Hh).
    destruct (py_eq (py_get key (o_data o)) new); [reflexivity|].
    destruct (py_float_ok_text _ _ Hfc) as (s & _ & Hnn & Hct).
    destruct (numeric_new_text _ Hnew) as (s' & Hnt).
    unfold bind at 1. rewrite Hct, Hnt. cbn beta iota.
    unfold same_float. rewrite Hnn, Hnum, Hnew. cbn [negb andb].
    rewrite Hfc, Hfn. unfold bind, lift, ret. cbn. rewrite Heq. reflexivity.
Qed.

Lemma parse_item_numeric hp h o source dn key new :
    nth_error hp h = Some o ->
    numeric_model (o_class o) key = true ->
    is_int_or_float new = true ->
    exists parsed l,
      parse_item rt inv h source dn [] (key, new) hp = Ok (parsed, hp, l)
      /\ (parsed = [(key, new)] \/ parsed = [])
      /\ Forall no_change_record l.
Proof.
    intros Hh Hnum Hnew. unfold parse_item.
    rewrite (bind_get_obj _ _ _ _ Hh).
    rewrite (numeric_key_is_no_primary_ip _ _ Hnum).
    unfold numeric_model in Hnum.
    destruct (model_get key (data_model (o_class o))) as [[]|]; try discriminate Hnum;
      destruct new; try discriminate Hnew;
      cbn; do 2 eexists; (split; [reflexivity|]); split; auto;
      repeat constructor.
Qed.

End Numeric.

Lemma numeric_key_is_not_id (c : Class) (key : string) :
  numeric_model c key = true -> String.eqb "id" key = false.
Proof.
  intros H. destruct (String.eqb_spec "id" key) as [<-|]; [|reflexivity].
  unfold numeric_model in H. rewrite id_is_no_model_key in H. discriminate.
Qed.

Tactic Notation "binv" hyp(E) "as" ident(a) ident(hp) ident(l) ident(E1) :=
  apply bind_inv in E as (a & hp & l & ? & E1 & E & ->); cbv beta in E.

Section NumericUpdate.
Context (rt : Runtime) (inv : Inventory).

Lemma base_update_equal_float_forms hp h o key new fc fn source u hp' l :
    nth_error hp h = Some o ->
    model_get "slug" (data_model (o_class o)) = None ->
    numeric_model (o_class o) key = true ->
    is_int_or_float new = true ->
    py_float rt (py_get key (o_data o)) = Ok fc ->
    py_float rt new = Ok fn ->
    SFeqb fc fn = true ->
    base_update rt inv h (VDict [(key, new)]) false source hp = Ok (u, hp', l) ->
    exists o',
      nth_error hp' h = Some o'
      /\ o_data o' = o_data o
      /\ o_updated_items o' = o_updated_items o
      /\ Forall no_change_record l.
Proof.
    intros Hh Hslug Hnum Hnew Hfc Hfn Heq E.
    unfold base_update in E.
    unfold py_get at 1 in E. cbn [dict_get] in E.
    rewrite (numeric_key_is_not_id _ _ Hnum) in E. cbn [is_none negb] in E.
    binv E as u0 hp0 l0 E0. apply ret_inv in E0 as (_ & -> & ->).
    (* the source *)
    binv E as u1 hps ls Es.
    assert (Hs : exists os, nth_error hps h = Some os /\ o_data os = o_data o
                            /\ o_class os = o_class o
                            /\ o_updated_items os = o_updated_items o /\ ls = []).
    { destruct source.
      - apply modify_obj_inv in Es as (o1 & Ho1 & -> & ->). same_obj Hh.
        eexists. split; [eapply nth_error_list_set_same; eassumption|].
        repeat split.
      - apply ret_inv in Es as (_ & -> & ->). exists o. auto. }
    destruct Hs as (os & Hos & Hds & Hcs & Hus & ->).
    (* the display name *)
    binv E as dn1 hpd1 ld1 Ed1.
    pose proof (reads_get_display_name rt _ _ _ _ _ _ _ Ed1) as Hrd.
    pose proof (quiet_display rt _ _ _ _ _ _ Ed1) as Hq1.
    unfold on_heap in Hrd. unfold on_log in Hq1. subst hpd1.
    binv E as dn hpd2 ld2 Ed2.
    assert (Hd2 : hpd2 = hps /\ Forall no_change_record ld2).
    { destruct (is_none dn1).
      - pose proof (reads_get_display_name rt _ _ _ _ _ _ _ Ed2) as Hrd2.
        pose proof (quiet_display rt _ _ _ _ _ _ Ed2) as Hq.
        split; [symmetry; exact Hrd2 | exact Hq].
      - apply ret_inv in Ed2 as (_ & -> & ->). split; [reflexivity|constructor]. }
    destruct Hd2 as (-> & Hq2).
    binv E as o2 hp2 l2 E2. apply get_obj_inv in E2 as (Ho2 & -> & ->).
    same_obj Hos.
    binv E as u3 hp3 l3 E3. apply emit_inv in E3 as (-> & ->).
    (* the parse *)
    binv E as parsed hpp lp Ep. cbn [foldM] in Ep.
    binv Ep as parsed0 hpp0 lp0 Ep0. apply ret_inv in Ep as (-> & -> & ->).
    destruct (parse_item_numeric rt inv _ _ _ source dn _ _ Hos
                ltac:(rewrite Hcs; exact Hnum) Hnew) as (parsed' & lp' & Hp & Hparsed & Hqp).
    rewrite Hp in Ep0. inversion Ep0; subst parsed0 hpp0 lp0. clear Ep0.
    (* no slug *)
    binv E as parsed1 hp4 l4 E4. unfold derive_slug in E4.
    rewrite Hcs, Hslug in E4. apply ret_inv in E4 as (-> & -> & ->).
    (* the store *)
    match type of E with _ = Ok (_, _, ?lr) =>
      assert (Hfin : hp' = hps /\ Forall no_change_record lr) end.
    { destruct Hparsed as [->| ->]; cbn [forM_] in E.
      - binv E as u5 hp5 l5 E5. apply ret_inv in E as (_ & -> & ->).
        rewrite (apply_item_equal_float_forms rt inv _ _ _ _ _ fc fn _ Hos) in E5;
          [ inversion E5; subst
          | rewrite Hcs; exact Hnum | exact Hnew | rewrite Hds; exact Hfc
          | exact Hfn | exact Heq ].
        split; [reflexivity | constructor].
      - apply ret_inv in E as (_ & -> & ->). split; [reflexivity | constructor]. }
    destruct Hfin as (-> & Hqf).
    exists os. repeat split; auto.
    repeat (apply Forall_app; split); auto; repeat constructor.
Qed.

End NumericUpdate.

(** C8.  When the data model declares an attribute [int] or [float], the
    stored value and the new numeric value both have a float form and the two
    forms are equal, storing the new value does nothing: the heap stays as it
    is and nothing is logged.  An update that carries just this attribute, of
    an entity of a class that does not override [update], leaves the data and
    [updated_items] of the entity as they were and logs no change. *)
Theorem numeric_update_with_equal_float_form
    (rt : Runtime) (inv : Inventory) (hp : Heap) (h : nat) (o : Obj)
    (key : string) (new : Value) (fc fn : spec_float) :
  nth_error hp h = Some o ->
  numeric_model (o_class o) key = true ->
  is_int_or_float new = true ->
  py_float rt (py_get key (o_data o)) = Ok fc ->
  py_float rt new = Ok fn ->
  SFeqb fc fn = true ->
  (forall display_name,
      apply_item rt inv h display_name (key, new) hp = Ok (tt, hp, []))
  /\ (o_class o <> NBVLAN ->
      forall source r hp' l,
        update rt inv h (VDict [(key, new)]) false source hp = Ok (r, hp', l) ->
        exists o',
          nth_error hp' h = Some o'
          /\ o_data o' = o_data o
          /\ o_updated_items o' = o_updated_items o
          /\ Forall no_change_record l).
Proof.
  intros Hh Hnum Hnew Hfc Hfn Heq. split.
  - intros dn. eapply apply_item_equal_float_forms; eassumption.
  - intros Hvlan source r hp' l E.
    unfold update in E. rewrite (bind_get_obj _ _ _ _ Hh) in E.
    assert (Hgen : exists u hp1 l1,
               base_update rt inv h (VDict [(key, new)]) false source hp = Ok (u, hp1, l1)
               /\ hp' = hp1 /\ l = l1
               /\ model_get "slug" (data_model (o_class o)) = None).
    { destruct (numeric_key_class _ _ Hnum) as [Hc|[Hc|[Hc|Hc]]];
        [contradiction| | |]; rewrite Hc in E |- *;
        binv E as u hp1 l1 E1; apply ret_inv in E as (_ & -> & ->);
        exists u, hp1, l1; rewrite app_nil_r; auto. }
    destruct Hgen as (u & hp1 & l1 & Hb & -> & -> & Hslug).
    eapply base_update_equal_float_forms; eassumption.
Qed.

Lemma numeric_update_with_equal_float_form_witness :
  (forall display_name,
      apply_item sample_runtime sample_inventory 0 display_name
        ("vcpus", VFloat four_point_zero) vm_heap = Ok (tt, vm_heap, []))
  /\ (o_class (with_data [("name", VStr "vm1"); ("vcpus", VInt 4)] (blank NBVM)) <> NBVLAN ->
      forall source r hp' l,
        update sample_runtime sample_inventory 0
          (VDict [("vcpus", VFloat four_point_zero)]) false source vm_heap = Ok (r, hp', l) ->
        exists o',
          nth_error hp' 0 = Some o'
          /\ o_data o' = o_data (with_data [("name", VStr "vm1"); ("vcpus", VInt 4)] (blank NBVM))
          /\ o_updated_items o'
             = o_updated_items (with_data [("name", VStr "vm1"); ("vcpus", VInt 4)] (blank NBVM))
          /\ Forall no_change_record l).
Proof.
  apply (numeric_update_with_equal_float_form sample_runtime sample_inventory vm_heap 0
           _ "vcpus" (VFloat four_point_zero) four_point_zero four_point_zero);
    reflexivity.
Defined.

(** ** Display names read only the name attributes *)

Section Transfers.
Variable R : Heap -> Heap -> Prop.

Lemma transfers_bind {A B} (m m' : M A) (f f' : A -> M B) :
    transfers R m m' -> (forall a, transfers R (f a) (f' a)) ->
    transfers R (bind m f) (bind m' f').
Proof.
    intros Hm Hf hp hp' b hp2 l HR E.
    apply bind_inv in E as (a & hp1 & l1 & l2 & E1 & E2 & ->).
    destruct (Hm _ _ _ _ _ HR E1) as (-> & E1').
    destruct (Hf a _ _ _ _ _ HR E2) as (-> & E2').
    split; [reflexivity|]. unfold bind. rewrite E1', E2'. reflexivity.
Qed.

Lemma transfers_ret {A} (a : A) : transfers R (ret a) (ret a).
Proof. intros hp hp' b hp1 l _ E. inversion E; subst. split; reflexivity. Qed.

Lemma transfers_raise {A} (e : Exn) : transfers R (@raise A e) (raise e).
Proof. intros hp hp' b hp1 l _ E. discriminate E. Qed.

Lemma transfers_lift {A} (o : Outcome A) : transfers R (lift o) (lift o).
Proof.
    intros hp hp' b hp1 l _ E. destruct o; inversion E; subst. split; reflexivity.
Qed.

Lemma transfers_emit lv m : transfers R (emit lv m) (emit lv m).
Proof. intros hp hp' b hp1 l _ E. inversion E; subst. split; reflexivity. Qed.

Lemma transfers_mapM {A B} (f f' : A -> M B) (l : list A) :
    (forall a, transfers R (f a) (f' a)) -> transfers R (mapM f l) (mapM f' l).
Proof.
    intros Hf. induction l as [|x r IH]; simpl.
    - apply transfers_ret.
    - apply transfers_bind; auto. intros y.
      apply transfers_bind; auto. intros ys. apply transfers_ret.
Qed.

  (** Reading an entity: what follows may differ with the entity read. *)
Lemma transfers_get_obj {B} (h : nat) (rel : Obj -> Obj -> Prop) (f f' : Obj -> M B) :
    (forall hp hp' o, R hp hp' -> nth_error hp h = Some o ->
                      exists o', nth_error hp' h = Some o' /\ rel o o') ->
    (forall o o', rel o o' -> transfers R (f o) (f' o')) ->
    transfers R (bind (get_obj h) f) (bind (get_obj h) f').
Proof.
    intros Hget Hf hp hp' b hp2 l HR E.
    apply bind_inv in E as (o & hp1 & l1 & l2 & E1 & E2 & ->).
    apply get_obj_inv in E1 as (Ho & -> & ->).
    destruct (Hget _ _ _ HR Ho) as (o' & Ho' & Hrel).
    destruct (Hf _ _ Hrel _ _ _ _ _ HR E2) as (-> & E2').
    split; [reflexivity|]. rewrite (bind_get_obj _ _ _ _ Ho'). exact E2'.
Qed.

End Transfers.

Ltac transfers_step tac :=
  lazymatch goal with
  | |- transfers _ (bind _ _) (bind _ _) => apply transfers_bind; [|intros ?]
  | |- transfers _ (ret _) _ => apply transfers_ret
  | |- transfers _ (raise _) _ => apply transfers_raise
  | |- transfers _ (lift _) _ => apply transfers_lift
  | |- transfers _ (emit _ _) _ => apply transfers_emit
  | |- transfers _ (mapM _ _) _ => apply transfers_mapM; intros ?
  | |- transfers _ (match ?x with _ => _ end) _ => destruct x
  | |- _ => tac
  end.

Ltac transfers_auto tac := repeat (transfers_step tac).

Section NamesKept.
Context (rt : Runtime).

Lemma names_kept_get hp hp' x o :
    names_kept hp hp' -> nth_error hp x = Some o ->
    exists o', nth_error hp' x = Some o' /\ same_names o o'.
Proof. intros H. apply H. Qed.

Lemma transfers_base_name rec rec' h data incl :
    (forall r, transfers names_kept (rec r) (rec' r)) ->
    transfers names_kept (base_get_display_name rt rec h data incl)
                         (base_get_display_name rt rec' h data incl).
Proof.
    intros Hrec. unfold base_get_display_name.
    apply (transfers_get_obj _ h same_names); [intros; eapply names_kept_get; eassumption|].
    intros o o' (Hc & Hpk & Hsk & Hsite). rewrite Hc.
    destruct data as [d|].
    - transfers_auto ltac:(solve [apply Hrec]).
    - rewrite Hpk.
      destruct (secondary_key (o_class o)) as [sk|] eqn:Esk;
        [rewrite (Hsk sk eq_refl)|];
        transfers_auto ltac:(solve [apply Hrec]).
Qed.

Lemma transfers_vlan_name rec rec' h data incl :
    (forall r, transfers names_kept (rec r) (rec' r)) ->
    transfers names_kept (vlan_get_display_name rt rec h data incl)
                         (vlan_get_display_name rt rec' h data incl).
Proof.
    intros Hrec. unfold vlan_get_display_name.
    apply transfers_bind; [apply transfers_base_name; exact Hrec|]. intros my_name.
    apply (transfers_get_obj _ h same_names); [intros; eapply names_kept_get; eassumption|].
    intros o o' (Hc & Hpk & Hsk & Hsite). rewrite Hc.
    destruct data as [d|].
    - transfers_auto ltac:(solve [apply Hrec]).
    - rewrite Hpk, Hsite. transfers_auto ltac:(solve [apply Hrec]).
Qed.

Lemma transfers_display (fuel : nat) :
    forall r, transfers names_kept (display rt fuel r) (display rt fuel r).
Proof.
    induction fuel as [|f IH]; intros r.
    - intros hp hp' a hp1 l _ E. discriminate E.
    - rewrite display_S. destruct r as [h data incl|x].
      + apply (transfers_get_obj _ h same_names);
          [intros; eapply names_kept_get; eassumption|].
        intros o o' (Hc & _). rewrite Hc.
        destruct (o_class o);
          first [ apply transfers_vlan_name; exact IH
                | apply transfers_base_name; exact IH ].
      + transfers_auto ltac:(solve [apply IH]).
Qed.

  (** A display name is the same on every heap that keeps the name
      attributes of the entities. *)
Lemma display_names_kept fuel r hp hp' v hp1 l :
    names_kept hp hp' ->
    display rt fuel r hp = Ok (v, hp1, l) ->
    display rt fuel r hp' = Ok (v, hp', l).
Proof. intros HR E. apply (transfers_display fuel r _ _ _ _ _ HR E). Qed.

End NamesKept.

(** ** The text of a list of strings tells how many strings it holds *)

Lemma scan_app st n s1 s2 :
  scan st n (s1 ++ s2) = scan (fst (scan st n s1)) (snd (scan st n s1)) s2.
Proof.
  revert st n. induction s1 as [|c r IH]; intros st n; simpl; [reflexivity|].
  destruct st; repeat match goal with |- context [if ?b then _ else _] => destruct b end;
    apply IH.
Qed.

Lemma scan_escape_char (q c : ascii) (n : nat) :
  is_quote q = true ->
  scan (InLiteral q) n (PyStr.escape_char q c) = (InLiteral q, n).
Proof.
  intros Hq. unfold is_quote in Hq.
  assert (Hq' : q = "'"%char \/ q = PyStr.dquote).
  { apply orb_true_iff in Hq as [H|H]; apply Ascii.eqb_eq in H; auto. }
  destruct Hq' as [-> | ->];
    destruct c as [b0 b1 b2 b3 b4 b5 b6 b7];
    destruct b0, b1, b2, b3, b4, b5, b6, b7; reflexivity.
Qed.

Lemma scan_escape (q : ascii) (s : string) (n : nat) :
  is_quote q = true -> scan (InLiteral q) n (PyStr.escape q s) = (InLiteral q, n).
Proof.
  intros Hq. induction s as [|c r IH]; simpl; [reflexivity|].
  rewrite scan_app, scan_escape_char by assumption. exact IH.
Qed.

Lemma scan_repr (s : string) (n : nat) :
  scan Outside n (PyStr.repr s) = (Outside, S n).
Proof.
  unfold PyStr.repr.
  set (q := if PyStr.mem_char "'"%char s && negb (PyStr.mem_char PyStr.dquote s)
            then PyStr.dquote else "'"%char).
  assert (Hq : is_quote q = true) by (subst q; destruct (_ && _); reflexivity).
  cbn [scan]. rewrite Hq. rewrite scan_app, scan_escape by assumption.
  cbn [fst snd scan].
  assert (Hb : Ascii.eqb q "\"%char = false) by (subst q; destruct (_ && _); reflexivity).
  rewrite Hb, Ascii.eqb_refl. reflexivity.
Qed.

Lemma scan_separator (n : nat) (s : string) :
  scan Outside n (", " ++ s) = scan Outside n s.
Proof. reflexivity. Qed.

Lemma scan_open (n : nat) (s : string) : scan Outside n ("[" ++ s) = scan Outside n s.
Proof. reflexivity. Qed.

Lemma scan_close (n : nat) : scan Outside n "]" = (Outside, n).
Proof. reflexivity. Qed.

Lemma scan_join (l : list string) (n : nat) :
  scan Outside n (PyStr.join ", " (map PyStr.repr l)) = (Outside, (List.length l + n)%nat).
Proof.
  revert n. induction l as [|s r IH]; intros n.
  - reflexivity.
  - cbn [map PyStr.join]. destruct r as [|s' r'].
    + cbn [map]. rewrite scan_repr. reflexivity.
    + change (map PyStr.repr (s' :: r')) with (PyStr.repr s' :: map PyStr.repr r').
      cbv iota. rewrite scan_app, scan_repr. cbn [fst snd].
      rewrite scan_separator.
      change (PyStr.repr s' :: map PyStr.repr r') with (map PyStr.repr (s' :: r')).
      rewrite IH. cbn [List.length]. rewrite <- plus_n_Sm. reflexivity.
Qed.

Lemma scan_list_text (l : list string) :
  scan Outside 0 (list_text l) = (Outside, List.length l).
Proof.
  unfold list_text. rewrite scan_open, scan_app, scan_join. cbn [fst snd].
  rewrite scan_close, Nat.add_0_r. reflexivity.
Qed.

Lemma list_text_length (l1 l2 : list string) :
  list_text l1 = list_text l2 -> List.length l1 = List.length l2.
Proof.
  intros H. pose proof (scan_list_text l1) as H1. rewrite H, scan_list_text in H1.
  now inversion H1.
Qed.

Lemma py_str_string_list (rt : Runtime) (l : list string) :
  py_str rt (VList (map VStr l)) = Ok (list_text l).
Proof.
  unfold py_str, list_text. cbn [py_repr].
  assert (H : (fix go (l : list Value) : Outcome (list string) :=
                 match l with
                 | [] => Ok []
                 | x :: r => obind (py_repr rt x) (fun s => obind (go r) (fun t => Ok (s :: t)))
                 end) (map VStr l) = Ok (map PyStr.repr l)).
  { induction l as [|s r IH]; [reflexivity|]. cbn [map]. cbn [py_repr obind].
    rewrite IH. reflexivity. }
  rewrite H. reflexivity.
Qed.

(** ** Sorting strings *)

Lemma insert_sorted_strings (x : string) (l : list string) :
  exists l', insert_sorted (VStr x) (map VStr l) = map VStr l'
             /\ List.length l' = S (List.length l).
Proof.
  induction l as [|y r (r' & Hr & Hl)]; cbn [map insert_sorted].
  - exists [x]. split; reflexivity.
  - destruct (py_lt (VStr x) (VStr y)).
    + exists (x :: y :: r). split; reflexivity.
    + rewrite Hr. exists (y :: r'). split; [reflexivity|]. cbn [List.length]. now rewrite Hl.
Qed.

Lemma stable_sort_strings (l : list string) :
  exists l', stable_sort (map VStr l) = map VStr l' /\ List.length l' = List.length l.
Proof.
  unfold stable_sort. generalize l as k. intros k.
  assert (H : forall acc, exists l',
               fold_left (fun acc x => insert_sorted x acc) (map VStr k) (map VStr acc)
               = map VStr l'
               /\ List.length l' = (List.length k + List.length acc)%nat).
  { induction k as [|x r IH]; intros acc; cbn [map fold_left].
    - exists acc. split; reflexivity.
    - destruct (insert_sorted_strings x acc) as (acc' & Ha & Hl). rewrite Ha.
      destruct (IH acc') as (l' & Hf & Hl'). exists l'. split; [exact Hf|].
      rewrite Hl', Hl. cbn [List.length]. now rewrite <- plus_n_Sm. }
  destruct (H []) as (l' & Hf & Hl). exists l'. split; [exact Hf|].
  rewrite Hl. cbn [List.length]. now rewrite Nat.add_0_r.
Qed.

Lemma py_sorted_strings (l : list string) :
  exists l', py_sorted (map VStr l) = Ok (map VStr l') /\ List.length l' = List.length l.
Proof.
  destruct l as [|x [|y r]].
  - exists []. split; reflexivity.
  - exists [x]. split; reflexivity.
  - unfold py_sorted. cbn [map].
    assert (Hk : forallb (is_kind KStr) (VStr x :: VStr y :: map VStr r) = true).
    { cbn [forallb is_kind sort_kind andb]. induction r; [reflexivity|]. exact IHr. }
    rewrite Hk. cbn [orb].
    destruct (stable_sort_strings (x :: y :: r)) as (l' & Hs & Hl).
    exists l'. split; [|exact Hl]. cbn [map] in Hs. now rewrite Hs.
Qed.

Lemma py_in_strings (a : string) (l : list string) :
  py_in (VStr a) (map VStr l) = true <-> In a l.
Proof.
  unfold py_in. induction l as [|x r IH]; cbn [map existsb py_eq In].
  - split; [discriminate | contradiction].
  - rewrite orb_true_iff, IH. split.
    + intros [H|H]; [left; symmetry; now apply String.eqb_eq | right; exact H].
    + intros [H|H]; [left; subst; apply String.eqb_refl | right; exact H].
Qed.

(** ** The tags of an entity *)

Lemma bind_step {A B} (m : M A) (f : A -> M B) hp a hp1 :
  m hp = Ok (a, hp1, []) -> bind m f hp = f a hp1.
Proof.
  intros H. unfold bind. rewrite H.
  destruct (f a hp1) as [[[b hp2] l2]| |]; reflexivity.
Qed.

Lemma mapM_pure {A B} (f : A -> M B) (g : A -> B) (l : list A) hp :
  (forall x, In x l -> f x hp = Ok (g x, hp, [])) ->
  mapM f l hp = Ok (map g l, hp, []).
Proof.
  induction l as [|x r IH]; intros H; [reflexivity|].
  cbn [mapM map]. rewrite (bind_step _ _ _ _ _ (H x (or_introl eq_refl))).
  rewrite (bind_step _ _ _ _ _ (IH (fun y Hy => H y (or_intror Hy)))).
  reflexivity.
Qed.

Section TagNames.
Context (rt : Runtime).

Lemma named_tag_display hp x n f :
    named_tag hp x n ->
    display rt (S (S f)) (OfValue x) hp = Ok (VStr n, hp, []).
Proof.
    intros (t & ot & -> & Ht & Hc & Hn).
    rewrite display_S. cbv iota. rewrite display_S.
    rewrite (bind_get_obj _ _ _ _ Ht). rewrite Hc.
    unfold base_get_display_name. rewrite (bind_get_obj _ _ _ _ Ht). rewrite Hc.
    cbn [secondary_key primary_key]. rewrite Hn. reflexivity.
Qed.

Lemma named_tags_display hp items names f :
    Forall2 (named_tag hp) items names ->
    mapM (fun y => display rt (S (S f)) (OfValue y)) items hp
    = Ok (map VStr names, hp, []).
Proof.
    induction 1 as [|x n items names Hx Hr IH]; [reflexivity|].
    cbn [mapM map]. rewrite (bind_step _ _ _ _ _ (named_tag_display _ _ _ f Hx)).
    rewrite (bind_step _ _ _ _ _ IH). reflexivity.
Qed.

Lemma tag_items_get_tags hp h o items names :
    nth_error hp h = Some o ->
    tag_items o = Some items ->
    Forall2 (named_tag hp) items names ->
    (2 <= recursion_limit rt)%nat ->
    get_tags rt h hp = Ok (map VStr names, hp, []).
Proof.
    intros Hh Hti Hn Hlim. unfold get_tags. rewrite (bind_get_obj _ _ _ _ Hh).
    unfold tag_items in Hti. unfold call_get_display_name.
    destruct (recursion_limit rt) as [|[|f]]; try lia.
    destruct (dict_get "tags" (o_data o)) as [[]|]; try discriminate Hti;
      inversion Hti; subst; cbn [py_iter]; rewrite bind_lift_ok;
      apply named_tags_display; assumption.
Qed.

Lemma tag_items_grab o items :
    tag_items o = Some items ->
    exists lc, grab_data "tags" (VObjList NBTagList []) o = VObjList lc items.
Proof.
    unfold tag_items, grab_data, py_get.
    destruct (dict_get "tags" (o_data o)) as [[]|]; try discriminate;
      intros H; inversion H; subst; eexists; reflexivity.
Qed.

  (** The display name of a tag list: the sorted names. *)
Lemma tag_list_display hp lc items names :
    Forall2 (named_tag hp) items names ->
    (3 <= recursion_limit rt)%nat ->
    exists sorted,
      call_get_display_name rt (VObjList lc items) hp
      = Ok (VList (map VStr sorted), hp, [])
      /\ List.length sorted = List.length names.
Proof.
    intros Hn Hlim. unfold call_get_display_name.
    destruct (recursion_limit rt) as [|[|[|f]]]; try lia.
    rewrite display_S. cbv iota.
    rewrite (bind_step _ _ _ _ _ (named_tags_display _ _ _ f Hn)).
    destruct (py_sorted_strings names) as (sorted & Hs & Hl).
    rewrite Hs, bind_lift_ok. exists sorted. split; [reflexivity | exact Hl].
Qed.

End TagNames.

(** ** Evaluating the tag methods *)

Lemma bind_run {A B} (m : M A) (f : A -> M B) hp a hp1 l1 :
  m hp = Ok (a, hp1, l1) -> bind m f hp = logged_first l1 (f a hp1).
Proof. intros H. unfold bind. rewrite H. reflexivity. Qed.

Lemma py_get_dict_set_same k v d : py_get k (dict_set k v d) = v.
Proof.
  unfold py_get. induction d as [|[k0 v0] r IH]; simpl.
  - now rewrite String.eqb_refl.
  - destruct (String.eqb_spec k k0) as [->|Hk0]; simpl.
    + now rewrite String.eqb_refl.
    + destruct (String.eqb_spec k k0); [congruence | exact IH].
Qed.

Lemma dict_get_dict_set_same k v d : dict_get k (dict_set k v d) = Some v.
Proof.
  induction d as [|[k0 v0] r IH]; simpl.
  - now rewrite String.eqb_refl.
  - destruct (String.eqb_spec k k0) as [->|Hk0]; simpl.
    + now rewrite String.eqb_refl.
    + destruct (String.eqb_spec k k0); [congruence | exact IH].
Qed.

Lemma tags_is_no_name_key (c : Class) :
  primary_key c <> "tags" /\ secondary_key c <> Some "tags".
Proof. destruct c; split; cbn; congruence. Qed.

Lemma same_names_store_tags (o : Obj) (v : Value) :
  same_names o (append_updated "tags" (store "tags" v o)).
Proof.
  destruct (tags_is_no_name_key (o_class o)) as (Hp & Hs).
  unfold same_names, append_updated, store; cbn. repeat split.
  - apply py_get_dict_set_other. exact Hp.
  - intros sk Hsk. apply py_get_dict_set_other. congruence.
  - apply py_get_dict_set_other. congruence.
Qed.

Lemma same_names_refl (o : Obj) : same_names o o.
Proof. unfold same_names. auto. Qed.

Lemma names_kept_refl (hp : Heap) : names_kept hp hp.
Proof. intros x o H. exists o. split; [exact H | apply same_names_refl]. Qed.

Lemma names_kept_app (hp created : Heap) : names_kept hp (hp ++ created)%list.
Proof.
  intros x o H. exists o. split; [|apply same_names_refl].
  rewrite nth_error_app1; [exact H|]. apply nth_error_Some. congruence.
Qed.

Lemma names_kept_list_set (hp : Heap) h o o' :
  nth_error hp h = Some o -> same_names o o' -> names_kept hp (list_set h o' hp).
Proof.
  intros Hh Hs x ox Hx. destruct (Nat.eq_dec h x) as [<-|Hne].
  - exists o'. rewrite (nth_error_list_set_same _ _ _ _ Hh). split; [reflexivity|].
    congruence.
  - exists ox. rewrite (nth_error_list_set_other _ _ _ _ Hne). split; [exact Hx|].
    apply same_names_refl.
Qed.

Lemma names_kept_trans (hp1 hp2 hp3 : Heap) :
  names_kept hp1 hp2 -> names_kept hp2 hp3 -> names_kept hp1 hp3.
Proof.
  intros H12 H23 x o Hx. destruct (H12 _ _ Hx) as (o2 & Hx2 & (Hc & Hp & Hs & Hsite)).
  destruct (H23 _ _ Hx2) as (o3 & Hx3 & (Hc' & Hp' & Hs' & Hsite')).
  exists o3. split; [exact Hx3|]. unfold same_names.
  rewrite Hc in *. repeat split; try congruence.
  intros sk Hsk. rewrite (Hs' sk Hsk). auto.
Qed.

Lemma named_tag_kept hp hp' x n :
  names_kept hp hp' -> named_tag hp x n -> named_tag hp' x n.
Proof.
  intros Hk (t & ot & -> & Ht & Hc & Hn).
  destruct (Hk _ _ Ht) as (ot' & Ht' & (Hc' & Hp & _)).
  exists t, ot'. rewrite Hc in Hp. cbn in Hp. repeat split; congruence.
Qed.

Lemma named_tags_kept hp hp' items names :
  names_kept hp hp' ->
  Forall2 (named_tag hp) items names -> Forall2 (named_tag hp') items names.
Proof.
  intros Hk. induction 1; constructor; eauto using named_tag_kept.
Qed.

Section TagMethods.
Context (rt : Runtime) (inv : Inventory).

Lemma extract_one_name tags a hp :
    one_name tags a ->
    match tags with
    | VList l | VObjList _ l => foldM (extract_tags rt) l []
    | _ => extract_tags rt [] tags
    end hp = Ok ([VStr a], hp, []).
Proof. intros [->| ->]; reflexivity. Qed.

Lemma one_name_is_value tags a : one_name tags a -> is_none tags = false.
Proof. intros [->| ->]; reflexivity. Qed.

  (** Adding a name the entity has: the tag list is the current one. *)
Lemma compile_tags_present hp h o items names tags a :
    nth_error hp h = Some o ->
    model_has_list NBTagList (o_class o) = true ->
    tag_items o = Some items ->
    Forall2 (named_tag hp) items names ->
    (2 <= recursion_limit rt)%nat ->
    one_name tags a -> In a names ->
    compile_tags rt inv h tags false hp
    = Ok (grab_data "tags" (VObjList NBTagList []) o, hp, [mkLog LDebug2 MCompilingTags]).
Proof.
    intros Hh Hm Hti Hn Hlim Ht Ha. unfold compile_tags.
    rewrite (bind_get_obj _ _ _ _ Hh), (one_name_is_value _ _ Ht), Hm. cbn [negb orb].
    rewrite bind_emit.
    rewrite (bind_step _ _ _ _ _ (extract_one_name _ _ hp Ht)).
    rewrite (bind_step _ _ _ _ _ (tag_items_get_tags rt _ _ _ _ _ Hh Hti Hn Hlim)).
    cbn [foldM]. apply py_in_strings in Ha. rewrite Ha. cbn [negb andb].
    repeat (rewrite bind_assoc || rewrite bind_ret).
    rewrite (bind_get_obj _ _ _ _ Hh). reflexivity.
Qed.

  (** Adding a name the entity lacks: the tag of that name is put before
      the current ones. *)
Lemma compile_tags_absent hp h o items names tags a t created :
    nth_error hp h = Some o ->
    model_has_list NBTagList (o_class o) = true ->
    tag_items o = Some items ->
    Forall2 (named_tag hp) items names ->
    (2 <= recursion_limit rt)%nat ->
    one_name tags a -> ~ In a names ->
    add_update_object inv (Some NBTag) (tag_data (VStr a)) None hp = Ok (t, created) ->
    compile_tags rt inv h tags false hp
    = Ok (VObjList NBTagList (VObj t :: items), (hp ++ created)%list,
          [mkLog LDebug2 MCompilingTags]).
Proof.
    intros Hh Hm Hti Hn Hlim Ht Ha Hadd. unfold compile_tags.
    rewrite (bind_get_obj _ _ _ _ Hh), (one_name_is_value _ _ Ht), Hm. cbn [negb orb].
    rewrite bind_emit.
    rewrite (bind_step _ _ _ _ _ (extract_one_name _ _ hp Ht)).
    rewrite (bind_step _ _ _ _ _ (tag_items_get_tags rt _ _ _ _ _ Hh Hti Hn Hlim)).
    cbn [foldM].
    destruct (py_in (VStr a) (map VStr names)) eqn:Hin.
    { apply py_in_strings in Hin. contradiction. }
    cbn [negb andb].
    assert (Hinv : inventory_add inv (Some NBTag) (tag_data (VStr a)) None hp
                   = Ok (t, (hp ++ created)%list, [])).
    { unfold inventory_add. now rewrite Hadd. }
    rewrite !bind_assoc. rewrite (bind_step _ _ _ _ _ Hinv).
    repeat (rewrite bind_assoc || rewrite bind_ret).
    assert (Hh' : nth_error (hp ++ created)%list h = Some o).
    { rewrite nth_error_app1; [exact Hh|]. apply nth_error_Some. congruence. }
    rewrite (bind_get_obj _ _ _ _ Hh').
    destruct (tag_items_grab _ _ Hti) as (lc & ->). reflexivity.
Qed.

Lemma filter_other_tag hp items names t :
    Forall2 (named_tag hp) items names ->
    ~ In (VObj t) items ->
    filter (fun tag => negb (py_in tag [VObj t])) items = items.
Proof.
    induction 1 as [|x n items names Hx Hr IH]; intros Hni; [reflexivity|].
    cbn [filter]. destruct Hx as (t' & ot & -> & _).
    assert (Hne : t' <> t) by (intros ->; apply Hni; now left).
    unfold py_in at 1. cbn [existsb py_eq].
    apply Nat.eqb_neq in Hne. rewrite Hne. cbn [orb negb].
    rewrite IH; [reflexivity|]. intros Hin. apply Hni. now right.
Qed.

  (** Removing the name of the first tag. *)
Lemma compile_tags_remove hp h o lc items names tags a t :
    nth_error hp h = Some o ->
    model_has_list NBTagList (o_class o) = true ->
    dict_get "tags" (o_data o) = Some (VObjList lc (VObj t :: items)) ->
    Forall2 (named_tag hp) (VObj t :: items) (a :: names) ->
    ~ In (VObj t) items ->
    (2 <= recursion_limit rt)%nat ->
    one_name tags a ->
    get_by_data inv NBTag (tag_data (VStr a)) hp = Ok (Some t) ->
    compile_tags rt inv h tags true hp
    = Ok (VObjList NBTagList items, hp, [mkLog LDebug2 MCompilingTags]).
Proof.
    intros Hh Hm Hd Hn Hni Hlim Ht Hget. unfold compile_tags.
    assert (Hti : tag_items o = Some (VObj t :: items)).
    { unfold tag_items. now rewrite Hd. }
    rewrite (bind_get_obj _ _ _ _ Hh), (one_name_is_value _ _ Ht), Hm. cbn [negb orb].
    rewrite bind_emit.
    rewrite (bind_step _ _ _ _ _ (extract_one_name _ _ hp Ht)).
    rewrite (bind_step _ _ _ _ _ (tag_items_get_tags rt _ _ _ _ _ Hh Hti Hn Hlim)).
    cbn [foldM].
    assert (Hin : py_in (VStr a) (map VStr (a :: names)) = true).
    { apply py_in_strings. now left. }
    rewrite Hin. cbn [negb andb]. repeat (rewrite bind_assoc || rewrite bind_ret).
    assert (Hask : ask (get_by_data inv NBTag (tag_data (VStr a))) hp = Ok (Some t, hp, [])).
    { unfold ask. now rewrite Hget. }
    rewrite (bind_step _ _ _ _ _ Hask).
    repeat (rewrite bind_assoc || rewrite bind_ret). rewrite (bind_get_obj _ _ _ _ Hh).
    unfold grab_data, py_get. rewrite Hd. cbn [opt_obj app py_iter]. rewrite bind_lift_ok.
    cbn [filter]. unfold py_in at 1. cbn [existsb py_eq]. rewrite Nat.eqb_refl.
    cbn [orb negb]. inversion Hn; subst.
    rewrite (filter_other_tag _ _ _ _ H4 Hni). reflexivity.
Qed.

End TagMethods.

Section TagUpdates.
Context (rt : Runtime) (inv : Inventory).

Lemma tag_texts_differ (l1 l2 : list string) :
    List.length l1 <> List.length l2 ->
    String.eqb (list_text l1) (list_text l2) = false.
Proof.
    intros Hne. apply String.eqb_neq. intros E. apply Hne.
    now apply list_text_length.
Qed.

  (** An update that compiles to the current list stores nothing. *)
Lemma update_tags_same hp h o items names tags remove lc :
    nth_error hp h = Some o ->
    model_has_list NBTagList (o_class o) = true ->
    is_none tags = false ->
    tag_items o = Some items ->
    Forall2 (named_tag hp) items names ->
    (3 <= recursion_limit rt)%nat ->
    compile_tags rt inv h tags remove hp
    = Ok (grab_data "tags" (VObjList NBTagList []) o, hp, lc) ->
    update_tags rt inv h tags remove hp
    = Ok (tt, hp, mkLog LDebug2 (MTagsAction remove tags) :: lc).
Proof.
    intros Hh Hm Hv Hti Hn Hlim Hc. unfold update_tags.
    rewrite (bind_get_obj _ _ _ _ Hh), Hv, Hm. cbn [negb orb].
    rewrite bind_emit, (bind_run _ _ _ _ _ _ Hc).
    destruct (tag_items_grab _ _ Hti) as (c & ->).
    destruct (tag_list_display rt _ c _ _ Hn Hlim) as (sorted & Hd & _).
    rewrite (bind_step _ _ _ _ _ Hd), py_str_string_list, bind_lift_ok.
    rewrite (bind_step _ _ _ _ _ Hd), py_str_string_list, bind_lift_ok.
    rewrite String.eqb_refl. cbn. now rewrite app_nil_r.
Qed.

  (** An update that compiles to a list of another length stores it. *)
Lemma update_tags_changed hp h o items names tags remove new_items new_names hp1 lc dn ld :
    nth_error hp h = Some o ->
    model_has_list NBTagList (o_class o) = true ->
    is_none tags = false ->
    tag_items o = Some items ->
    Forall2 (named_tag hp) items names ->
    (3 <= recursion_limit rt)%nat ->
    compile_tags rt inv h tags remove hp = Ok (VObjList NBTagList new_items, hp1, lc) ->
    names_kept hp hp1 ->
    nth_error hp1 h = Some o ->
    Forall2 (named_tag hp1) new_items new_names ->
    List.length new_names <> List.length names ->
    get_display_name rt h None false hp = Ok (dn, hp, ld) ->
    exists l,
      update_tags rt inv h tags remove hp
      = Ok (tt,
            list_set h (append_updated "tags"
                          (store "tags" (VObjList NBTagList new_items) o)) hp1,
            l).
Proof.
    intros Hh Hm Hv Hti Hn Hlim Hc Hk Hh1 Hnn Hlen Hdn.
    set (o1 := append_updated "tags" (store "tags" (VObjList NBTagList new_items) o)).
    destruct (tag_items_grab _ _ Hti) as (c & Hg).
    pose proof (named_tags_kept _ _ _ _ Hk Hn) as Hn1.
    destruct (tag_list_display rt _ c _ _ Hn1 Hlim) as (s1 & Hd1 & Hl1).
    destruct (tag_list_display rt _ NBTagList _ _ Hnn Hlim) as (s2 & Hd2 & Hl2).
    assert (Hk2 : names_kept hp1 (list_set h o1 hp1)).
    { eapply names_kept_list_set; [exact Hh1 | apply same_names_store_tags]. }
    pose proof (display_names_kept rt _ _ _ _ _ _ _ (names_kept_trans _ _ _ Hk Hk2) Hdn)
      as Hdn2.
    fold (get_display_name rt h None false) in Hdn2.
    destruct (tag_list_display rt _ c _ _ (named_tags_kept _ _ _ _ Hk2 Hn1) Hlim)
      as (s3 & Hd3 & _).
    destruct (tag_list_display rt _ NBTagList _ _ (named_tags_kept _ _ _ _ Hk2 Hnn) Hlim)
      as (s4 & Hd4 & _).
    eexists. unfold update_tags.
    rewrite (bind_get_obj _ _ _ _ Hh), Hv, Hm. cbn [negb orb].
    rewrite bind_emit, (bind_run _ _ _ _ _ _ Hc), Hg.
    rewrite (bind_step _ _ _ _ _ Hd1), py_str_string_list, bind_lift_ok.
    rewrite (bind_step _ _ _ _ _ Hd2), py_str_string_list, bind_lift_ok.
    rewrite tag_texts_differ by congruence.
    rewrite (bind_step _ _ _ _ _ (modify_obj_ok h _ _ _ Hh1)). fold o1.
    rewrite (bind_run _ _ _ _ _ _ Hdn2).
    rewrite (bind_step _ _ _ _ _ Hd3), (bind_step _ _ _ _ _ Hd4).
    cbn. reflexivity.
Qed.

End TagUpdates.

(** ** C5: adding and removing a tag *)

(** C5, as the code has it.  Let the entity [h] have a tag list whose
    members are tags named [names], and let the name [a] be given as a
    string or as a list of that one string.
    - If [a] is among [names], [add_tags] returns, leaves the heap as it
      was (so the entity, its tag list and its [updated_items]) and writes
      two debug records only.
    - If [a] is not among [names], and the inventory hands out a tag named
      [a] for the data [{"name": a}] and finds that tag again by the same
      data, then [add_tags] puts the tag before the members, and
      [remove_tags] after it leaves exactly the former members: the tag
      names are [names] again, and ["tags"] has been appended to
      [updated_items] twice. *)
Theorem tag_add_then_remove (rt : Runtime) (inv : Inventory)
    (hp : Heap) (h : nat) (o : Obj) (items : list Value) (names : list string)
    (tags : Value) (a : string) :
  nth_error hp h = Some o ->
  model_has_list NBTagList (o_class o) = true ->
  tag_items o = Some items ->
  Forall2 (named_tag hp) items names ->
  (3 <= recursion_limit rt)%nat ->
  one_name tags a ->
  (In a names ->
   add_tags rt inv h tags hp
   = Ok (tt, hp, [mkLog LDebug2 (MTagsAction false tags); mkLog LDebug2 MCompilingTags]))
  /\ (~ In a names ->
      forall t created dn ld,
        get_display_name rt h None false hp = Ok (dn, hp, ld) ->
        add_update_object inv (Some NBTag) (tag_data (VStr a)) None hp = Ok (t, created) ->
        named_tag (hp ++ created)%list (VObj t) a ->
        let o1 := with_tags (VObj t :: items) o in
        let hp1 := list_set h o1 (hp ++ created)%list in
        let o2 := with_tags items o1 in
        let hp2 := list_set h o2 hp1 in
        get_by_data inv NBTag (tag_data (VStr a)) hp1 = Ok (Some t) ->
        (exists l1, add_tags rt inv h tags hp = Ok (tt, hp1, l1))
        /\ get_tags rt h hp1 = Ok (map VStr (a :: names), hp1, [])
        /\ (exists l2, remove_tags rt inv h tags hp1 = Ok (tt, hp2, l2))
        /\ get_tags rt h hp2 = Ok (map VStr names, hp2, [])
        /\ py_get "tags" (o_data o2) = VObjList NBTagList items
        /\ o_updated_items o2 = (o_updated_items o ++ ["tags"; "tags"])%list).
Proof.
  intros Hh Hm Hti Hn Hlim Ht. split.
  - intros Ha. unfold add_tags.
    eapply update_tags_same; try eassumption.
    + eapply one_name_is_value; eassumption.
    + eapply compile_tags_present; try eassumption. lia.
  - intros Ha t created dn ld Hdn Hadd Hnt o1 hp1 o2 hp2 Hget.
    assert (Hh' : nth_error (hp ++ created)%list h = Some o).
    { rewrite nth_error_app1; [exact Hh|]. apply nth_error_Some. congruence. }
    assert (Hk0 : names_kept hp (hp ++ created)%list) by apply names_kept_app.
    assert (Hk1 : names_kept (hp ++ created)%list hp1).
    { eapply names_kept_list_set; [exact Hh' | apply same_names_store_tags]. }
    assert (Hh1 : nth_error hp1 h = Some o1).
    { unfold hp1. eapply nth_error_list_set_same; exact Hh'. }
    assert (Hk2 : names_kept hp1 hp2).
    { eapply names_kept_list_set; [exact Hh1 | apply same_names_store_tags]. }
    assert (Hh2 : nth_error hp2 h = Some o2).
    { unfold hp2. eapply nth_error_list_set_same; exact Hh1. }
    assert (Hn0 : Forall2 (named_tag (hp ++ created)%list) (VObj t :: items) (a :: names)).
    { constructor; [exact Hnt | eapply named_tags_kept; eassumption]. }
    assert (Hn1 : Forall2 (named_tag hp1) (VObj t :: items) (a :: names)).
    { eapply named_tags_kept; eassumption. }
    assert (Hn2 : Forall2 (named_tag hp2) items names).
    { inversion Hn1; subst. eapply named_tags_kept; eassumption. }
    assert (Hni : ~ In (VObj t) items).
    { intros Hin. apply Ha.
      destruct Hnt as (t' & ot & Et & Hot & _ & Hname). inversion Et; subst t'.
      clear - Hn Hin Hk0 Hot Hname.
      induction Hn as [|x n items names Hx Hr IH]; [contradiction|].
      destruct Hin as [->|Hin]; [left | right; auto].
      apply (named_tag_kept _ _ _ _ Hk0) in Hx.
      destruct Hx as (t' & ot' & Et & Hot' & _ & Hname'). inversion Et; subst t'.
      congruence. }
    assert (Hd1 : dict_get "tags" (o_data o1) = Some (VObjList NBTagList (VObj t :: items))).
    { apply dict_get_dict_set_same. }
    assert (Hti1 : tag_items o1 = Some (VObj t :: items)).
    { unfold tag_items. now rewrite Hd1. }
    assert (Hti2 : tag_items o2 = Some items).
    { unfold tag_items, o2, with_tags, append_updated, store. cbn.
      now rewrite dict_get_dict_set_same. }
    assert (Hlim2 : (2 <= recursion_limit rt)%nat) by lia.
    assert (Hv : is_none tags = false) by (eapply one_name_is_value; eassumption).
    repeat split.
    + unfold add_tags.
      eapply update_tags_changed with (new_names := a :: names); try eassumption.
      * eapply compile_tags_absent; eassumption.
      * cbn [List.length]. lia.
    + eapply tag_items_get_tags; eassumption.
    + unfold remove_tags.
      eapply update_tags_changed with (new_names := names) (hp1 := hp1);
        try eassumption.
      * eapply compile_tags_remove; eassumption.
      * apply names_kept_refl.
      * inversion Hn1; subst; assumption.
      * cbn [List.length]. lia.
      * eapply (display_names_kept rt); [|exact Hdn].
        eapply names_kept_trans; eassumption.
    + eapply tag_items_get_tags; eassumption.
    + apply py_get_dict_set_same.
    + unfold o2, o1, with_tags, append_updated, store. cbn.
      now rewrite <- app_assoc.
Qed.

Lemma tag_add_then_remove_witness :
  add_tags sample_runtime sample_inventory 0 (VStr "a") tagged_heap
  = Ok (tt, tagged_heap,
        [mkLog LDebug2 (MTagsAction false (VStr "a")); mkLog LDebug2 MCompilingTags])
  /\ get_tags sample_runtime 0
       (list_set 0 (with_tags [VObj 1] (with_tags [VObj 2; VObj 1] tagged_tenant))
          (list_set 0 (with_tags [VObj 2; VObj 1] tagged_tenant)
             (tagged_heap ++ [with_data [("name", VStr "b")] (blank NBTag)])%list))
     = Ok ([VStr "a"],
           list_set 0 (with_tags [VObj 1] (with_tags [VObj 2; VObj 1] tagged_tenant))
             (list_set 0 (with_tags [VObj 2; VObj 1] tagged_tenant)
                (tagged_heap ++ [with_data [("name", VStr "b")] (blank NBTag)])%list),
           []).
Proof.
  assert (Hn : Forall2 (named_tag tagged_heap) [VObj 1] ["a"]).
  { repeat constructor. exists 1%nat, tag_a. repeat split; reflexivity. }
  assert (Hlim : (3 <= recursion_limit sample_runtime)%nat) by (cbn; lia).
  split.
  - apply (proj1 (tag_add_then_remove sample_runtime sample_inventory tagged_heap 0
                    tagged_tenant [VObj 1] ["a"] (VStr "a") "a"
                    eq_refl eq_refl eq_refl Hn Hlim (or_introl eq_refl))).
    left; reflexivity.
  - assert (Hb : ~ In "b" ["a"]) by (intros [H|[]]; discriminate H).
    assert (Ht : named_tag (tagged_heap ++ [with_data [("name", VStr "b")] (blank NBTag)])%list
                   (VObj 2) "b").
    { exists 2%nat, (with_data [("name", VStr "b")] (blank NBTag)).
      repeat split; reflexivity. }
    destruct (proj2 (tag_add_then_remove sample_runtime sample_inventory tagged_heap 0
                       tagged_tenant [VObj 1] ["a"] (VStr "b") "b"
                       eq_refl eq_refl eq_refl Hn Hlim (or_introl eq_refl))
                Hb 2%nat [with_data [("name", VStr "b")] (blank NBTag)]
                (VStr "t1") [] eq_refl eq_refl Ht eq_refl)
      as (_ & _ & _ & H & _).
    exact H.
Defined.

(** C5 does not hold for a name the entity has: adding it changes nothing,
    and removing it then takes the tag away, so the tags are not the
    original ones. *)
Lemma tag_add_then_remove_of_present_name :
  get_tags sample_runtime 0 tagged_heap = Ok ([VStr "a"], tagged_heap, [])
  /\ exists hp' l,
       (add_tags sample_runtime sample_inventory 0 (VStr "a") ;;;
        remove_tags sample_runtime sample_inventory 0 (VStr "a")) tagged_heap
       = Ok (tt, hp', l)
       /\ get_tags sample_runtime 0 hp' = Ok ([], hp', []).
Proof.
  split; [reflexivity|].
  exists [with_tags [] tagged_tenant; tag_a].
  eexists. split; [vm_compute; reflexivity | reflexivity].
Qed.

(** ** VLAN lists *)

Lemma py_in_handle (t : nat) (l : list Value) :
  py_in (VObj t) l = true <-> In (VObj t) l.
Proof.
  unfold py_in. rewrite existsb_exists. split.
  - intros (y & Hy & E). destruct y; try discriminate E.
    cbn in E. apply Nat.eqb_eq in E. now subst.
  - intros H. exists (VObj t). split; [exact H|]. cbn. apply Nat.eqb_refl.
Qed.



Section CompileVlans.
Context (rt : Runtime) (inv : Inventory).



End CompileVlans.

Lemma keeps_refl (P : Heap -> Prop) hp : keeps P hp hp.
Proof. intros H; exact H. Qed.

Lemma keeps_trans (P : Heap -> Prop) a b c : keeps P a b -> keeps P b c -> keeps P a c.
Proof. unfold keeps. auto. Qed.

Lemma respects_forM_in {B} (R : Heap -> list LogEntry -> Heap -> Prop)
    (R_refl : forall hp, R hp [] hp)
    (R_trans : forall a l1 b l2 c, R a l1 b -> R b l2 c -> R a (l1 ++ l2)%list c)
    (f : B -> M unit) (l : list B) :
  (forall b, In b l -> respects R (f b)) -> respects R (forM_ f l).
Proof.
  induction l as [|x r IH]; intros Hf; simpl.
  - apply respects_ret. exact R_refl.
  - apply respects_bind; [exact R_trans | apply Hf; now left |].
    intros _. apply IH. intros b Hb. apply Hf. now right.
Qed.

Lemma vlan_list_key (c : Class) (key : string) :
  model_get key (data_model c) = Some (TRefList NBVLANList) ->
  key = "tagged_vlans" /\ (c = NBInterface \/ c = NBVMInterface).
Proof.
  destruct c; cbn [data_model model_get choices];
    repeat match goal with
           | |- context [String.eqb key ?k] =>
               destruct (String.eqb_spec key k); [subst; try discriminate|]
           end; try discriminate; auto.
Qed.



Lemma dict_set_same k v d : dict_get k d = Some v -> dict_set k v d = d.
Proof.
  induction d as [|[k0 v0] r IH]; simpl; [discriminate|].
  destruct (String.eqb_spec k k0) as [->|Hk0].
  - intros E; inversion E; reflexivity.
  - intros E. now rewrite IH.
Qed.

Ltac keeps_auto P tac :=
  respects_auto (on_heap_refl (keeps P) (keeps_refl P))
                (on_heap_trans (keeps P) (keeps_trans P))
    ltac:(first [ apply (respects_emit_heap (keeps P) (keeps_refl P))
                | tac ]).

Section ResolveVlans.
Context (rt : Runtime) (inv : Inventory).



End ResolveVlans.



Section UpdateVlans.
Context (rt : Runtime) (inv : Inventory).



End UpdateVlans.

(** ** Entities whose relations are resolved *)

Lemma list_set_twice {A} (l : list A) n x y :
  list_set n y (list_set n x l) = list_set n y l.
Proof. revert n; induction l as [|a r IH]; intros [|n]; simpl; auto. now rewrite IH. Qed.

Lemma list_set_same {A} (l : list A) n x : nth_error l n = Some x -> list_set n x l = l.
Proof.
  revert n; induction l as [|a r IH]; intros [|n]; simpl; try discriminate.
  - intros E; inversion E; reflexivity.
  - intros E. now rewrite IH.
Qed.

Lemma store_same k v o : py_get k (o_data o) = v -> is_none v = false -> store k v o = o.
Proof.
  intros Hv Hn. unfold store, set_data. unfold py_get in Hv.
  destruct (dict_get k (o_data o)) as [v'|] eqn:Hd; [|subst; discriminate].
  subst v'. rewrite (dict_set_same _ _ _ Hd). destruct o; reflexivity.
Qed.

Lemma forM_pure {B} (f : B -> M unit) (l : list B) hp :
  (forall b, In b l -> f b hp = Ok (tt, hp, [])) -> forM_ f l hp = Ok (tt, hp, []).
Proof.
  induction l as [|x r IH]; intros H; [reflexivity|].
  cbn [forM_]. rewrite (bind_step _ _ _ _ _ (H x (or_introl eq_refl))).
  apply IH. intros b Hb. apply H. now right.
Qed.

Lemma is_handle_inv hp c x :
  is_handle hp c x = true ->
  exists t ot, x = VObj t /\ nth_error hp t = Some ot /\ o_class ot = c.
Proof.
  destruct x; try discriminate. cbn.
  destruct (nth_error hp h) as [ot|] eqn:E; [|discriminate].
  intros Hc. exists h, ot. repeat split; auto.
  unfold class_eqb in Hc. destruct (Class_eq_dec (o_class ot) c); [assumption|discriminate].
Qed.

Section Resolved.
Context (rt : Runtime) (inv : Inventory).

  (** Resolving the relations of a resolved entity changes nothing. *)
Lemma base_resolve_relations_resolved hp h o :
    nth_error hp h = Some o ->
    is_resolved hp o = true ->
    base_resolve_relations rt inv h hp = Ok (tt, hp, []).
Proof.
    intros Hh Hr. unfold base_resolve_relations.
    rewrite (bind_get_obj _ _ _ _ Hh). apply forM_pure.
    intros [k ty] Hin. cbv beta iota.
    unfold is_resolved in Hr. rewrite forallb_forall in Hr.
    specialize (Hr _ Hin). cbn [fst snd] in Hr.
    rewrite (bind_get_obj _ _ _ _ Hh).
    destruct (is_none (py_get k (o_data o))) eqn:Hn; [reflexivity|].
    cbn [orb] in Hr.
    destruct (if PyStr.startswith "primary_ip" k then TRef NBIPAddress else ty)
      as [n| | | | | |c|lc|chs]; try reflexivity.
    - cbn [is_resolved_value] in Hr.
      destruct (py_get k (o_data o)) eqn:Hv; try discriminate Hr.
      rewrite (modify_obj_ok _ _ _ _ Hh).
      rewrite (store_same _ _ _ Hv eq_refl), (list_set_same _ _ _ Hh). reflexivity.
    - cbn [is_resolved_value] in Hr.
      destruct (py_get k (o_data o)) as [| | | | | | | | |lc' items] eqn:Hv;
        try discriminate Hr.
      apply andb_true_iff in Hr as (Hlc & Hi).
      assert (lc' = lc) by (destruct lc, lc'; try discriminate; reflexivity). subst lc'.
      cbn [py_iter]. rewrite bind_lift_ok.
      match goal with
      | |- context [foldM ?g items []] =>
          assert (Hf : forall acc, foldM g items acc hp = Ok ((acc ++ items)%list, hp, []))
      end.
      { clear Hv Hn. rewrite forallb_forall in Hi.
        induction items as [|y r IH]; intros acc.
        - cbn [foldM]. now rewrite app_nil_r.
        - cbn [foldM].
          destruct (is_handle_inv _ _ _ (Hi y (or_introl eq_refl)))
            as (t & ot & -> & Ht & Hct).
          rewrite !bind_assoc, (bind_get_obj _ _ _ _ Ht), bind_ret, Hct.
          assert (Ec : class_eqb (member_type lc) (member_type lc) = true).
          { unfold class_eqb. destruct (Class_eq_dec _ _); congruence. }
          rewrite Ec, bind_ret, IH, <- app_assoc; [reflexivity|].
          intros z Hz. apply Hi. now right. }
      rewrite (bind_step _ _ _ _ _ (Hf [])). cbn [app].
      rewrite (modify_obj_ok _ _ _ _ Hh).
      rewrite (store_same _ _ _ Hv eq_refl), (list_set_same _ _ _ Hh). reflexivity.
Qed.

End Resolved.

(** ** Lists of entities with names *)





Lemma vlans_is_no_name_key (c : Class) :
  model_get "tagged_vlans" (data_model c) = Some (TRefList NBVLANList) ->
  primary_key c <> "tagged_vlans" /\ secondary_key c <> Some "tagged_vlans".
Proof.
  intros Hm. destruct (vlan_list_key _ _ Hm) as (_ & [->| ->]); split; cbn; congruence.
Qed.

Lemma same_names_store_vlans (o : Obj) (v : Value) :
  model_get "tagged_vlans" (data_model (o_class o)) = Some (TRefList NBVLANList) ->
  same_names o (append_updated "tagged_vlans" (store "tagged_vlans" v o)).
Proof.
  intros Hm. destruct (vlans_is_no_name_key _ Hm) as (Hp & Hs).
  unfold same_names, append_updated, store; cbn. repeat split.
  - apply py_get_dict_set_other. exact Hp.
  - intros sk Hsk. apply py_get_dict_set_other. congruence.
  - apply py_get_dict_set_other. congruence.
Qed.

Section ShownAs.
Context (rt : Runtime).



  (** The display name of a list of members: the sorted names. *)
Lemma list_display hp lc items names :
    Forall2 (shown_as rt hp) items names ->
    (1 <= recursion_limit rt)%nat ->
    exists sorted,
      call_get_display_name rt (VObjList lc items) hp
      = Ok (VList (map VStr sorted), hp, [])
      /\ List.length sorted = List.length names.
Proof.
    intros Hn Hlim. unfold call_get_display_name.
    destruct (recursion_limit rt) as [|f] eqn:Hf; [lia|].
    rewrite display_S. cbv iota.
    assert (Hm : mapM (fun y => display rt f (OfValue y)) items hp
                 = Ok (map VStr names, hp, [])).
    { unfold shown_as in Hn. rewrite Hf in Hn. cbn [pred] in Hn.
      induction Hn as [|x n items names Hx Hr IH]; [reflexivity|].
      cbn [mapM map]. rewrite (bind_step _ _ _ _ _ Hx), (bind_step _ _ _ _ _ IH).
      reflexivity. }
    rewrite (bind_step _ _ _ _ _ Hm).
    destruct (py_sorted_strings names) as (sorted & Hs & Hl).
    rewrite Hs, bind_lift_ok. exists sorted. split; [reflexivity | exact Hl].
Qed.

End ShownAs.

(** ** The order of [sorted] on strings *)

Lemma code_inj (c d : ascii) : PyStr.code c = PyStr.code d -> c = d.
Proof.
  unfold PyStr.code. intros H.
  rewrite <- (ascii_N_embedding c), <- (ascii_N_embedding d). now rewrite H.
Qed.

Lemma ltb_irrefl (s : string) : PyStr.ltb s s = false.
Proof.
  induction s as [|c s IH]; cbn [PyStr.ltb]; [reflexivity|].
  now rewrite N.ltb_irrefl.
Qed.

Lemma ltb_trans (a : string) : forall b c,
  PyStr.ltb a b = true -> PyStr.ltb b c = true -> PyStr.ltb a c = true.
Proof.
  induction a as [|x a IH]; intros [|y b] [|z c]; cbn [PyStr.ltb];
    try discriminate; try reflexivity.
  destruct (N.ltb_spec (PyStr.code x) (PyStr.code y)),
           (N.ltb_spec (PyStr.code y) (PyStr.code x)),
           (N.ltb_spec (PyStr.code y) (PyStr.code z)),
           (N.ltb_spec (PyStr.code z) (PyStr.code y)),
           (N.ltb_spec (PyStr.code x) (PyStr.code z)),
           (N.ltb_spec (PyStr.code z) (PyStr.code x));
    try discriminate; try reflexivity; try lia.
  apply IH.
Qed.

Lemma ltb_connex (a : string) : forall b,
  PyStr.ltb a b = false -> PyStr.ltb b a = false -> a = b.
Proof.
  induction a as [|x a IH]; intros [|y b]; cbn [PyStr.ltb];
    try discriminate; try reflexivity.
  destruct (N.ltb_spec (PyStr.code x) (PyStr.code y)),
           (N.ltb_spec (PyStr.code y) (PyStr.code x));
    try discriminate.
  intros H1 H2. rewrite (IH _ H1 H2).
  assert (x = y) as -> by (apply code_inj; lia). reflexivity.
Qed.

Lemma in_order_trans (a b c : string) : in_order a b -> in_order b c -> in_order a c.
Proof.
  unfold in_order. intros Hab Hbc.
  destruct (PyStr.ltb c a) eqn:Hca; [|reflexivity].
  destruct (PyStr.ltb b c) eqn:Hb.
  - rewrite (ltb_trans _ _ _ Hb Hca) in Hab. discriminate.
  - rewrite (ltb_connex _ _ Hb Hbc) in Hab. congruence.
Qed.

Lemma in_order_of_ltb (a b : string) : PyStr.ltb a b = true -> in_order a b.
Proof.
  unfold in_order. intros H. destruct (PyStr.ltb b a) eqn:Hba; [|reflexivity].
  pose proof (ltb_trans _ _ _ H Hba) as Hc. now rewrite ltb_irrefl in Hc.
Qed.

Lemma insert_sorted_in_order (x : string) (l : list string) :
  exists l', insert_sorted (VStr x) (map VStr l) = map VStr l'
             /\ Permutation l' (x :: l)
             /\ (StronglySorted in_order l -> StronglySorted in_order l').
Proof.
  induction l as [|y r (r' & Hr & Hp & Hs)]; cbn [map insert_sorted].
  - exists [x]. repeat split; auto. intros _. repeat constructor.
  - cbn [py_lt]. destruct (PyStr.ltb x y) eqn:Hxy.
    + exists (x :: y :: r). repeat split; auto.
      intros Hyr. constructor; [exact Hyr|].
      apply in_order_of_ltb in Hxy. constructor; [exact Hxy|].
      apply StronglySorted_inv in Hyr as (_ & Hy).
      eapply Forall_impl; [|exact Hy]. intros z Hz.
      eapply in_order_trans; eassumption.
    + rewrite Hr. exists (y :: r'). split; [reflexivity|]. split.
      * rewrite Hp. apply perm_swap.
      * intros Hyr. apply StronglySorted_inv in Hyr as (Hsr & Hy).
        constructor; [auto|].
        apply Forall_forall. intros z Hz.
        apply (Permutation_in _ Hp) in Hz. destruct Hz as [<-|Hz]; [exact Hxy|].
        rewrite Forall_forall in Hy. auto.
Qed.

Lemma stable_sort_in_order (l : list string) :
  exists l', stable_sort (map VStr l) = map VStr l'
             /\ Permutation l' l /\ StronglySorted in_order l'.
Proof.
  unfold stable_sort.
  assert (H : forall k acc, StronglySorted in_order acc ->
               exists l',
                 fold_left (fun acc x => insert_sorted x acc) (map VStr k) (map VStr acc)
                 = map VStr l'
                 /\ Permutation l' (k ++ acc) /\ StronglySorted in_order l').
  { induction k as [|x r IH]; intros acc Ha; cbn [map fold_left].
    - exists acc. repeat split; auto.
    - destruct (insert_sorted_in_order x acc) as (acc' & He & Hp & Hs). rewrite He.
      destruct (IH acc' (Hs Ha)) as (l' & Hf & Hp' & Hs'). exists l'.
      split; [exact Hf|]. split; [|exact Hs'].
      rewrite Hp', Hp. cbn [app]. symmetry. apply Permutation_middle. }
  destruct (H l [] (SSorted_nil _)) as (l' & Hf & Hp & Hs).
  exists l'. split; [exact Hf|]. split; [|exact Hs].
  now rewrite Hp, app_nil_r.
Qed.

Lemma py_sorted_in_order (l : list string) :
  exists l', py_sorted (map VStr l) = Ok (map VStr l')
             /\ Permutation l' l /\ StronglySorted in_order l'.
Proof.
  destruct l as [|x [|y r]].
  - exists []. repeat split; auto. constructor.
  - exists [x]. repeat split; auto. repeat constructor.
  - unfold py_sorted. cbn [map].
    assert (Hk : forallb (is_kind KStr) (VStr x :: VStr y :: map VStr r) = true).
    { cbn [forallb is_kind sort_kind andb]. induction r; [reflexivity|]. exact IHr. }
    rewrite Hk. cbn [orb].
    destruct (stable_sort_in_order (x :: y :: r)) as (l' & Hs & Hp & Ho).
    exists l'. cbn [map] in Hs. rewrite Hs. auto.
Qed.

Lemma in_order_unique (l1 : list string) : forall l2,
  StronglySorted in_order l1 -> StronglySorted in_order l2 ->
  Permutation l1 l2 -> l1 = l2.
Proof.
  induction l1 as [|a l1 IH]; intros [|b l2] H1 H2 Hp.
  - reflexivity.
  - apply Permutation_nil in Hp. discriminate.
  - symmetry in Hp. apply Permutation_nil in Hp. discriminate.
  - apply StronglySorted_inv in H1 as (H1 & Ha).
    apply StronglySorted_inv in H2 as (H2 & Hb).
    rewrite Forall_forall in Ha, Hb.
    assert (a = b) as ->.
    { assert (Hab : In a (b :: l2)) by (apply (Permutation_in _ Hp); now left).
      assert (Hba : In b (a :: l1)).
      { symmetry in Hp. apply (Permutation_in _ Hp). now left. }
      destruct Hab as [->|Hab]; [reflexivity|].
      destruct Hba as [->|Hba]; [reflexivity|].
      apply ltb_connex; [apply Hb, Hab | apply Ha, Hba]. }
    f_equal. apply IH; auto. eapply Permutation_cons_inv; exact Hp.
Qed.

Lemma Forall2_Permutation {A B} (R : A -> B -> Prop) (l l' : list A) :
  Permutation l l' ->
  forall m, Forall2 R l m -> exists m', Forall2 R l' m' /\ Permutation m m'.
Proof.
  induction 1 as [|x l l' Hp IH|x y l|l l' l'' _ IH1 _ IH2]; intros m Hm.
  - inversion Hm; subst. exists []. split; constructor.
  - inversion Hm as [|? n ? m0 Hx Hr]; subst.
    destruct (IH _ Hr) as (m0' & Hf & Hq).
    exists (n :: m0'). split; [constructor; assumption | now constructor].
  - inversion Hm as [|? n1 ? m1 Hy Hr]; subst.
    inversion Hr as [|? n2 ? m2 Hx Hr']; subst.
    exists (n2 :: n1 :: m2). split; [repeat constructor; assumption | apply perm_swap].
  - destruct (IH1 _ Hm) as (m1 & Hf1 & Hq1).
    destruct (IH2 _ Hf1) as (m2 & Hf2 & Hq2).
    exists m2. split; [exact Hf2 | now rewrite Hq1].
Qed.

Section ListDisplaySorted.
Context (rt : Runtime).

Lemma list_display_sorted hp lc items names sorted :
    Forall2 (shown_as rt hp) items names ->
    (1 <= recursion_limit rt)%nat ->
    py_sorted (map VStr names) = Ok (map VStr sorted) ->
    call_get_display_name rt (VObjList lc items) hp = Ok (VList (map VStr sorted), hp, []).
Proof.
    intros Hn Hlim Hs. unfold call_get_display_name.
    destruct (recursion_limit rt) as [|f] eqn:Hf; [lia|].
    rewrite display_S. cbv iota.
    assert (Hm : mapM (fun y => display rt f (OfValue y)) items hp
                 = Ok (map VStr names, hp, [])).
    { clear Hs. unfold shown_as in Hn. rewrite Hf in Hn. cbn [pred] in Hn.
      induction Hn as [|x n items names Hx Hr IH]; [reflexivity|].
      cbn [mapM map]. rewrite (bind_step _ _ _ _ _ Hx), (bind_step _ _ _ _ _ IH).
      reflexivity. }
    rewrite (bind_step _ _ _ _ _ Hm). rewrite Hs, bind_lift_ok. reflexivity.
Qed.

End ListDisplaySorted.


Section StoreVlans.
Context (rt : Runtime) (inv : Inventory).



End StoreVlans.





Section TextsKept.
Context (rt : Runtime).



End TextsKept.

Section UpdateVlanList.
Context (rt : Runtime) (inv : Inventory).




End UpdateVlanList.

(** ** C4: the VLAN list of an entity is replaced *)




(** The scenario of C4: an interface without VLANs is given the VLANs 10 and
    20, and then the VLAN 20 alone, which is then its one member. *)
Example vlans_10_20_then_20 :
  exists hp' lg o',
    (update sample_runtime sample_inventory 0
       (VDict [("tagged_vlans", VList [VObj 1; VObj 2])]) false None ;;;
     update sample_runtime sample_inventory 0
       (VDict [("tagged_vlans", VList [VObj 2])]) false None)
      [with_data [("name", VStr "eth0")] (blank NBInterface); vlan_10; vlan_20]
    = Ok (VDict [("tagged_vlans", VList [VObj 2])], hp', lg)
    /\ nth_error hp' 0 = Some o'
    /\ py_get "tagged_vlans" (o_data o') = VObjList NBVLANList [VObj 2].
Proof.
  do 3 eexists. split; [vm_compute; reflexivity|]. split; reflexivity.
Qed.

(** ** Values that are no entities *)



Section Plain.
Context (rt : Runtime) (inv : Inventory).






End Plain.

(** ** Attributes that hold no entities *)







Section StoreOnce.
Context (rt : Runtime) (inv : Inventory).





End StoreOnce.

(** ** Checking the values of plain keys *)







Section ParsePlain.
Context (rt : Runtime) (inv : Inventory).


End ParsePlain.




Section ParseAgain.
Context (rt : Runtime) (inv : Inventory).





End ParseAgain.

(** ** Updates of classes without an [update] of their own *)









Section Names.
Context (rt : Runtime).



End Names.

Lemma id_ok hp h o (d : Dict) :
  nth_error hp h = Some o ->
  (if negb (is_none (py_get "id" d))
   then modify_obj h (set_nb_id (py_get "id" d))
   else ret tt) hp = Ok (tt, list_set h (with_id d o) hp, []).
Proof.
  intros Hh. unfold with_id. destruct (negb (is_none (py_get "id" d))).
  - now apply modify_obj_ok.
  - now rewrite (list_set_same _ _ _ Hh).
Qed.


Section Twice.
Context (rt : Runtime) (inv : Inventory).


End Twice.

(** ** C1: applying the same data twice *)




(** ** More on the slug formatter *)

Lemma take_take (n m : nat) (s : string) :
  (n <= m)%nat -> PyStr.take n (PyStr.take m s) = PyStr.take n s.
Proof.
  revert m s. induction n as [|n IH]; intros [|m] [|c r] H; simpl; try reflexivity; try lia.
  f_equal. apply IH. lia.
Qed.

Lemma take_shorter (k : nat) (s : string) :
  (String.length (PyStr.take k s) <= String.length s)%nat.
Proof.
  revert s. induction k as [|k IH]; intros [|a r]; simpl; try lia. specialize (IH r). lia.
Qed.

Lemma filter_chars_length (p : ascii -> bool) (s : string) :
  (String.length (PyStr.filter_chars p s) <= String.length s)%nat.
Proof. induction s as [|c r IH]; simpl; [lia|]. destruct (p c); simpl; lia. Qed.

Lemma map_chars_length (f : ascii -> ascii) (s : string) :
  String.length (PyStr.map_chars f s) = String.length s.
Proof. induction s as [|c r IH]; simpl; congruence. Qed.

Lemma replace_separators_length (s : string) :
  String.length (replace_separators s) = String.length s.
Proof.
  unfold replace_separators. simpl. unfold PyStr.replace_char.
  now rewrite !map_chars_length.
Qed.

(** X1.  The slug for a smaller maximum length is the beginning of the slug
    for a larger one: for a non-empty text and bounds [0 <= n <= m],
    [format_slug(x, n)] is [format_slug(x, m)[0:n]], and no slug is longer
    than its text. *)
Theorem format_slug_of_smaller_bound (x : string) (n m : Z) :
  x <> "" -> (0 <= n <= m)%Z ->
  exists r,
    format_slug (VStr x) m = Ok r
    /\ format_slug (VStr x) n = Ok (PyStr.take (Z.to_nat n) r)
    /\ (String.length r <= String.length x)%nat.
Proof.
  intros Hx (Hn & Hm). unfold format_slug.
  destruct x as [|c s]; [contradiction|]. cbn [String.length Nat.eqb].
  set (t := PyStr.filter_chars permitted (PyStr.lower (replace_separators (String c s)))).
  exists (PyStr.slice0 t m).
  rewrite !SlugFacts.slice0_nonneg by lia.
  split; [reflexivity|]. split.
  - rewrite take_take by lia. reflexivity.
  - pose proof (SlugFacts.take_length (Z.to_nat m) t).
    assert (String.length (PyStr.take (Z.to_nat m) t) <= String.length t)%nat
      by apply take_shorter.
    assert (String.length t <= String.length (String c s))%nat.
    { unfold t. etransitivity; [apply filter_chars_length|].
      unfold PyStr.lower. rewrite map_chars_length, replace_separators_length. lia. }
    cbn [String.length] in *. lia.
Qed.

Lemma format_slug_of_smaller_bound_witness :
  exists r,
    format_slug (VStr "Data Center, North.1") 50 = Ok r
    /\ format_slug (VStr "Data Center, North.1") 4 = Ok (PyStr.take (Z.to_nat 4) r)
    /\ (String.length r <= String.length "Data Center, North.1")%nat.
Proof.
  apply (format_slug_of_smaller_bound "Data Center, North.1" 4 50); [discriminate | lia].
Defined.

(** ** The dependencies of the classes *)

Lemma dependencies_declared_before (c d : Class) :
  depends_on c d -> (declared_at d < declared_at c)%nat.
Proof.
  unfold depends_on.
  destruct c; cbn; intros H;
    repeat (destruct H as [H|H]; [subst d; cbn; lia|]); contradiction.
Qed.

(** X2.  The dependencies of the classes have no cycle: no class depends on
    itself, directly or through other classes, so the classes can be
    handled in an order in which every class comes after the classes of its
    relations (the order of their declaration is one). *)
Theorem dependencies_have_no_cycle (c : Class) :
  ~ Relation_Operators.clos_trans Class depends_on c c.
Proof.
  assert (H : forall a b, Relation_Operators.clos_trans Class depends_on a b ->
                          (declared_at b < declared_at a)%nat).
  { induction 1 as [a b Hd|a b c' _ IH1 _ IH2].
    - now apply dependencies_declared_before.
    - lia. }
  intros Hc. apply H in Hc. lia.
Qed.

(** ** The references of lists *)

Lemma list_nb_reference_ok (entry : Value -> Obj -> M Value) (hp : Heap)
    (items : list Value) (found : list (Obj * Value)) :
  Forall2 (fun x ov => exists t, x = VObj t /\ nth_error hp t = Some (fst ov)
                                 /\ entry x (fst ov) hp = Ok (snd ov, hp, []))
          items found ->
  forall acc,
    list_nb_reference entry items acc hp
    = Ok (if existsb has_no_id (map fst found) then VNone
          else VList (acc ++ map snd found)%list, hp, []).
Proof.
  induction 1 as [|x [o v] items found (t & -> & Ht & He) Hr IH]; intros acc.
  - cbn. now rewrite app_nil_r.
  - cbn [fst snd] in Ht, He.
    cbn [list_nb_reference existsb map fst snd]. rewrite (bind_get_obj _ _ _ _ Ht).
    unfold has_no_id at 1. destruct (py_eq (o_nb_id o) (VInt 0)); [reflexivity|].
    cbn [orb]. rewrite (bind_step _ _ _ _ _ He), IH, <- app_assoc.
    reflexivity.
Qed.

Lemma map_fst_combine {A B} (l : list A) (m : list B) :
  List.length l = List.length m -> map fst (combine l m) = l.
Proof.
  revert m. induction l as [|a r IH]; intros [|b ms] H; cbn in *; try discriminate;
    [reflexivity|]. f_equal. apply IH. lia.
Qed.

Lemma map_snd_combine {A B} (l : list A) (m : list B) :
  List.length l = List.length m -> map snd (combine l m) = m.
Proof.
  revert m. induction l as [|a r IH]; intros [|b ms] H; cbn in *; try discriminate;
    [reflexivity|]. f_equal. apply IH. lia.
Qed.

(** X3.  The reference of a list of VLANs is None exactly when one of its
    members has the id 0, and else the list of the ids of the members in
    their order, the empty list for a list without members; nothing is
    changed or logged. *)
Theorem vlan_list_reference (hp : Heap) (items : list Value) (objs : list Obj) :
  entities_at hp items objs ->
  vlan_list_get_nb_reference items hp
  = Ok (if existsb has_no_id objs then VNone else VList (map o_nb_id objs), hp, []).
Proof.
  intros H. unfold vlan_list_get_nb_reference.
  rewrite (list_nb_reference_ok _ hp items (map (fun o => (o, o_nb_id o)) objs)).
  - rewrite !map_map. cbn [fst snd app]. now rewrite map_id.
  - induction H as [|x o items objs (t & -> & Ht) Hr IH]; constructor; auto.
    exists t. cbn [fst snd]. auto.
Qed.

Lemma vlan_list_reference_witness :
  vlan_list_get_nb_reference [VObj 1; VObj 2]
    [blank NBInterface; set_nb_id (VInt 7) vlan_10; set_nb_id (VInt 9) vlan_20]
  = Ok (VList [VInt 7; VInt 9],
        [blank NBInterface; set_nb_id (VInt 7) vlan_10; set_nb_id (VInt 9) vlan_20], []).
Proof.
  apply (vlan_list_reference _ [VObj 1; VObj 2]
           [set_nb_id (VInt 7) vlan_10; set_nb_id (VInt 9) vlan_20]).
  repeat constructor; eexists; split; reflexivity.
Defined.

(** X4.  The reference of a list of tags is None exactly when one of its
    members has the id 0, and else the list of the mappings
    [{"name": <name of the tag>}] of the members in their order; nothing is
    changed or logged. *)
Theorem tag_list_reference (rt : Runtime) (hp : Heap) (items : list Value)
    (objs : list Obj) (names : list string) :
  entities_at hp items objs ->
  Forall2 (named_tag hp) items names ->
  (2 <= recursion_limit rt)%nat ->
  tag_list_get_nb_reference rt items hp
  = Ok (if existsb has_no_id objs then VNone
        else VList (map (fun n => VDict [("name", VStr n)]) names), hp, []).
Proof.
  intros Ho Hn Hlim. unfold tag_list_get_nb_reference.
  rewrite (list_nb_reference_ok _ hp items
             (combine objs (map (fun n => VDict [("name", VStr n)]) names))).
  - assert (Hl : List.length objs = List.length names).
    { apply Forall2_length in Ho. apply Forall2_length in Hn. congruence. }
    cbn [app]. rewrite map_fst_combine, map_snd_combine; [reflexivity| |];
      rewrite length_map; auto.
  - clear - Ho Hn Hlim. revert names Hn.
    induction Ho as [|x o items objs (t & -> & Ht) Hr IH]; intros names Hn.
    + inversion Hn; subst. constructor.
    + inversion Hn as [|? n ? ns Hx Hns]; subst. cbn [map combine].
      constructor; [|apply IH; exact Hns].
      exists t. cbn [fst snd]. split; [reflexivity|]. split; [exact Ht|].
      unfold call_get_display_name.
      destruct (recursion_limit rt) as [|[|f]]; try lia.
      rewrite (bind_step _ _ _ _ _ (named_tag_display rt _ _ _ f Hx)). reflexivity.
Qed.

Lemma tag_list_reference_witness :
  tag_list_get_nb_reference sample_runtime [VObj 1]
    [tagged_tenant; set_nb_id (VInt 3) tag_a]
  = Ok (VList [VDict [("name", VStr "a")]],
        [tagged_tenant; set_nb_id (VInt 3) tag_a], []).
Proof.
  apply (tag_list_reference sample_runtime _ [VObj 1] [set_nb_id (VInt 3) tag_a] ["a"]).
  - repeat constructor. eexists. split; reflexivity.
  - repeat constructor. exists 1%nat, (set_nb_id (VInt 3) tag_a). repeat split; reflexivity.
  - cbn. lia.
Defined.

(** ** Updates without data, and with the data of NetBox *)

Section UpdateEdges.
Context (rt : Runtime) (inv : Inventory).

  (** X5.  [update] with data that are no mapping: None is accepted and
      changes nothing for the classes that use [NetBoxObject.update] as it
      is, and other data raise [AttributeError] there.  A prefix and an IP
      address raise [AttributeError] for None too, since they read the data
      first; a VLAN that has a name raises [TypeError] when the data do not
      come from NetBox, since it writes its name into the data first. *)
Theorem update_with_no_mapping hp h o (data : Value) read_from_netbox source :
    nth_error hp h = Some o ->
    (forall d, data <> VDict d) ->
    update rt inv h data read_from_netbox source hp
    = match o_class o with
      | NBVLAN =>
          if negb read_from_netbox && negb (is_none (py_get "name" (o_data o)))
          then Raise TypeError
          else if is_none data then Ok (VNone, hp, []) else Raise AttributeError
      | NBPrefix | NBIPAddress => Raise AttributeError
      | _ => if is_none data then Ok (VNone, hp, []) else Raise AttributeError
      end.
Proof.
    intros Hh Hd. unfold update. rewrite (bind_get_obj _ _ _ _ Hh).
    assert (Hb : forall hp',
               (base_update rt inv h data read_from_netbox source ;;; ret data) hp'
               = if is_none data then Ok (VNone, hp', []) else Raise AttributeError).
    { intros hp'. destruct data; try reflexivity. exfalso. eapply Hd. reflexivity. }
    destruct (o_class o) eqn:Hc; try apply Hb.
    - unfold vlan_update. rewrite (bind_get_obj _ _ _ _ Hh).
      assert (Hg : is_none (grab_data "name" VNone o) = is_none (py_get "name" (o_data o))).
      { unfold grab_data. destruct (py_get "name" (o_data o)); reflexivity. }
      rewrite Hg.
      destruct (negb read_from_netbox && negb (is_none (py_get "name" (o_data o)))).
      + destruct data; try reflexivity. exfalso. eapply Hd. reflexivity.
      + rewrite bind_ret. apply Hb.
    - unfold prefix_update. rewrite (bind_get_obj _ _ _ _ Hh).
      destruct data; try reflexivity. exfalso. eapply Hd. reflexivity.
    - unfold ip_update.
      destruct data; try reflexivity. exfalso. eapply Hd. reflexivity.
Qed.

  (** The entity after it took the data of NetBox. *)
Lemma base_update_from_netbox hp h o (d : Dict) source :
    nth_error hp h = Some o ->
    base_update rt inv h (VDict d) true source hp
    = Ok (tt, list_set h (from_netbox d o) hp, []).
Proof.
    intros Hh. unfold base_update.
    rewrite (bind_step _ _ _ _ _ (id_ok _ _ _ d Hh)).
    assert (Hh0 : nth_error (list_set h (with_id d o) hp) h = Some (with_id d o)).
    { eapply nth_error_list_set_same; exact Hh. }
    rewrite (modify_obj_ok _ _ _ _ Hh0), list_set_twice.
    unfold from_netbox, with_id.
    destruct (negb (is_none (py_get "id" d))) eqn:Hi.
    - apply negb_true_iff in Hi. rewrite Hi. reflexivity.
    - apply negb_false_iff in Hi. rewrite Hi. reflexivity.
Qed.


Lemma update_reads_netbox_data hp h o (d : Dict) source :
    nth_error hp h = Some o ->
    (o_class o = NBPrefix ->
     match py_get "prefix" d with VNone | VNet _ _ => True | _ => False end) ->
    update rt inv h (VDict d) true source hp
    = Ok (VDict d, list_set h (from_netbox d o) hp, []).
Proof.
    intros Hh Hp. unfold update. rewrite (bind_get_obj _ _ _ _ Hh).
    assert (Hb : (base_update rt inv h (VDict d) true source ;;; ret (VDict d)) hp
                 = Ok (VDict d, list_set h (from_netbox d o) hp, [])).
    { rewrite (bind_step _ _ _ _ _ (base_update_from_netbox _ _ _ d source Hh)).
      reflexivity. }
    assert (Hh' : nth_error (list_set h (from_netbox d o) hp) h = Some (from_netbox d o)).
    { eapply nth_error_list_set_same; exact Hh. }
    destruct (o_class o) eqn:Hc; try exact Hb.
    - unfold vlan_update. rewrite (bind_get_obj _ _ _ _ Hh). cbn [negb andb].
      rewrite bind_ret. exact Hb.
    - unfold prefix_update. rewrite (bind_get_obj _ _ _ _ Hh), Hc.
      cbn [data_get primary_key]. rewrite bind_lift_ok.
      specialize (Hp eq_refl).
      destruct (py_get "prefix" d); try contradiction;
        rewrite bind_ret;
        rewrite (bind_step _ _ _ _ _ (base_update_from_netbox _ _ _ d source Hh));
        reflexivity.
    - unfold ip_update. cbn [data_get]. rewrite !bind_lift_ok. cbn [negb andb].
      rewrite bind_ret.
      rewrite (bind_step _ _ _ _ _ (base_update_from_netbox _ _ _ d source Hh)).
      rewrite (bind_get_obj _ _ _ _ Hh'). reflexivity.
Qed.

  (** X6.  [update] with data that come from NetBox takes them as they are:
      the entity holds exactly these data, is no longer new, has no updated
      and no unset keys, and has the id of the data when they carry one.
      Its source is left as it is, nothing is checked against the data
      model, no relation is resolved and nothing is logged.  (A prefix whose
      data hold the prefix as a string is parsed first.) *)
Theorem update_from_netbox hp h o (d : Dict) source :
    nth_error hp h = Some o ->
    (o_class o = NBPrefix ->
     match py_get "prefix" d with VNone | VNet _ _ => True | _ => False end) ->
    update rt inv h (VDict d) true source hp
    = Ok (VDict d, list_set h (from_netbox d o) hp, []).
Proof. apply update_reads_netbox_data. Qed.


  (** X7.  With data that do not come from NetBox, [update] of a prefix
      returns only when the prefix of the data did not parse: then nothing
      has changed, the data are as they came, and the one record logged is
      the error about the prefix.  (In every other case it raises.) *)
Theorem prefix_update_returns_unchanged hp h o (data : Value) source r hp' l :
    nth_error hp h = Some o ->
    o_class o = NBPrefix ->
    update rt inv h data false source hp = Ok (r, hp', l) ->
    hp' = hp /\ r = data
    /\ exists d, data = VDict d
                 /\ ip_network rt (py_get "prefix" d) = None
                 /\ l = [mkLog LError (MPrefixParse NBPrefix (py_get "prefix" d))].
Proof.
    intros Hh Hc E. unfold update in E. rewrite (bind_get_obj _ _ _ _ Hh), Hc in E.
    unfold prefix_update in E. rewrite (bind_get_obj _ _ _ _ Hh), Hc in E.
    destruct data as [| | | | | | |d| |]; try discriminate E.
    cbn [data_get primary_key] in E. rewrite bind_lift_ok in E.
    assert (Hraise : forall data' hp0,
               (base_update rt inv h data' false source ;;;
                (if negb false then raise ValueError else ret data')) hp0 = Ok (r, hp', l) ->
               False).
    { intros data' hp0 E'. binv E' as u hp1 l1 E1. discriminate E'. }
    destruct (py_get "prefix" d) eqn:Hv;
      try (rewrite bind_ret in E; exfalso; eapply Hraise; exact E);
      try discriminate E;
      (destruct (ip_network rt _) as [[v6 text]|] eqn:Hn;
       [ cbn [data_setitem] in E; rewrite bind_assoc, bind_lift_ok, bind_ret in E;
         exfalso; eapply Hraise; exact E
       | rewrite bind_assoc, bind_emit, bind_ret in E; cbn in E; inversion E; subst;
         repeat split; exists d; rewrite Hv; repeat split; exact Hn ]).
Qed.

End UpdateEdges.

Lemma update_with_no_mapping_witness :
  update sample_runtime sample_inventory 0 (VStr "name") false None [blank NBSite]
  = Raise AttributeError.
Proof.
  apply (update_with_no_mapping sample_runtime sample_inventory [blank NBSite] 0
           (blank NBSite) (VStr "name") false None eq_refl).
  discriminate.
Defined.

Lemma update_from_netbox_witness :
  update sample_runtime sample_inventory 0
    (VDict [("id", VInt 5); ("name", VStr "prod"); ("status", VDict [("value", VStr "active")])])
    true (Some 1%nat) tenant_heap
  = Ok (VDict [("id", VInt 5); ("name", VStr "prod");
               ("status", VDict [("value", VStr "active")])],
        [mkObj NBTenant
           [("id", VInt 5); ("name", VStr "prod");
            ("status", VDict [("value", VStr "active")])]
           false (VInt 5) [] [] None],
        []).
Proof.
  apply (update_from_netbox sample_runtime sample_inventory tenant_heap 0
           (with_data [("name", VStr "old")] (blank NBTenant))
           [("id", VInt 5); ("name", VStr "prod");
            ("status", VDict [("value", VStr "active")])]
           (Some 1%nat) eq_refl).
  discriminate.
Defined.

Lemma prefix_update_returns_unchanged_witness :
  [blank NBPrefix] = [blank NBPrefix]
  /\ VDict [("prefix", VStr "not-a-prefix")] = VDict [("prefix", VStr "not-a-prefix")]
  /\ exists d, VDict [("prefix", VStr "not-a-prefix")] = VDict d
               /\ ip_network sample_runtime (py_get "prefix" d) = None
               /\ [mkLog LError (MPrefixParse NBPrefix (VStr "not-a-prefix"))]
                  = [mkLog LError (MPrefixParse NBPrefix (py_get "prefix" d))].
Proof.
  apply (prefix_update_returns_unchanged sample_runtime sample_inventory [blank NBPrefix] 0
           (blank NBPrefix) (VDict [("prefix", VStr "not-a-prefix")]) None
           _ _ _ eq_refl eq_refl).
  reflexivity.
Defined.


(** ** What an update from a source never does *)

Lemma kept_refl o : kept o o.
Proof. repeat split. exists []. now rewrite app_nil_r. Qed.

Lemma kept_trans a b c : kept a b -> kept b c -> kept a c.
Proof.
  intros (A1 & A2 & A3 & (m1 & A4)) (B1 & B2 & B3 & (m2 & B4)).
  repeat split; try congruence. exists (m1 ++ m2)%list. now rewrite B4, A4, app_assoc.
Qed.

Lemma grows_refl hp : grows hp hp.
Proof. intros x o H. exists o. split; [exact H | apply kept_refl]. Qed.

Lemma grows_trans a b c : grows a b -> grows b c -> grows a c.
Proof.
  intros H1 H2 x o Hx. destruct (H1 _ _ Hx) as (o1 & Hx1 & K1).
  destruct (H2 _ _ Hx1) as (o2 & Hx2 & K2).
  exists o2. split; [exact Hx2 | eapply kept_trans; eassumption].
Qed.

Lemma grows_modify h f :
  (forall o, kept o (f o)) -> respects (on_heap grows) (modify_obj h f).
Proof.
  intros Hf hp a hp' l E. unfold on_heap.
  apply modify_obj_inv in E as (o & Ho & -> & _).
  intros x ox Hx. destruct (Nat.eq_dec h x) as [->|Hne].
  - exists (f o). split.
    + eapply nth_error_list_set_same; eassumption.
    + rewrite Ho in Hx. inversion Hx; subst. apply Hf.
  - exists ox. split; [|apply kept_refl].
    rewrite nth_error_list_set_other by assumption. exact Hx.
Qed.

Lemma grows_inventory_add inv c d s :
  respects (on_heap grows) (inventory_add inv c d s).
Proof.
  intros hp a hp' l E. unfold on_heap.
  apply inventory_add_inv in E as (created & _ & -> & _).
  intros x o Hx. exists o. split; [|apply kept_refl].
  rewrite nth_error_app1; [exact Hx|]. apply nth_error_Some. congruence.
Qed.

Lemma kept_store key v o : kept o (store key v o).
Proof. repeat split. exists []. cbn. now rewrite app_nil_r. Qed.

Lemma kept_append_updated key o : kept o (append_updated key o).
Proof. repeat split. exists [key]. reflexivity. Qed.

Lemma kept_set_source s o : kept o (set_source s o).
Proof. repeat split. exists []. cbn. now rewrite app_nil_r. Qed.

Lemma kept_set_nb_id v o : kept o (set_nb_id v o).
Proof. repeat split. exists []. cbn. now rewrite app_nil_r. Qed.

Ltac grows_leaf :=
  first
    [ apply (respects_emit_heap _ grows_refl)
    | apply (respects_reads _ grows_refl);
      first [ apply reads_display | apply reads_get_display_name
            | apply reads_call_get_display_name | apply reads_get_tags
            | apply reads_current_value_text | apply reads_new_value_text
            | apply reads_same_float | apply reads_check_max_len
            | apply reads_check_choice | apply reads_check_type
            | apply reads_derive_slug | apply reads_extract_tags ]
    | apply grows_inventory_add
    | apply grows_modify; intros ?;
      first [ apply kept_store | apply kept_set_source | apply kept_set_nb_id
            | apply kept_append_updated
            | eapply kept_trans; [apply kept_store | apply kept_append_updated] ] ].

Ltac grows_auto tac :=
  respects_auto (on_heap_refl _ grows_refl) (on_heap_trans _ grows_trans)
    ltac:(first [grows_leaf | tac]).

Section Growing.
Context (rt : Runtime) (inv : Inventory).

Lemma grows_compile_tags h tags remove :
    respects (on_heap grows) (compile_tags rt inv h tags remove).
Proof. unfold compile_tags. grows_auto fail. Qed.

Lemma grows_compile_vlans h vlans : respects (on_heap grows) (compile_vlans inv h vlans).
Proof. unfold compile_vlans. grows_auto fail. Qed.

Lemma grows_base_resolve_relations h :
    respects (on_heap grows) (base_resolve_relations rt inv h).
Proof. unfold base_resolve_relations. grows_auto fail. Qed.

Lemma grows_resolve_relations h : respects (on_heap grows) (resolve_relations rt inv h).
Proof.
    unfold resolve_relations, ip_resolve_relations, do_error_exit.
    grows_auto ltac:(solve [apply grows_base_resolve_relations]).
Qed.

Lemma grows_convert_value h source dt v :
    respects (on_heap grows) (convert_value rt inv h source dt v).
Proof.
    unfold convert_value.
    grows_auto ltac:(first [ apply grows_compile_tags | apply grows_compile_vlans ]).
Qed.

Lemma grows_parse_item h source dn parsed kv :
    respects (on_heap grows) (parse_item rt inv h source dn parsed kv).
Proof. unfold parse_item. grows_auto ltac:(solve [apply grows_convert_value]). Qed.

Lemma grows_apply_item h dn kv : respects (on_heap grows) (apply_item rt inv h dn kv).
Proof. unfold apply_item. grows_auto ltac:(solve [apply grows_resolve_relations]). Qed.

Lemma grows_base_update h data source :
    respects (on_heap grows) (base_update rt inv h data false source).
Proof.
    unfold base_update. destruct data; cbv iota;
      grows_auto ltac:(first [ apply grows_parse_item | apply grows_apply_item ]).
Qed.

  (** X8.  An update with data that do not come from NetBox never removes
      an entity, and never changes the class, the [is_new] flag or the
      unset keys of one; of the updated keys of an entity none is taken
      away, the update only adds to them.  This holds for every class, the
      ones with an [update] of their own included, and for the entities the
      update reaches through the inventory, which adds entities and changes
      none. *)
Theorem update_only_adds_updated_keys h data source hp r hp' l :
    update rt inv h data false source hp = Ok (r, hp', l) ->
    grows hp hp'.
Proof.
    revert hp r hp' l.
    change (respects (on_heap grows) (update rt inv h data false source)).
    unfold update, vlan_update, prefix_update, ip_update, data_setitem, data_get.
    grows_auto ltac:(solve [apply grows_base_update]).
Qed.

End Growing.

Lemma update_only_adds_updated_keys_witness :
  grows tenant_heap
    [mkObj NBTenant
       [("name", VStr "ACME Corp."); ("description", VStr "a tenant");
        ("slug", VStr "acme-corp-")]
       true (VInt 0) ["name"; "description"; "slug"] [] (Some 1%nat)].
Proof.
  apply (update_only_adds_updated_keys sample_runtime sample_inventory 0
           (VDict tenant_data) (Some 1%nat) tenant_heap (VDict tenant_data)
           [mkObj NBTenant
              [("name", VStr "ACME Corp."); ("description", VStr "a tenant");
               ("slug", VStr "acme-corp-")]
              true (VInt 0) ["name"; "description"; "slug"] [] (Some 1%nat)]
           [mkLog LDebug2 (MParsing NBTenant (VStr "ACME Corp."))]).
  vm_compute. reflexivity.
Defined.

(** ** The VLAN list [compile_vlans] builds *)

Lemma NoDup_snoc {A} (l : list A) (x : A) : NoDup l -> ~ In x l -> NoDup (l ++ [x]).
Proof.
  intros Hl Hx. apply NoDup_app; [exact Hl | repeat constructor; intros [] |].
  intros y Hy [<-|[]]. contradiction.
Qed.

Section VlanList.
Context (inv : Inventory).

  (** X9.  Whatever list [compile_vlans] is given, what it returns holds
      entities only and none of them twice, and no more members than the
      list given; what is no VLAN entity and no mapping is left out.  It
      returns None, and does nothing, exactly when the value is None or the
      class of the entity has no VLAN list. *)
Theorem compile_vlans_has_each_vlan_once h vlans hp r hp' l :
    compile_vlans inv h vlans hp = Ok (r, hp', l) ->
    exists o, nth_error hp h = Some o
      /\ if is_none vlans || negb (model_has_list NBVLANList (o_class o))
         then r = VNone /\ hp' = hp /\ l = []
         else exists given items,
             members vlans = Some given
             /\ r = VObjList NBVLANList items
             /\ NoDup items
             /\ Forall (fun x => exists t, x = VObj t) items
             /\ (List.length items <= List.length given)%nat.
Proof.
    intros E. unfold compile_vlans in E.
    binv E as o hp0 l0 E0. apply get_obj_inv in E0 as (Ho & -> & ->).
    exists o. split; [exact Ho|].
    destruct (is_none vlans || negb (model_has_list NBVLANList (o_class o))).
    { apply ret_inv in E as (-> & -> & ->). auto. }
    assert (Hmem : exists given, members vlans = Some given
                   /\ exists items hpi li,
                        r = VObjList NBVLANList items /\
                        foldM (fun (new_vlan_list : list Value) vlan =>
                     new_vlan_object <-
                       match vlan with
                       | VObj h' =>
                           o' <- get_obj h' ;;
                           if class_eqb (o_class o') NBVLAN then ret (Some vlan)
                           else emit LError (MVlanUnparsable vlan) ;;; ret None
                       | VDict _ =>
                           me <- get_obj h ;;
                           t <- inventory_add inv (Some NBVLAN) vlan (o_source me) ;;
                           ret (Some (VObj t))
                       | _ => emit LError (MVlanUnparsable vlan) ;;; ret None
                       end ;;
                     match new_vlan_object with
                     | None => ret new_vlan_list
                     | Some x =>
                         if py_in x new_vlan_list then ret new_vlan_list
                         else ret (new_vlan_list ++ [x])%list
                     end) given [] hpi = Ok (items, hp', li)).
    { destruct vlans; try discriminate E.
      all: eexists; (split; [reflexivity|]).
      all: binv E as u1 hp1 l1 E1; binv E as items hp2 l2 E2;
        apply ret_inv in E as (-> & -> & ->); eauto. }
    destruct Hmem as (given & Hg & items & hpi & li & -> & Hf).
    exists given, items. split; [exact Hg|]. split; [reflexivity|].
    clear E Hg Ho.
    match type of Hf with
    | foldM ?f _ _ _ = _ =>
        assert (Hloop : forall l acc hpa acc' hpb lg,
                   foldM f l acc hpa = Ok (acc', hpb, lg) ->
                   NoDup acc -> Forall (fun x => exists t, x = VObj t) acc ->
                   NoDup acc' /\ Forall (fun x => exists t, x = VObj t) acc'
                   /\ (List.length acc' <= List.length acc + List.length l)%nat)
    end.
    { clear. induction l as [|x r IH]; intros acc hpa acc' hpb lg E Hn Ha.
      - apply ret_inv in E as (-> & _ & _). cbn. repeat split; auto. lia.
      - cbn [foldM] in E. binv E as a1 hp1 l1 E1.
        assert (Hstep : NoDup a1 /\ Forall (fun x => exists t, x = VObj t) a1
                        /\ (List.length a1 <= S (List.length acc))%nat).
        { binv E1 as nvo hp2 l2 E2.
          assert (Hnvo : match nvo with
                         | Some y => exists t, y = VObj t
                         | None => True
                         end).
          { destruct x; minv; try exact I; eauto;
              try (destruct (class_eqb _ _); minv; eauto; exact I). }
          destruct nvo as [y|].
          - destruct Hnvo as (t & ->).
            destruct (py_in (VObj t) acc) eqn:Hin;
              apply ret_inv in E1 as (-> & _ & _).
            + repeat split; auto.
            + repeat split.
              * apply NoDup_snoc; [exact Hn|]. intros Hi.
                apply py_in_handle in Hi. congruence.
              * apply Forall_app. split; [exact Ha|]. repeat constructor. eauto.
              * rewrite length_app. cbn. lia.
          - apply ret_inv in E1 as (-> & _ & _). repeat split; auto. }
        destruct Hstep as (Hn1 & Ha1 & Hl1).
        destruct (IH _ _ _ _ _ E Hn1 Ha1) as (Hn2 & Ha2 & Hl2).
        repeat split; auto. cbn [List.length]. lia. }
    destruct (Hloop _ _ _ _ _ _ Hf (NoDup_nil _) (Forall_nil _)) as (H1 & H2 & H3).
    repeat split; auto.
Qed.

End VlanList.

Lemma compile_vlans_has_each_vlan_once_witness :
  exists o, nth_error twin_heap 0 = Some o
    /\ if is_none (VList [VObj 1; VInt 5; VObj 1])
          || negb (model_has_list NBVLANList (o_class o))
       then VObjList NBVLANList [VObj 1] = VNone /\ twin_heap = twin_heap
            /\ [mkLog LDebug2 MCompilingVlans;
                mkLog LError (MVlanUnparsable (VInt 5))] = []
       else exists given items,
           members (VList [VObj 1; VInt 5; VObj 1]) = Some given
           /\ VObjList NBVLANList [VObj 1] = VObjList NBVLANList items
           /\ NoDup items
           /\ Forall (fun x => exists t, x = VObj t) items
           /\ (List.length items <= List.length given)%nat.
Proof.
  apply (compile_vlans_has_each_vlan_once sample_inventory 0
           (VList [VObj 1; VInt 5; VObj 1]) twin_heap
           (VObjList NBVLANList [VObj 1]) twin_heap
           [mkLog LDebug2 MCompilingVlans;
            mkLog LError (MVlanUnparsable (VInt 5))]).
  reflexivity.
Defined.

(** ** The display name and the primary key *)

Section DisplayName.
Context (rt : Runtime).

  (** X10.  An entity of a class other than NBVLAN has a display name
      exactly when its primary key has a value: the name is None if and
      only if the value under the primary key, in the data given or else in
      its own, is None.  Asking for the name changes nothing; and where the
      class has no secondary key, or the key is neither enforced nor asked
      for, the name is the value of the primary key itself and nothing is
      logged. *)
Theorem display_name_is_none_without_primary_key h data incl hp o v hp' l :
    nth_error hp h = Some o ->
    o_class o <> NBVLAN ->
    get_display_name rt h data incl hp = Ok (v, hp', l) ->
    hp' = hp
    /\ is_none v
       = is_none (py_get (primary_key (o_class o))
                    (match data with Some d => d | None => o_data o end))
    /\ (secondary_key (o_class o) = None
        \/ enforce_secondary_key (o_class o) || incl = false ->
        v = py_get (primary_key (o_class o))
              (match data with Some d => d | None => o_data o end)
        /\ l = []).
Proof.
    intros Hh Hc E.
    set (my_name := py_get (primary_key (o_class o))
                      (match data with Some d => d | None => o_data o end)).
    split; [symmetry; exact (reads_get_display_name rt h data incl _ _ _ _ E)|].
    unfold get_display_name in E.
    destruct (recursion_limit rt) as [|f]; [discriminate E|].
    rewrite display_S in E. rewrite (bind_get_obj _ _ _ _ Hh) in E.
    assert (Eb : base_get_display_name rt (display rt f) h data incl hp = Ok (v, hp', l)).
    { destruct (o_class o); try exact E. now elim Hc. }
    clear E. unfold base_get_display_name in Eb.
    rewrite (bind_get_obj _ _ _ _ Hh) in Eb. fold my_name in Eb.
    destruct (secondary_key (o_class o)) as [sk|].
    - destruct (is_none my_name) eqn:Hn; cbn [negb andb] in Eb.
      + apply ret_inv in Eb as (-> & _ & ->). split; [exact Hn|].
        intros _. auto.
      + destruct (enforce_secondary_key (o_class o) || incl) eqn:Hk.
        * minv. split; [reflexivity|].
          intros [H|H]; discriminate H.
        * apply ret_inv in Eb as (-> & _ & ->). split; [exact Hn|]. auto.
    - apply ret_inv in Eb as (-> & _ & ->). split; [reflexivity|]. auto.
Qed.

End DisplayName.

Lemma display_name_is_none_without_primary_key_witness :
  tenant_heap = tenant_heap
  /\ is_none (VStr "old") = is_none (py_get (primary_key NBTenant)
                                       (o_data (with_data [("name", VStr "old")] (blank NBTenant))))
  /\ (secondary_key NBTenant = None
      \/ enforce_secondary_key NBTenant || false = false ->
      VStr "old" = py_get (primary_key NBTenant)
                     (o_data (with_data [("name", VStr "old")] (blank NBTenant)))
      /\ @nil LogEntry = []).
Proof.
  apply (display_name_is_none_without_primary_key sample_runtime 0 None false tenant_heap
           (with_data [("name", VStr "old")] (blank NBTenant)) (VStr "old") tenant_heap []).
  - reflexivity.
  - discriminate.
  - reflexivity.
Defined.

(** ** Adding tags *)

Section AddingTags.
Context (rt : Runtime) (inv : Inventory).

  (** X11.  Compiling tags to add never drops a tag the entity has: what
      [compile_tags] returns without [remove] is the current value of the
      entity as it is, when no tag is new, or else the new tag entities
      followed by all the current members, in their order.  The entities
      there were are left as they are; the inventory may add some.  It
      returns None, and does nothing, exactly when the value is None or the
      class has no tags. *)
Theorem compile_tags_keeps_current_tags h tags hp o r hp' l :
    nth_error hp h = Some o ->
    compile_tags rt inv h tags false hp = Ok (r, hp', l) ->
    if is_none tags || negb (model_has_list NBTagList (o_class o))
    then r = VNone /\ hp' = hp /\ l = []
    else exists new created,
        Forall (fun x => exists t, x = VObj t) new
        /\ hp' = (hp ++ created)%list
        /\ match new with
           | [] => r = grab_data "tags" (VObjList NBTagList []) o
           | _ :: _ =>
               exists items,
                 members (grab_data "tags" (VObjList NBTagList []) o) = Some items
                 /\ r = VObjList NBTagList (new ++ items)
           end.
Proof.
    intros Hh E. unfold compile_tags in E.
    rewrite (bind_get_obj _ _ _ _ Hh) in E.
    destruct (is_none tags || negb (model_has_list NBTagList (o_class o))).
    { apply ret_inv in E as (-> & -> & ->). auto. }
    binv E as u hp1 l1 E1. apply emit_inv in E1 as (-> & ->).
    binv E as names hp2 l2 E2.
    assert (hp2 = hp) as ->.
    { assert (Hr : reads (match tags with
                          | VList l | VObjList _ l => foldM (extract_tags rt) l []
                          | _ => extract_tags rt [] tags
                          end)).
      { reads_auto ltac:(solve [apply reads_extract_tags]). }
      symmetry. exact (Hr _ _ _ _ E2). }
    binv E as cur hp3 l3 E3.
    assert (hp3 = hp) as -> by (symmetry; exact (reads_get_tags rt h _ _ _ _ E3)).
    binv E as lists hp4 l4 E4.
    match type of E4 with
    | foldM ?f _ _ _ = _ =>
        assert (Hloop : forall ns acc hpa acc' hpb lg,
                   foldM f ns acc hpa = Ok (acc', hpb, lg) ->
                   Forall (fun x => exists t, x = VObj t) (fst acc) -> snd acc = [] ->
                   Forall (fun x => exists t, x = VObj t) (fst acc') /\ snd acc' = []
                   /\ exists created, hpb = (hpa ++ created)%list)
    end.
    { clear. induction ns as [|n ns IH]; intros acc hpa acc' hpb lg E Ha Hs.
      - apply ret_inv in E as (-> & -> & _). repeat split; auto.
        exists []. now rewrite app_nil_r.
      - cbn [foldM] in E. binv E as a1 hp1 l1 E1.
        destruct acc as [new removed]. cbn [fst snd] in Ha, Hs. subst removed.
        rewrite andb_false_r in E1.
        assert (Hstep : Forall (fun x => exists t, x = VObj t) (fst a1) /\ snd a1 = []
                        /\ exists created, hp1 = (hpa ++ created)%list).
        { destruct (negb (py_in n cur) && negb false); minv; cbn [fst snd].
          - repeat split; eauto.
            apply Forall_app. split; [exact Ha|]. repeat constructor. eauto.
          - repeat split; auto. exists []. now rewrite app_nil_r. }
        destruct Hstep as (Ha1 & Hs1 & (c1 & ->)).
        destruct (IH _ _ _ _ _ E Ha1 Hs1) as (Ha2 & Hs2 & (c2 & ->)).
        repeat split; auto. exists (c1 ++ c2)%list. now rewrite app_assoc. }
    destruct (Hloop _ _ _ _ _ _ E4 (Forall_nil _) eq_refl) as (Hnew & Hrem & (created & ->)).
    clear Hloop E4. destruct lists as [new removed]. cbn [fst snd] in Hnew, Hrem.
    subst removed.
    assert (Hh' : nth_error (hp ++ created) h = Some o).
    { rewrite nth_error_app1; [exact Hh|]. apply nth_error_Some. congruence. }
    rewrite (bind_get_obj _ _ _ _ Hh') in E.
    exists new, created. split; [exact Hnew|].
    destruct new as [|x new].
    - apply ret_inv in E as (-> & -> & _). split; reflexivity.
    - destruct (grab_data "tags" (VObjList NBTagList []) o); try discriminate E;
        apply ret_inv in E as (-> & -> & _);
        (split; [reflexivity|]); eexists; split; reflexivity.
Qed.

End AddingTags.

Lemma compile_tags_keeps_current_tags_witness :
  if is_none (VStr "b") || negb (model_has_list NBTagList (o_class tagged_tenant))
  then VObjList NBTagList [VObj 2; VObj 1] = VNone
       /\ (tagged_heap ++ [with_data [("name", VStr "b")] (blank NBTag)])%list = tagged_heap
       /\ [mkLog LDebug2 MCompilingTags] = []
  else exists new created,
      Forall (fun x => exists t, x = VObj t) new
      /\ (tagged_heap ++ [with_data [("name", VStr "b")] (blank NBTag)])%list
         = (tagged_heap ++ created)%list
      /\ match new with
         | [] => VObjList NBTagList [VObj 2; VObj 1]
                 = grab_data "tags" (VObjList NBTagList []) tagged_tenant
         | _ :: _ =>
             exists items,
               members (grab_data "tags" (VObjList NBTagList []) tagged_tenant) = Some items
               /\ VObjList NBTagList [VObj 2; VObj 1] = VObjList NBTagList (new ++ items)
         end.
Proof.
  apply (compile_tags_keeps_current_tags sample_runtime sample_inventory 0 (VStr "b")
           tagged_heap tagged_tenant (VObjList NBTagList [VObj 2; VObj 1])
           (tagged_heap ++ [with_data [("name", VStr "b")] (blank NBTag)])%list
           [mkLog LDebug2 MCompilingTags]).
  - reflexivity.
  - vm_compute. reflexivity.
Defined.

(** ** Resolving what is resolved *)

Section ResolvingAgain.
Context (rt : Runtime) (inv : Inventory).

  (** X12.  [resolve_relations] finds nothing to do on an entity whose
      relations are resolved: where every value that the data model relates
      to other entities is None, an entity, or a list of entities of the
      member class, nothing is changed and nothing is logged.  (An IP
      address resolves its assigned object first and is left out here.) *)
Theorem resolve_relations_of_resolved_entity hp h o :
    nth_error hp h = Some o ->
    o_class o <> NBIPAddress ->
    is_resolved hp o = true ->
    resolve_relations rt inv h hp = Ok (tt, hp, []).
Proof.
    intros Hh Hc Hr. unfold resolve_relations.
    rewrite (bind_get_obj _ _ _ _ Hh).
    pose proof (base_resolve_relations_resolved rt inv _ _ _ Hh Hr) as Hb.
    destruct (o_class o); try exact Hb. now elim Hc.
Qed.

End ResolvingAgain.

Lemma resolve_relations_of_resolved_entity_witness :
  resolve_relations sample_runtime sample_inventory 0 tagged_heap = Ok (tt, tagged_heap, []).
Proof.
  apply (resolve_relations_of_resolved_entity sample_runtime sample_inventory
           tagged_heap 0 tagged_tenant).
  - reflexivity.
  - discriminate.
  - reflexivity.
Defined.

(** ** The display name of a list: the names in order *)

Section ListName.
Context (rt : Runtime).

  (** X14.  The display name of a list of entities does not depend on the
      order of its members, nor on the class of the list: where every member
      is shown as a string, the name is the list of these strings in
      ascending order, each as often as it occurs, and a list of the same
      members in another order has the same name.  Asking for the name
      changes nothing and logs nothing. *)
Theorem list_display_name_ignores_order hp lc lc' items items' names :
    Forall2 (shown_as rt hp) items names ->
    Permutation items items' ->
    (1 <= recursion_limit rt)%nat ->
    exists sorted,
      call_get_display_name rt (VObjList lc items) hp
      = Ok (VList (map VStr sorted), hp, [])
      /\ call_get_display_name rt (VObjList lc' items') hp
         = Ok (VList (map VStr sorted), hp, [])
      /\ Permutation sorted names
      /\ StronglySorted in_order sorted.
Proof.
    intros Hn Hp Hlim.
    destruct (Forall2_Permutation _ _ _ Hp _ Hn) as (names' & Hn' & Hq).
    destruct (py_sorted_in_order names) as (sorted & Hs & Hps & Hos).
    destruct (py_sorted_in_order names') as (sorted' & Hs' & Hps' & Hos').
    assert (sorted' = sorted) as ->.
    { apply in_order_unique; auto. now rewrite Hps', Hps, Hq. }
    exists sorted. repeat split; auto.
    - eapply list_display_sorted; eassumption.
    - eapply list_display_sorted; eassumption.
Qed.

End ListName.

Lemma list_display_name_ignores_order_witness :
  exists sorted,
    call_get_display_name sample_runtime (VObjList NBVLANList [VObj 2; VObj 1]) trunk_heap
    = Ok (VList (map VStr sorted), trunk_heap, [])
    /\ call_get_display_name sample_runtime (VObjList NBVLANList [VObj 1; VObj 2]) trunk_heap
       = Ok (VList (map VStr sorted), trunk_heap, [])
    /\ Permutation sorted ["20 (twenty)"; "10 (ten)"]
    /\ StronglySorted in_order sorted.
Proof.
  apply (list_display_name_ignores_order sample_runtime trunk_heap NBVLANList NBVLANList
           [VObj 2; VObj 1] [VObj 1; VObj 2] ["20 (twenty)"; "10 (ten)"]).
  - repeat constructor.
  - apply perm_swap.
  - vm_compute. lia.
Defined.

(** ** The name of a VLAN *)

Lemma in_dict_set_same k x y (p : Dict) :
  In (k, y) (dict_set k x p) -> y = x \/ In (k, y) p.
Proof.
  induction p as [|[k0 v0] r IH]; cbn [dict_set].
  - intros [E|[]]. inversion E. auto.
  - destruct (String.eqb_spec k k0) as [->|Hk].
    + intros [E|H]; [inversion E; auto | right; now right].
    + intros [E|H]; [right; now left|]. destruct (IH H); auto. right. now right.
Qed.

Lemma in_dict_set_other k k' x y (p : Dict) :
  k <> k' -> In (k, y) (dict_set k' x p) -> In (k, y) p.
Proof.
  intros Hne. induction p as [|[k0 v0] r IH]; cbn [dict_set].
  - intros [E|[]]. inversion E. congruence.
  - destruct (String.eqb_spec k' k0) as [->|Hk].
    + intros [E|H]; [inversion E; congruence | now right].
    + intros [E|H]; [now left | right; auto].
Qed.

Lemma in_dict_set_unique k x y (d : Dict) :
  NoDup (map fst d) -> In (k, y) (dict_set k x d) -> y = x.
Proof.
  induction d as [|[k0 v0] r IH]; cbn [dict_set map fst]; intros Hn.
  - intros [E|[]]. now inversion E.
  - apply NoDup_cons_iff in Hn as (Hk0 & Hn).
    destruct (String.eqb_spec k k0) as [->|Hk].
    + intros [E|H]; [now inversion E|].
      exfalso. apply Hk0. change k0 with (fst (k0, y)). now apply in_map.
    + intros [E|H]; [inversion E; congruence | auto].
Qed.

Section NamedVlan.
Context (rt : Runtime) (inv : Inventory) (h : nat) (name : Value).

Lemma named_modify t f :
    (forall o, o_class (f o) = o_class o) ->
    (forall o, py_get "name" (o_data (f o)) = py_get "name" (o_data o)) ->
    respects (on_heap (keeps (vlan_named h name))) (modify_obj t f).
Proof.
    intros Hc Hn hp a hp' l E (o & Ho & Hco & Hno).
    apply modify_obj_inv in E as (o1 & Ho1 & -> & ->).
    destruct (Nat.eq_dec t h) as [->|Hne].
    - assert (o1 = o) by congruence. subst o1. exists (f o).
      split; [eapply nth_error_list_set_same; eassumption|].
      rewrite Hc, Hn. auto.
    - exists o. rewrite nth_error_list_set_other by assumption. auto.
Qed.

Lemma named_inventory_add c d s :
    respects (on_heap (keeps (vlan_named h name))) (inventory_add inv c d s).
Proof.
    intros hp a hp' l E (o & Ho & Hco & Hno).
    apply inventory_add_inv in E as (created & _ & -> & _).
    exists o. split; [|auto].
    rewrite nth_error_app1; [exact Ho|]. apply nth_error_Some. congruence.
Qed.

Lemma named_store_other t key v :
    key <> "name" ->
    respects (on_heap (keeps (vlan_named h name))) (modify_obj t (store key v)).
Proof.
    intros Hk. apply named_modify; intros o; [reflexivity|].
    unfold store. cbn. apply py_get_dict_set_other. congruence.
Qed.

End NamedVlan.

Ltac named_leaf rt h name :=
  first
    [ apply respects_reads;
      [ apply keeps_refl
      | first [ apply reads_display | apply reads_get_display_name
              | apply reads_call_get_display_name | apply reads_get_tags
              | apply reads_current_value_text | apply reads_new_value_text
              | apply reads_same_float | apply reads_check_max_len
              | apply reads_check_choice | apply reads_check_type
              | apply reads_derive_slug | apply reads_extract_tags ] ]
    | apply named_inventory_add
    | apply named_modify; intros ?; reflexivity
    | apply named_store_other; first [assumption | discriminate] ].

Ltac named_auto rt h name tac :=
  keeps_auto (vlan_named h name) ltac:(first [named_leaf rt h name | tac]).

Section VlanName.
Context (rt : Runtime) (inv : Inventory) (h : nat) (name : Value).

Lemma named_compile_tags tags remove :
    respects (on_heap (keeps (vlan_named h name))) (compile_tags rt inv h tags remove).
Proof. unfold compile_tags. named_auto rt h name fail. Qed.

Lemma named_compile_vlans vlans :
    respects (on_heap (keeps (vlan_named h name))) (compile_vlans inv h vlans).
Proof. unfold compile_vlans. named_auto rt h name fail. Qed.

Lemma named_convert_value source dt v :
    respects (on_heap (keeps (vlan_named h name))) (convert_value rt inv h source dt v).
Proof.
    unfold convert_value.
    named_auto rt h name ltac:(first [ apply named_compile_tags | apply named_compile_vlans ]).
Qed.

Lemma named_parse_item source dn parsed kv :
    respects (on_heap (keeps (vlan_named h name))) (parse_item rt inv h source dn parsed kv).
Proof. unfold parse_item. named_auto rt h name ltac:(solve [apply named_convert_value]). Qed.

  (** Resolving the relations of a VLAN leaves its name as it is: the name
      is no relation. *)
Lemma named_resolve_relations :
    respects (on_heap (keeps (vlan_named h name))) (resolve_relations rt inv h).
Proof.
    intros hp a hp' l E HP. pose proof HP as (o & Ho & Hc & Hn).
    unfold resolve_relations in E. rewrite (bind_get_obj _ _ _ _ Ho), Hc in E.
    unfold base_resolve_relations in E. rewrite (bind_get_obj _ _ _ _ Ho), Hc in E.
    revert HP. revert E.
    match goal with
    | |- forM_ ?f ?m hp = _ -> _ =>
        enough (Hall : respects (on_heap (keeps (vlan_named h name))) (forM_ f m))
          by (intros E; exact (Hall _ _ _ _ E))
    end.
    apply respects_forM_in;
      [ apply on_heap_refl, keeps_refl | apply on_heap_trans, keeps_trans | ].
    intros [k ty] Hin. cbn [data_model] in Hin.
    repeat (destruct Hin as [Hin|Hin];
            [ inversion Hin; subst k ty; clear Hin;
              cbv beta iota; simpl (PyStr.startswith _ _); cbv iota;
              named_auto rt h name fail
            | ]).
    contradiction.
Qed.

Lemma named_apply_item_other dn key v :
    key <> "name" ->
    respects (on_heap (keeps (vlan_named h name))) (apply_item rt inv h dn (key, v)).
Proof.
    intros Hk. unfold apply_item.
    named_auto rt h name
      ltac:(first [ solve [apply named_resolve_relations]
                  | apply named_modify; intros ?;
                    [ reflexivity
                    | unfold store, append_updated; cbn;
                      apply py_get_dict_set_other; congruence ] ]).
Qed.

Lemma named_apply_item dn key v :
    (key = "name" -> exists s, name = VStr s /\ v = VStr s) ->
    respects (on_heap (keeps (vlan_named h name))) (apply_item rt inv h dn (key, v)).
Proof.
    intros Hkv. destruct (String.eqb_spec key "name") as [->|Hk].
    - destruct (Hkv eq_refl) as (s & -> & ->).
      intros hp a hp' l E HP. pose proof HP as (o & Ho & Hc & Hn).
      unfold apply_item in E. rewrite (bind_get_obj _ _ _ _ Ho), Hn in E.
      cbn [py_eq] in E. rewrite String.eqb_refl in E.
      apply ret_inv in E as (_ & -> & _). exact HP.
    - now apply named_apply_item_other.
Qed.

End VlanName.

Section VlanUpdate.
Context (rt : Runtime) (inv : Inventory) (h : nat) (name : Value).

Lemma parse_item_shape source dn parsed key value hp parsed' hp' l :
    parse_item rt inv h source dn parsed (key, value) hp = Ok (parsed', hp', l) ->
    parsed' = parsed \/ exists x, parsed' = dict_set key x parsed.
Proof.
    intros E. unfold parse_item in E.
    binv E as o hp0 l0 E0. clear E0.
    destruct (model_get key (data_model (o_class o))); [|minv; now left].
    destruct (is_none value); [minv; now left|].
    binv E as r1 hp1 l1 E1. clear E1.
    destruct r1 as [v1|]; [|minv; now left].
    binv E as r2 hp2 l2 E2. clear E2.
    destruct r2 as [v2|]; [|minv; now left].
    binv E as r3 hp3 l3 E3. clear E3.
    destruct r3 as [v3|]; [|minv; now left].
    binv E as v4 hp4 l4 E4. clear E4.
    apply ret_inv in E as (-> & _ & _). right. eauto.
Qed.

Hypothesis name_fits : forall s, name = VStr s -> (String.length s <= 64)%nat.

Lemma parse_item_name source dn parsed key value hp parsed' hp' l :
    vlan_named h name hp ->
    parsed_name name parsed ->
    (key = "name" -> value = name) ->
    parse_item rt inv h source dn parsed (key, value) hp = Ok (parsed', hp', l) ->
    parsed_name name parsed'.
Proof.
    intros (o & Ho & Hc & Hn) HQ Hkv E.
    destruct (String.eqb_spec key "name") as [->|Hk].
    - rewrite (Hkv eq_refl) in E. clear Hkv.
      unfold parse_item in E. rewrite (bind_get_obj _ _ _ _ Ho), Hc in E.
      change (model_get "name" (data_model NBVLAN)) with (Some (TMaxLen 64)) in E.
      cbv iota in E.
      destruct (is_none name); [minv; exact HQ|].
      change (PyStr.startswith "primary_ip" "name") with false in E. cbv iota in E.
      unfold check_max_len, check_choice, check_type, convert_value in E.
      cbn [type_check_failed] in E.
      destruct name as [| | | |s| | | | |]; try (minv; exact HQ).
      change (String.eqb "name" "slug") with false in E. cbv iota in E.
      minv. intros x Hx. apply in_dict_set_same in Hx as [->|Hx]; [|now apply HQ].
      exists s. split; [reflexivity|].
      unfold PyStr.slice0. cbn [Z.leb Z.compare].
      change (Z.to_nat 64) with 64%nat.
      pose proof (name_fits s eq_refl) as Hs.
      now rewrite (SlugFacts.take_whole _ s Hs), (SlugFacts.take_whole _ s Hs).
    - destruct (parse_item_shape _ _ _ _ _ _ _ _ _ E) as [->|(x & ->)]; [exact HQ|].
      intros y Hy. apply HQ. eapply in_dict_set_other; [|exact Hy]. congruence.
Qed.

Lemma parse_loop_name source dn (items : Dict) :
    forall parsed hp parsed' hp' l,
      vlan_named h name hp ->
      parsed_name name parsed ->
      (forall x, In ("name", x) items -> x = name) ->
      foldM (parse_item rt inv h source dn) items parsed hp = Ok (parsed', hp', l) ->
      vlan_named h name hp' /\ parsed_name name parsed'.
Proof.
    induction items as [|[key value] items IH]; intros parsed hp parsed' hp' l HP HQ Hin E.
    - apply ret_inv in E as (-> & -> & _). auto.
    - cbn [foldM] in E. binv E as p1 hp1 l1 E1.
      assert (HP1 : vlan_named h name hp1)
        by exact (named_parse_item rt inv h name _ _ _ _ _ _ _ _ E1 HP).
      assert (HQ1 : parsed_name name p1).
      { eapply parse_item_name; [exact HP | exact HQ | | exact E1].
        intros ->. apply Hin. now left. }
      eapply IH; [exact HP1 | exact HQ1 | | exact E].
      intros y Hy. apply Hin. now right.
Qed.

Lemma base_update_named (d : Dict) source hp u hp' l :
    vlan_named h name hp ->
    (forall x, In ("name", x) d -> x = name) ->
    base_update rt inv h (VDict d) false source hp = Ok (u, hp', l) ->
    vlan_named h name hp'.
Proof.
    intros HP Hin E. unfold base_update in E. cbv iota in E.
    binv E as u1 hp1 l1 E1.
    assert (HP1 : vlan_named h name hp1).
    { revert HP. revert E1. generalize hp u1 hp1 l1.
      change (respects (on_heap (keeps (vlan_named h name)))
                (if negb (is_none (py_get "id" d))
                 then modify_obj h (set_nb_id (py_get "id" d)) else ret tt)).
      named_auto rt h name fail. }
    clear E1 HP. binv E as u2 hp2 l2 E2.
    assert (HP2 : vlan_named h name hp2).
    { revert HP1. revert E2. generalize hp1 u2 hp2 l2.
      change (respects (on_heap (keeps (vlan_named h name)))
                (match source with
                 | Some _ => modify_obj h (set_source source)
                 | None => ret tt
                 end)).
      named_auto rt h name fail. }
    clear E2 HP1. binv E as dn1 hp3 l3 E3.
    assert (hp3 = hp2) as ->
      by (symmetry; exact (reads_get_display_name rt _ _ _ _ _ _ _ E3)).
    binv E as dn hp4 l4 E4.
    assert (hp4 = hp2) as ->.
    { destruct (is_none dn1).
      - symmetry. exact (reads_get_display_name rt _ _ _ _ _ _ _ E4).
      - now apply ret_inv in E4 as (_ & -> & _). }
    pose proof HP2 as (o & Ho & Hc & Hn).
    rewrite (bind_get_obj _ _ _ _ Ho), Hc in E.
    binv E as ue hpe le Ee. apply emit_inv in Ee as (-> & ->).
    binv E as parsed hp5 l5 E5.
    destruct (parse_loop_name _ _ _ _ _ _ _ _ HP2 (fun x (H : In _ []) => match H with end)
                Hin E5) as (HP5 & HQ5).
    unfold derive_slug in E.
    change (model_get "slug" (data_model NBVLAN)) with (@None DType) in E.
    cbv iota in E. rewrite bind_ret in E.
    assert (Hall : respects (on_heap (keeps (vlan_named h name)))
                     (forM_ (apply_item rt inv h dn) parsed)).
    { apply respects_forM_in;
        [ apply on_heap_refl, keeps_refl | apply on_heap_trans, keeps_trans | ].
      intros [key v] Hkv. apply named_apply_item. intros ->. exact (HQ5 _ Hkv). }
    exact (Hall _ _ _ _ E HP5).
Qed.

End VlanUpdate.

Section VlanKeepsName.
Context (rt : Runtime) (inv : Inventory).

  (** X15.  A VLAN that has a name keeps it: whatever name the data of a
      source give, [update] writes the name of the VLAN into the data,
      which the caller gets back so, and the name of the VLAN is afterwards
      what it was.  (The name is a string of at most 64 characters, as the
      data model has it, or no string; the keys of the data are distinct,
      as those of a [dict] are.) *)
Theorem vlan_update_keeps_name hp h o (d : Dict) source r hp' l :
    nth_error hp h = Some o ->
    o_class o = NBVLAN ->
    is_none (py_get "name" (o_data o)) = false ->
    (forall s, py_get "name" (o_data o) = VStr s -> (String.length s <= 64)%nat) ->
    NoDup (map fst d) ->
    update rt inv h (VDict d) false source hp = Ok (r, hp', l) ->
    r = VDict (dict_set "name" (py_get "name" (o_data o)) d)
    /\ exists o', nth_error hp' h = Some o' /\ o_class o' = NBVLAN
                  /\ py_get "name" (o_data o') = py_get "name" (o_data o).
Proof.
    intros Hh Hc Hn Hlen Hd E.
    unfold update in E. rewrite (bind_get_obj _ _ _ _ Hh), Hc in E.
    unfold vlan_update in E. rewrite (bind_get_obj _ _ _ _ Hh) in E.
    assert (Hg : grab_data "name" VNone o = py_get "name" (o_data o)).
    { unfold grab_data. destruct (py_get "name" (o_data o)); reflexivity. }
    rewrite Hg, Hn in E. cbn [negb andb data_setitem] in E.
    rewrite bind_lift_ok in E. binv E as u hp1 l1 E1.
    apply ret_inv in E as (-> & -> & _). split; [reflexivity|].
    eapply (base_update_named rt inv h (py_get "name" (o_data o)) Hlen); [| |exact E1].
    - exists o. auto.
    - intros y Hy. eapply in_dict_set_unique; eassumption.
Qed.

End VlanKeepsName.

Lemma vlan_update_keeps_name_witness :
  VDict [("name", VStr "ten"); ("description", VStr "lab")]
  = VDict (dict_set "name" (py_get "name" (o_data vlan_10))
             [("name", VStr "other"); ("description", VStr "lab")])
  /\ exists o', nth_error
                  [mkObj NBVLAN
                     [("vid", VInt 10); ("name", VStr "ten"); ("description", VStr "lab")]
                     true (VInt 0) ["description"] [] None] 0 = Some o'
                /\ o_class o' = NBVLAN
                /\ py_get "name" (o_data o') = py_get "name" (o_data vlan_10).
Proof.
  apply (vlan_update_keeps_name sample_runtime sample_inventory [vlan_10] 0 vlan_10
           [("name", VStr "other"); ("description", VStr "lab")] None
           (VDict [("name", VStr "ten"); ("description", VStr "lab")])
           [mkObj NBVLAN
              [("vid", VInt 10); ("name", VStr "ten"); ("description", VStr "lab")]
              true (VInt 0) ["description"] [] None]
           [mkLog LDebug2 (MParsing NBVLAN (VStr "10 (ten)"))]
           eq_refl eq_refl eq_refl).
  - intros s E. inversion E. cbn. lia.
  - repeat constructor; cbn; intuition discriminate.
  - vm_compute. reflexivity.
Defined.
